(** * Collaboration links and presence tracking

    A shallow embedding of [src/utils/collaborationSystem.ts]: the link
    registry, the roster of collaborators kept per spreadsheet, the liveness
    flag recomputed at every read, and the shareable URL.

    The browser is part of the state: [localStorage] is a finite map from key
    strings to the JSON documents the module writes, [Date.now()] is a clock
    the environment moves between calls, [window.location] gives the origin
    and the query string. *)

From Stdlib Require Import ZArith String Ascii List Lia DecimalString.
From Stdlib Require DecimalPos DecimalZ.
From stdpp Require Import base option gmap strings list fin_maps.

Local Open Scope string_scope.
Local Open Scope list_scope.
Local Open Scope Z_scope.

(** ** Data model *)

(** A point in time: milliseconds since the epoch, which is what
    [Date.now()] returns, what [new Date().toISOString()] prints and what
    [new Date(s).getTime()] reads back. *)
Definition Timestamp := Z.

Record CollaborationLink := mkLink {
  linkId : string;
  spreadsheetId : string;
  spreadsheetTitle : string;
  ownerEmail : string;
  createdAt : Timestamp;
  expiresAt : option Timestamp
}.

Record ActiveCollaborator := mkCollaborator {
  email : string;
  name : string;
  joinedAt : Timestamp;
  lastActive : Timestamp;
  isActive : bool
}.

(** The JSON documents found under the module's keys: a link, a roster, or an
    array of strings (link ids of an owner, spreadsheet ids of a user). *)
Inductive Json :=
| JLink (l : CollaborationLink)
| JRoster (cs : list ActiveCollaborator)
| JStrings (ids : list string).

(** Modelled from the spec: the NotificationSink. [trackActivity] lives in
    [utils/notificationSystem], which is not among the sources; the spec gives
    it as a fire-and-forget [dispatch(recipientEmail, eventKind, relatedId?,
    message)] whose failures are not observed. The sink is the list of the
    messages dispatched so far, oldest first. *)
Record Activity := mkActivity {
  recipient : string;
  eventKind : string;
  relatedId : option string;
  message : string
}.

Record Location := mkLocation {
  origin : string;
  search : string
}.

Record World := mkWorld {
  localStorage : gmap string Json;
  clock : Timestamp;
  location : Location;
  dispatched : list Activity
}.

Definition emptyWorld : World :=
  mkWorld ∅ 0 (mkLocation "" "") [].

(** Time passes between two calls, never inside one: a call is synchronous,
    and the clock readings it makes are taken to be the same instant. *)
Definition at_time (t : Timestamp) (w : World) : World :=
  mkWorld (localStorage w) t (location w) (dispatched w).

Definition navigate (loc : Location) (w : World) : World :=
  mkWorld (localStorage w) (clock w) loc (dispatched w).

(** ** The monad of a call

    A call reads and writes the world and returns a value, or stops with
    [Untyped] when a key holds a document of another shape than the one the
    reader casts it to ([JSON.parse(data)] typed by its annotation). *)
Inductive Outcome (A : Type) :=
| Returned (a : A) (w : World)
| Untyped.
Arguments Returned {A} a w.
Arguments Untyped {A}.

Definition M (A : Type) := World -> Outcome A.

Definition ret {A} (a : A) : M A := fun w => Returned a w.

Definition bind {A B} (m : M A) (k : A -> M B) : M B :=
  fun w => match m w with
           | Returned a w' => k a w'
           | Untyped => Untyped
           end.

Definition untyped {A} : M A := fun _ => Untyped.

Notation "x <- m ;; k" := (bind m (fun x => k))
  (at level 20, m at level 99, k at level 200, only parsing).
Notation "m ;;; k" := (bind m (fun _ => k))
  (at level 99, k at level 200, only parsing, right associativity).

Definition getItem (key : string) : M (option Json) :=
  fun w => Returned (localStorage w !! key) w.

Definition setItem (key : string) (value : Json) : M unit :=
  fun w => Returned tt
    (mkWorld (<[key := value]> (localStorage w)) (clock w) (location w)
             (dispatched w)).

Definition Date_now : M Timestamp := fun w => Returned (clock w) w.

Definition trackActivity (to kind : string) (rel : option string)
    (msg : string) : M unit :=
  fun w => Returned tt
    (mkWorld (localStorage w) (clock w) (location w)
             (dispatched w ++ [mkActivity to kind rel msg])).

(** ** Keys *)

Definition COLLABORATION_LINKS_KEY := "collaboration_links_".
Definition ACTIVE_COLLABORATORS_KEY := "active_collaborators_".
Definition COLLABORATION_ACCESS_KEY := "collaboration_access_".
Definition OWNER_LINKS_KEY := "owner_links_".

Definition linkKey (id : string) : string := COLLABORATION_LINKS_KEY +:+ id.
Definition rosterKey (sid : string) : string := ACTIVE_COLLABORATORS_KEY +:+ sid.
Definition accessKey (user : string) : string := COLLABORATION_ACCESS_KEY +:+ user.
Definition ownerKey (user : string) : string := OWNER_LINKS_KEY +:+ user.

(** ** Array helpers of the language *)

(** [Array.prototype.findIndex]: the index of the first element satisfying
    the predicate, [-1] when there is none. *)
Fixpoint findIndex {A} (p : A -> bool) (l : list A) : Z :=
  match l with
  | [] => -1
  | x :: l' => if p x then 0
               else let i := findIndex p l' in
                    if i <? 0 then -1 else i + 1
  end.

(** [Array.prototype.includes] on strings. *)
Definition includes (l : list string) (s : string) : bool :=
  existsb (String.eqb s) l.

(** [Array.prototype.some] with a callback that performs calls of its own:
    left to right, stopping at the first [true]. *)
Fixpoint some {A} (p : A -> M bool) (l : list A) : M bool :=
  match l with
  | [] => ret false
  | x :: l' => b <- p x ;; if b then ret true else some p l'
  end.

(** ** Link registry *)

Definition decimal (z : Z) : string := NilZero.string_of_int (Z.to_int z).

(** [rnd] stands for [Math.random().toString(36).substr(2, 9)]. *)
Definition generateLinkId (rnd : string) : M string :=
  t <- Date_now ;;
  ret ("collab_" +:+ decimal t +:+ "_" +:+ rnd).

Definition getCollaborationLink (id : string) : M (option CollaborationLink) :=
  data <- getItem (linkKey id) ;;
  match data with
  | None => ret None
  | Some (JLink l) => ret (Some l)
  | Some _ => untyped
  end.

Definition getOwnerLinks (owner : string) : M (list string) :=
  data <- getItem (ownerKey owner) ;;
  match data with
  | None => ret []
  | Some (JStrings ids) => ret ids
  | Some _ => untyped
  end.

Definition createCollaborationLink (rnd : string) (sid title owner : string)
    : M CollaborationLink :=
  id <- generateLinkId rnd ;;
  t <- Date_now ;;
  let link := mkLink id sid title owner t None in
  setItem (linkKey id) (JLink link) ;;;
  ownerLinks <- getOwnerLinks owner ;;
  setItem (ownerKey owner) (JStrings (ownerLinks ++ [id])) ;;;
  ret link.

Definition isSpreadsheetOwner (sid user : string) : M bool :=
  ownerLinks <- getOwnerLinks user ;;
  some (fun id =>
          link <- getCollaborationLink id ;;
          ret match link with
              | Some l => String.eqb (spreadsheetId l) sid
              | None => false
              end) ownerLinks.

(** ** Presence tracker *)

Definition fiveMinutes : Z := 5 * 60 * 1000.

Definition withLiveness (t : Timestamp) (c : ActiveCollaborator)
    : ActiveCollaborator :=
  mkCollaborator (email c) (name c) (joinedAt c) (lastActive c)
                 (t - lastActive c <? fiveMinutes).

Definition getActiveCollaborators (sid : string) : M (list ActiveCollaborator) :=
  data <- getItem (rosterKey sid) ;;
  match data with
  | None => ret []
  | Some (JRoster collaborators) =>
      t <- Date_now ;;
      ret (map (withLiveness t) collaborators)
  | Some _ => untyped
  end.

Definition getUserCollaborations (user : string) : M (list string) :=
  data <- getItem (accessKey user) ;;
  match data with
  | None => ret []
  | Some (JStrings ids) => ret ids
  | Some _ => untyped
  end.

(** [{...c, lastActive: t, isActive: true}] *)
Definition refreshed (t : Timestamp) (c : ActiveCollaborator)
    : ActiveCollaborator :=
  mkCollaborator (email c) (name c) (joinedAt c) t true.

Definition quote : string := String (ascii_of_nat 34) EmptyString.

Definition notifyOwnerOfNewCollaborator (owner collaboratorName title : string)
    : M unit :=
  trackActivity owner "collaboration_joined" None
    (collaboratorName +:+ " joined " +:+ quote +:+ title +:+ quote).

Definition addCollaborator (id userEmail userName : string) : M bool :=
  link <- getCollaborationLink id ;;
  match link with
  | None => ret false
  | Some link =>
      tj <- Date_now ;;
      tl <- Date_now ;;
      let collaborator := mkCollaborator userEmail userName tj tl true in
      collaborators <- getActiveCollaborators (spreadsheetId link) ;;
      let existingIndex :=
        findIndex (fun c => String.eqb (email c) userEmail) collaborators in
      collaborators' <-
        (if 0 <=? existingIndex
         then t <- Date_now ;;
              ret (alter (refreshed t) (Z.to_nat existingIndex) collaborators)
         else ret (collaborators ++ [collaborator])) ;;
      setItem (rosterKey (spreadsheetId link)) (JRoster collaborators') ;;;
      userAccess <- getUserCollaborations userEmail ;;
      (if includes userAccess (spreadsheetId link)
       then ret tt
       else setItem (accessKey userEmail)
                    (JStrings (userAccess ++ [spreadsheetId link]))) ;;;
      notifyOwnerOfNewCollaborator (ownerEmail link) userName
                                   (spreadsheetTitle link) ;;;
      ret true
  end.

(** [find] hands out the array's own element, so the two assignments are seen
    by the array that is written back: an update in place at the index of the
    first match. *)
Definition updateCollaboratorActivity (sid userEmail : string) : M unit :=
  collaborators <- getActiveCollaborators sid ;;
  let i := findIndex (fun c => String.eqb (email c) userEmail) collaborators in
  if 0 <=? i
  then t <- Date_now ;;
       setItem (rosterKey sid)
               (JRoster (alter (refreshed t) (Z.to_nat i) collaborators))
  else ret tt.

Definition removeCollaborator (sid userEmail : string) : M unit :=
  collaborators <- getActiveCollaborators sid ;;
  let filtered :=
    List.filter (fun c => negb (String.eqb (email c) userEmail)) collaborators in
  setItem (rosterKey sid) (JRoster filtered).

(** ** Shareable URL *)

Definition window_location : M Location := fun w => Returned (location w) w.

Definition getCollaborationLinkUrl (id : string) : M string :=
  loc <- window_location ;;
  let baseUrl := origin loc in
  ret (baseUrl +:+ "?collab=" +:+ id).

(** [URLSearchParams] is the platform's; what follows is the
    [application/x-www-form-urlencoded] parser of the URL standard on byte
    strings: split on [&], skip empty pieces, break each piece at its first
    [=], turn [+] into a space, percent-decode. The final UTF-8 decoding is
    the identity on well-formed input and is left out. *)
Module URLSearchParams.

Fixpoint split (sep : ascii) (s : string) : list string :=
  match s with
  | EmptyString => [EmptyString]
  | String c s' =>
      if Ascii.eqb c sep then EmptyString :: split sep s'
      else match split sep s' with
           | [] => [String c EmptyString]
           | piece :: pieces => String c piece :: pieces
           end
  end.

Fixpoint break (sep : ascii) (s : string) : string * string :=
  match s with
  | EmptyString => (EmptyString, EmptyString)
  | String c s' =>
      if Ascii.eqb c sep then (EmptyString, s')
      else let (n, v) := break sep s' in (String c n, v)
  end.

Fixpoint plus_to_space (s : string) : string :=
  match s with
  | EmptyString => EmptyString
  | String c s' =>
      String (if Ascii.eqb c "+" then " "%char else c) (plus_to_space s')
  end.

Definition hex_value (c : ascii) : option N :=
  let n := N_of_ascii c in
  if ((48 <=? n) && (n <=? 57))%N then Some (n - 48)%N
  else if ((65 <=? n) && (n <=? 70))%N then Some (n - 55)%N
  else if ((97 <=? n) && (n <=? 102))%N then Some (n - 87)%N
  else None.

Fixpoint percent_decode (s : string) : string :=
  match s with
  | EmptyString => EmptyString
  | String c s' =>
      if Ascii.eqb c "%" then
        match s' with
        | String h (String l rest) =>
            match hex_value h, hex_value l with
            | Some a, Some b =>
                String (ascii_of_N (16 * a + b)) (percent_decode rest)
            | _, _ => String c (percent_decode s')
            end
        | _ => String c (percent_decode s')
        end
      else String c (percent_decode s')
  end.

Definition decode (s : string) : string := percent_decode (plus_to_space s).

Definition parse (input : string) : list (string * string) :=
  flat_map (fun piece =>
              match piece with
              | EmptyString => []
              | _ => let (n, v) := break "=" piece in [(decode n, decode v)]
              end)
           (split "&" input).

(** [new URLSearchParams(init)]: one leading [?] is dropped. *)
Definition new (init : string) : list (string * string) :=
  match init with
  | String c rest => if Ascii.eqb c "?" then parse rest else parse init
  | EmptyString => parse init
  end.

(** [params.get(name)]: the value of the first pair with that name. *)
Fixpoint get (params : list (string * string)) (key : string)
    : option string :=
  match params with
  | [] => None
  | (n, v) :: params' => if String.eqb n key then Some v else get params' key
  end.

End URLSearchParams.

Definition parseCollaborationLink : M (option string) :=
  loc <- window_location ;;
  let params := URLSearchParams.new (search loc) in
  ret (URLSearchParams.get params "collab").

(** ** What a call leaves behind *)

Definition result {A} (o : Outcome A) : option A :=
  match o with Returned a _ => Some a | Untyped => None end.

(** The world after a call made in [w0]. *)
Definition after {A} (o : Outcome A) (w0 : World) : World :=
  match o with Returned _ w => w | Untyped => w0 end.

(** The roster as a client reading at time [t] sees it. *)
Definition roster (sid : string) (t : Timestamp) (w : World)
    : option (list ActiveCollaborator) :=
  result (getActiveCollaborators sid (at_time t w)).

(** ** The store as the readers see it

    Nothing stored reads as the empty array, a document of another shape does
    not read at all. *)

Definition stored_roster (st : gmap string Json) (sid : string)
    : option (list ActiveCollaborator) :=
  match st !! rosterKey sid with
  | None => Some []
  | Some (JRoster cs) => Some cs
  | Some _ => None
  end.

Definition stored_strings (st : gmap string Json) (key : string)
    : option (list string) :=
  match st !! key with
  | None => Some []
  | Some (JStrings ids) => Some ids
  | Some _ => None
  end.

(** The store holds what the module writes: links under link keys, string
    arrays under index keys, and under every roster key a roster with one
    record per email. *)
Record consistent (st : gmap string Json) : Prop := {
  links_typed : forall id,
    match st !! linkKey id with
    | Some (JLink _) | None => True
    | Some _ => False
    end;
  rosters_unique : forall sid,
    exists cs, stored_roster st sid = Some cs /\ NoDup (map email cs);
  access_typed : forall user, is_Some (stored_strings st (accessKey user));
  owners_typed : forall user, is_Some (stored_strings st (ownerKey user))
}.

(** ** The calls in closed form

    The world each call leaves, written as a term; the lemmas named [_runs]
    and [addCollaborator_found] prove that the calls compute them. *)

Definition hasEmail (user : string) (c : ActiveCollaborator) : bool :=
  String.eqb (email c) user.

Definition others (user : string) (c : ActiveCollaborator) : bool :=
  negb (hasEmail user c).

(** The roster that [addCollaborator] writes back, as a function of the one
    it read. *)
Definition upsert (t : Timestamp) (user nm : string)
    (cs : list ActiveCollaborator) : list ActiveCollaborator :=
  let i := findIndex (hasEmail user) cs in
  if 0 <=? i then alter (refreshed t) (Z.to_nat i) cs
  else cs ++ [mkCollaborator user nm t t true].

(** The store after the access index of [user] has been brought up to date. *)
Definition grant (user sid : string) (acc : list string)
    (st : gmap string Json) : gmap string Json :=
  if includes acc sid then st
  else <[accessKey user := JStrings (acc ++ [sid])]> st.

Definition joinedMessage (nm title : string) : string :=
  nm +:+ " joined " +:+ quote +:+ title +:+ quote.

(** After [addCollaborator id user nm], where [id] resolves to [link], the
    stored roster is [cs] and the access index of the user is [acc]. *)
Definition joined (id user nm : string) (link : CollaborationLink)
    (cs : list ActiveCollaborator) (acc : list string) (w : World) : World :=
  let sid := spreadsheetId link in
  let now := clock w in
  mkWorld
    (grant user sid acc
       (<[rosterKey sid :=
            JRoster (upsert now user nm (map (withLiveness now) cs))]>
          (localStorage w)))
    now (location w)
    (dispatched w ++
       [mkActivity (ownerEmail link) "collaboration_joined" None
                   (joinedMessage nm (spreadsheetTitle link))]).

(** After [removeCollaborator sid user]. *)
Definition removed (sid user : string) (cs : list ActiveCollaborator)
    (w : World) : World :=
  mkWorld
    (<[rosterKey sid :=
         JRoster (List.filter (others user) (map (withLiveness (clock w)) cs))]>
       (localStorage w))
    (clock w) (location w) (dispatched w).

(** The id that [generateLinkId] makes in [w]. *)
Definition freshId (rnd : string) (w : World) : string :=
  "collab_" +:+ decimal (clock w) +:+ "_" +:+ rnd.

(** After [createCollaborationLink], where the owner's index is [ids]. *)
Definition created (rnd sid title owner : string) (ids : list string)
    (w : World) : World :=
  let id := freshId rnd w in
  mkWorld
    (<[ownerKey owner := JStrings (ids ++ [id])]>
       (<[linkKey id := JLink (mkLink id sid title owner (clock w) None)]>
          (localStorage w)))
    (clock w) (location w) (dispatched w).

(** After [updateCollaboratorActivity sid user]. *)
Definition beaten (sid user : string) (cs : list ActiveCollaborator)
    (w : World) : World :=
  let rs := map (withLiveness (clock w)) cs in
  let i := findIndex (hasEmail user) rs in
  if 0 <=? i
  then mkWorld
         (<[rosterKey sid :=
              JRoster (alter (refreshed (clock w)) (Z.to_nat i) rs)]>
            (localStorage w))
         (clock w) (location w) (dispatched w)
  else w.

(** Whether one of the ids resolves, in the store, to a link of the
    spreadsheet. *)
Definition owns (st : gmap string Json) (sid : string) (ids : list string)
    : bool :=
  existsb (fun id => match st !! linkKey id with
                     | Some (JLink l) => String.eqb (spreadsheetId l) sid
                     | _ => false
                     end) ids.

(** ** Sequences of calls *)

Inductive Call :=
| CreateLink (rnd sid title owner : string)
| Join (id user nm : string)
| Heartbeat (sid user : string)
| Remove (sid user : string).

Definition perform (c : Call) : M unit :=
  match c with
  | CreateLink rnd sid title owner =>
      createCollaborationLink rnd sid title owner ;;; ret tt
  | Join id user nm => addCollaborator id user nm ;;; ret tt
  | Heartbeat sid user => updateCollaboratorActivity sid user
  | Remove sid user => removeCollaborator sid user
  end.

(** Each call is made at its own time; [None] when a call stops [Untyped]. *)
Fixpoint run (calls : list (Timestamp * Call)) (w : World) : option World :=
  match calls with
  | [] => Some w
  | (t, c) :: calls' =>
      match perform c (at_time t w) with
      | Returned _ w' => run calls' w'
      | Untyped => None
      end
  end.

(** ** Expiry *)

(** The link with its [expiresAt] replaced. *)
Definition expiring (e : option Timestamp) (l : CollaborationLink)
    : CollaborationLink :=
  mkLink (linkId l) (spreadsheetId l) (spreadsheetTitle l) (ownerEmail l)
         (createdAt l) e.

(** The world with another link record stored under the id. *)
Definition relinked (id : string) (l : CollaborationLink) (w : World) : World :=
  mkWorld (<[linkKey id := JLink l]> (localStorage w)) (clock w) (location w)
          (dispatched w).

(** ** Ids and query strings *)

Fixpoint occurs (c : ascii) (s : string) : bool :=
  match s with
  | EmptyString => false
  | String c' s' => Ascii.eqb c' c || occurs c s'
  end.

(** An id that the query-string grammar reads back as it is: no [&], which
    ends a pair, no [+], which reads as a space, no [%], which starts an
    escape. *)
Definition plain (s : string) : bool :=
  negb (occurs "&" s) && negb (occurs "+" s) && negb (occurs "%" s).

(** ** Worlds used as examples *)

Definition budgetLink : string := "collab_1700000000000_k3j9x0a1b".

(** [a@x.com] has shared the spreadsheet "Budget2024". *)
Definition shared : World :=
  after (createCollaborationLink "k3j9x0a1b" "Budget2024" "Budget" "a@x.com"
           (at_time 1700000000000 emptyWorld))
        (at_time 1700000000000 emptyWorld).

(** ... and [b@x.com] has joined one second later under the name Bob. *)
Definition bobJoined : World :=
  after (addCollaborator budgetLink "b@x.com" "Bob"
           (at_time 1700000001000 shared))
        (at_time 1700000001000 shared).

(** A link that expired at 2000, met at 5000. *)
Definition expiredWorld : World :=
  mkWorld {[ linkKey "collab_1000_old" :=
               JLink (mkLink "collab_1000_old" "Budget2024" "Budget" "a@x.com"
                             1000 (Some 2000)) ]}
          5000 (mkLocation "" "") [].

(** A value of the language, as the caller of a function holds it. *)
Inductive JsValue :=
| JsBoolean (b : bool)
| JsString (s : string).

(** ** Access indices *)

(** No access index lists a spreadsheet twice. *)
Definition access_unique (st : gmap string Json) : Prop :=
  forall user ids, stored_strings st (accessKey user) = Some ids -> NoDup ids.

(** The flag of a record is the one a read at [t] computes. *)
Definition flagAsOf (t : Timestamp) (c : ActiveCollaborator) : Prop :=
  isActive c = (t - lastActive c <? fiveMinutes).

(** The calls that leave the link registry alone. *)
Definition presenceCall (c : Call) : bool :=
  match c with
  | CreateLink _ _ _ _ => false
  | _ => true
  end.

(** ** The table dialog ([components/dialogs/TableInsertDialog.tsx]) *)

Module TableInsertDialog.

(** What [parseInt] can return: not a number, an integer, or an infinity
    when the digits are too many. *)
Inductive Number :=
| NaN
| Num (z : Z)
| Infinity
| NegInfinity.

(** [x || 1]: [NaN] and zero are falsy. *)
Definition orOne (x : Number) : Number :=
  match x with
  | NaN => Num 1
  | Num z => if z =? 0 then Num 1 else Num z
  | _ => x
  end.

Definition Math_min (a : Z) (x : Number) : Number :=
  match x with
  | NaN => NaN
  | Num z => Num (Z.min a z)
  | Infinity => Num a
  | NegInfinity => NegInfinity
  end.

Definition Math_max (a : Z) (x : Number) : Number :=
  match x with
  | NaN => NaN
  | Num z => Num (Z.max a z)
  | Infinity => Infinity
  | NegInfinity => Num a
  end.

(** [x > 0] *)
Definition positive (x : Number) : bool :=
  match x with
  | Num z => 0 <? z
  | Infinity => true
  | _ => false
  end.

Record State := mkState {
  columns : Number;
  rows : Number
}.

(** [useState(3)], [useState(5)] *)
Definition initial : State := mkState (Num 3) (Num 5).

(** The calls made on the props. *)
Inductive Callback :=
| onInsert (columns rows : Number)
| onClose.

(** What the user does; a change carries what [parseInt(e.target.value)]
    returned. *)
Inductive Event :=
| ColumnsChange (parsed : Number)
| RowsChange (parsed : Number)
| InsertClick
| CancelClick
| Dismiss.

Definition handleInsert (s : State) : State * list Callback :=
  if positive (columns s) && positive (rows s)
  then (s, [onInsert (columns s) (rows s); onClose])
  else (s, []).

Definition handleCancel (s : State) : State * list Callback :=
  (mkState (Num 3) (Num 5), [onClose]).

Definition handle (s : State) (e : Event) : State * list Callback :=
  match e with
  | ColumnsChange parsed =>
      (mkState (Math_max 1 (Math_min 26 (orOne parsed))) (rows s), [])
  | RowsChange parsed =>
      (mkState (columns s) (Math_max 1 (Math_min 100 (orOne parsed))), [])
  | InsertClick => handleInsert s
  | CancelClick => handleCancel s
  | Dismiss => (s, [onClose])
  end.

(** The state after the events and the calls made on the way, in order. *)
Fixpoint play (s : State) (events : list Event) : State * list Callback :=
  match events with
  | [] => (s, [])
  | e :: events' =>
      let (s1, calls1) := handle s e in
      let (s2, calls2) := play s1 events' in
      (s2, calls1 ++ calls2)
  end.

Definition between (lo hi : Z) (x : Number) : Prop :=
  exists z, x = Num z /\ lo <= z <= hi.

Definition isInsert (c : Callback) : bool :=
  match c with onInsert _ _ => true | onClose => false end.

Definition isInsertClick (e : Event) : bool :=
  match e with InsertClick => true | _ => false end.

Definition inRange (s : State) : Prop :=
  between 1 26 (columns s) /\ between 1 100 (rows s).

Definition insertInRange (c : Callback) : Prop :=
  match c with
  | onInsert cols rws => between 1 26 cols /\ between 1 100 rws
  | onClose => True
  end.

End TableInsertDialog.

(** ** The template picker ([components/TemplatePickerDialog.tsx]) *)

Module TemplatePickerDialog.

(** [Template] is declared in [services/templateService]; these are the
    fields the dialog reads. *)
Record Template := mkTemplate {
  templateId : string;
  templateName : string;
  description : string;
  category : string;
  icon : string
}.

(** [Array.from(new Set(values))]: each value once, in the order of its
    first occurrence. *)
Definition Set_values (values : list string) : list string :=
  fold_left (fun seen v => if includes seen v then seen else seen ++ [v])
            values [].

Definition categories (templates : list Template) : list string :=
  Set_values (map category templates).

(** [selectedCategory ? templates.filter(...) : templates]: [null] and the
    empty string are falsy. *)
Definition filteredTemplates (selectedCategory : option string)
    (templates : list Template) : list Template :=
  match selectedCategory with
  | Some (String c rest) =>
      List.filter (fun t => String.eqb (category t) (String c rest)) templates
  | _ => templates
  end.

End TemplatePickerDialog.

(** ** The collaboration effect of the application ([App]) *)

Module App.

(** [User] is declared in [types/spreadsheet]; these are the fields the
    application sets. *)
Record User := mkUser {
  userName : string;
  userEmail : string;
  userPhone : option string
}.

Inductive Screen :=
| login | signup | welcome | dashboard | app
| forgotPassword | resetPassword | settings.

Inductive Toast :=
| success (msg : string)
| error (msg : string).

(** The state the effect reads and sets, with the toasts shown so far. *)
Record State (Sheet : Type) := mkState {
  user : option User;
  screen : Screen;
  currentSpreadsheet : option Sheet;
  toasts : list Toast
}.
Arguments mkState {Sheet} _ _ _ _.
Arguments user {Sheet} _.
Arguments screen {Sheet} _.
Arguments currentSpreadsheet {Sheet} _.
Arguments toasts {Sheet} _.

(** [window.history.replaceState({}, document.title,
    window.location.pathname)]: the address keeps its path and loses its
    query string. *)
Definition clearQuery : M unit :=
  fun w => Returned tt
    (mkWorld (localStorage w) (clock w)
             (mkLocation (origin (location w)) "") (dispatched w)).

(** The effect that handles a collaboration link. [loadSpreadsheet] is in
    [utils/spreadsheetStorage], which is not among the sources, and is taken
    as a parameter. *)
Definition collaborationEffect {Sheet : Type}
    (loadSpreadsheet : string -> M (option Sheet)) (s : State Sheet)
    : M (State Sheet) :=
  linkId <- parseCollaborationLink ;;
  match linkId, user s with
  | Some (String c rest), Some u =>
      let linkId := String c rest in
      link <- getCollaborationLink linkId ;;
      match link with
      | Some link =>
          addCollaborator linkId (userEmail u) (userName u) ;;;
          sheet <- loadSpreadsheet (spreadsheetId link) ;;
          match sheet with
          | Some sheet =>
              clearQuery ;;;
              ret (mkState (user s) app (Some sheet)
                     (toasts s ++
                        [success ("Joined collaboration on " +:+ quote +:+
                                  spreadsheetTitle link +:+ quote)]))
          | None =>
              ret (mkState (user s) (screen s) (currentSpreadsheet s)
                     (toasts s ++ [error "Could not load shared spreadsheet"]))
          end
      | None =>
          ret (mkState (user s) (screen s) (currentSpreadsheet s)
                 (toasts s ++ [error "Invalid collaboration link"]))
      end
  | _, _ => ret s
  end.

End App.

(** ** From an address to [location.search]

    What the browser makes of the address it is given, after the URL
    standard: leading and trailing control characters and spaces are
    stripped, tabs and newlines are removed, the fragment starts at the
    first [#], the query at the first [?], and the characters of the query
    percent-encode set (controls, space, the two quote characters, [#],
    [<], [>], and everything above [~]) are escaped. [location.search] is the
    query with its [?], or empty when the query is. *)
Module Href.

Definition isC0OrSpace (c : ascii) : bool := (N_of_ascii c <=? 32)%N.

Definition isTabOrNewline (c : ascii) : bool :=
  let n := N_of_ascii c in ((n =? 9) || (n =? 10) || (n =? 13))%N.

Fixpoint trimLeading (s : string) : string :=
  match s with
  | EmptyString => EmptyString
  | String c s' => if isC0OrSpace c then trimLeading s' else s
  end.

Fixpoint trimTrailing (s : string) : string :=
  match s with
  | EmptyString => EmptyString
  | String c s' =>
      match trimTrailing s' with
      | EmptyString => if isC0OrSpace c then EmptyString
                       else String c EmptyString
      | rest => String c rest
      end
  end.

Fixpoint removeTabNewline (s : string) : string :=
  match s with
  | EmptyString => EmptyString
  | String c s' =>
      if isTabOrNewline c then removeTabNewline s'
      else String c (removeTabNewline s')
  end.

(** The address up to its fragment. *)
Fixpoint beforeFragment (s : string) : string :=
  match s with
  | EmptyString => EmptyString
  | String c s' =>
      if Ascii.eqb c "#" then EmptyString else String c (beforeFragment s')
  end.

(** What follows the first [?], when there is one. *)
Fixpoint afterQuestion (s : string) : option string :=
  match s with
  | EmptyString => None
  | String c s' => if Ascii.eqb c "?" then Some s' else afterQuestion s'
  end.

Definition inQuerySet (c : ascii) : bool :=
  let n := N_of_ascii c in
  ((n <=? 32) || (n =? 34) || (n =? 35) || (n =? 39) || (n =? 60) || (n =? 62)
   || (127 <=? n))%N.

Definition hexDigit (n : N) : ascii :=
  if (n <? 10)%N then ascii_of_N (48 + n) else ascii_of_N (55 + n).

Fixpoint encodeQuery (s : string) : string :=
  match s with
  | EmptyString => EmptyString
  | String c s' =>
      if inQuerySet c
      then String "%"
             (String (hexDigit (N_of_ascii c / 16))
                (String (hexDigit (N_of_ascii c mod 16)) (encodeQuery s')))
      else String c (encodeQuery s')
  end.

Definition search (href : string) : string :=
  match afterQuestion
          (beforeFragment (removeTabNewline (trimTrailing (trimLeading href))))
  with
  | None => EmptyString
  | Some EmptyString => EmptyString
  | Some query => String "?" (encodeQuery query)
  end.

(** Whether the string ends, if it has an end, in something else than a
    control character or a space. *)
Fixpoint endsClean (s : string) : bool :=
  match s with
  | EmptyString => true
  | String c EmptyString => negb (isC0OrSpace c)
  | String _ s' => endsClean s'
  end.

End Href.

(** The page reached through an address: its [location.search] is what the
    browser derives from the address. *)
Definition visit (o href : string) (w : World) : World :=
  navigate (mkLocation o (Href.search href)) w.

(** Whether every character of the string is an ASCII character. *)
Fixpoint allAscii (s : string) : bool :=
  match s with
  | EmptyString => true
  | String c s' => (N_of_ascii c <? 128)%N && allAscii s'
  end.

(** An id that comes back from the address built for it: ASCII characters
    only, none of [&], [+], [%], [#], tab, line feed, carriage return, and no
    control character or space at its end. *)
Definition roundTrips (id : string) : bool :=
  negb (occurs "&" id) && negb (occurs "+" id) && negb (occurs "%" id)
  && negb (occurs "#" id)
  && negb (occurs (ascii_of_nat 9) id) && negb (occurs (ascii_of_nat 10) id)
  && negb (occurs (ascii_of_nat 13) id)
  && Href.endsClean id
  && allAscii id.

(** [b@x.com] had shared "Budget2024" before [a@x.com] did; then [b@x.com]
    joins through the link of [a@x.com]. *)
Definition bothShared : World :=
  let w0 := at_time 1699999999000 emptyWorld in
  let w1 := after (createCollaborationLink "b0b0b0b0b" "Budget2024" "Budget"
                     "b@x.com" w0) w0 in
  let w2 := at_time 1700000000000 w1 in
  after (createCollaborationLink "k3j9x0a1b" "Budget2024" "Budget" "a@x.com" w2)
        w2.

(** * Keys of different kinds never meet *)

Section Keys.

Lemma linkKey_inj a b : linkKey a = linkKey b -> a = b.
Proof. cbv. congruence. Qed.

Lemma rosterKey_inj a b : rosterKey a = rosterKey b -> a = b.
Proof. cbv. congruence. Qed.

Lemma accessKey_inj a b : accessKey a = accessKey b -> a = b.
Proof. cbv. congruence. Qed.

Lemma ownerKey_inj a b : ownerKey a = ownerKey b -> a = b.
Proof. cbv. congruence. Qed.

Lemma roster_not_link a b : rosterKey a <> linkKey b.
Proof. cbv. discriminate. Qed.

Lemma roster_not_access a b : rosterKey a <> accessKey b.
Proof. cbv. discriminate. Qed.

Lemma roster_not_owner a b : rosterKey a <> ownerKey b.
Proof. cbv. discriminate. Qed.

Lemma access_not_link a b : accessKey a <> linkKey b.
Proof. cbv. discriminate. Qed.

Lemma access_not_owner a b : accessKey a <> ownerKey b.
Proof. cbv. discriminate. Qed.

Lemma owner_not_link a b : ownerKey a <> linkKey b.
Proof. cbv. discriminate. Qed.

End Keys.

Ltac distinct_keys :=
  let H := fresh in
  intros H;
  first [ apply roster_not_link in H | apply roster_not_access in H
        | apply roster_not_owner in H | apply access_not_link in H
        | apply access_not_owner in H | apply owner_not_link in H
        | symmetry in H;
          first [ apply roster_not_link in H | apply roster_not_access in H
                | apply roster_not_owner in H | apply access_not_link in H
                | apply access_not_owner in H | apply owner_not_link in H ] ];
  exact H.

Create HintDb keys.
#[local] Hint Resolve roster_not_link roster_not_access roster_not_owner
  access_not_link access_not_owner owner_not_link : keys.

(** * Arrays *)

Section Arrays.

Context {A : Type} (p : A -> bool).

Lemma findIndex_range (l : list A) :
  findIndex p l = -1 \/ 0 <= findIndex p l.
Proof.
  induction l as [|x l IH]; simpl; [now left|].
  destruct (p x); [right; lia|].
  destruct (Z.ltb_spec (findIndex p l) 0); [now left | right; lia].
Qed.

Lemma findIndex_cons (x : A) (l : list A) :
  findIndex p (x :: l) =
    if p x then 0
    else if 0 <=? findIndex p l then findIndex p l + 1 else -1.
Proof.
  simpl. destruct (p x); [reflexivity|].
  destruct (findIndex_range l) as [E|E].
  - rewrite E. reflexivity.
  - destruct (Z.ltb_spec (findIndex p l) 0); [lia|].
    destruct (Z.leb_spec 0 (findIndex p l)); [reflexivity | lia].
Qed.

End Arrays.

Lemma filter_map_same {A} (p : A -> bool) (f : A -> A) (l : list A) :
  (forall x, p (f x) = p x) ->
  List.filter p (map f l) = map f (List.filter p l).
Proof.
  intros Hp. induction l as [|x l IH]; [reflexivity|].
  simpl. rewrite Hp. destruct (p x); simpl; now rewrite IH.
Qed.

(** * The roster update *)

Lemma upsert_cons t user nm c cs :
  upsert t user nm (c :: cs) =
    if hasEmail user c then refreshed t c :: cs
    else c :: upsert t user nm cs.
Proof.
  unfold upsert. rewrite findIndex_cons.
  destruct (hasEmail user c); [reflexivity|].
  destruct (Z.leb_spec 0 (findIndex (hasEmail user) cs)) as [H|H].
  - destruct (Z.leb_spec 0 (findIndex (hasEmail user) cs + 1)); [|lia].
    replace (Z.to_nat (findIndex (hasEmail user) cs + 1))
      with (S (Z.to_nat (findIndex (hasEmail user) cs))) by lia.
    reflexivity.
  - reflexivity.
Qed.

Lemma hasEmail_refreshed user t c :
  hasEmail user (refreshed t c) = hasEmail user c.
Proof. reflexivity. Qed.

Lemma hasEmail_withLiveness user t c :
  hasEmail user (withLiveness t c) = hasEmail user c.
Proof. reflexivity. Qed.

Lemma hasEmail_true user c : hasEmail user c = true <-> email c = user.
Proof. unfold hasEmail. apply String.eqb_eq. Qed.

Lemma hasEmail_false user c : hasEmail user c = false <-> email c <> user.
Proof. unfold hasEmail. apply String.eqb_neq. Qed.

(** The emails on the roster after an update: the same when the user was
    there, one more at the end when not. *)
Lemma upsert_emails t user nm cs :
  map email (upsert t user nm cs) =
    if existsb (hasEmail user) cs then map email cs
    else map email cs ++ [user].
Proof.
  induction cs as [|c cs IH]; [reflexivity|].
  rewrite upsert_cons. simpl.
  destruct (hasEmail user c) eqn:E; simpl; [reflexivity|].
  rewrite IH. destruct (existsb (hasEmail user) cs); reflexivity.
Qed.

Lemma existsb_hasEmail user cs :
  existsb (hasEmail user) cs = true <-> user ∈ map email cs.
Proof.
  rewrite existsb_exists, list_elem_of_In, in_map_iff. split.
  - intros [c [Hin Hc]]. exists c. now rewrite <- hasEmail_true.
  - intros [c [Hc Hin]]. exists c. now rewrite hasEmail_true.
Qed.

Lemma upsert_NoDup t user nm cs :
  NoDup (map email cs) -> NoDup (map email (upsert t user nm cs)).
Proof.
  intros H. rewrite upsert_emails.
  destruct (existsb (hasEmail user) cs) eqn:E; [assumption|].
  apply NoDup_app. split; [assumption|].
  split; [|apply NoDup_singleton].
  intros x Hx Hx'. apply list_elem_of_singleton in Hx'. subst x.
  apply existsb_hasEmail in Hx. congruence.
Qed.

Lemma upsert_entry t user nm cs :
  List.filter (hasEmail user) (upsert t user nm cs) =
    match List.filter (hasEmail user) cs with
    | [] => [mkCollaborator user nm t t true]
    | c :: rest => refreshed t c :: rest
    end.
Proof.
  induction cs as [|c cs IH].
  - simpl. unfold hasEmail. simpl. now rewrite String.eqb_refl.
  - rewrite upsert_cons. simpl.
    destruct (hasEmail user c) eqn:E; simpl.
    + now rewrite hasEmail_refreshed, E.
    + now rewrite E.
Qed.

Lemma upsert_length t user nm cs :
  length (upsert t user nm cs) =
    if existsb (hasEmail user) cs then length cs else S (length cs).
Proof.
  rewrite <- (length_map email (upsert t user nm cs)), upsert_emails.
  destruct (existsb (hasEmail user) cs).
  - now rewrite length_map.
  - rewrite length_app, length_map. simpl. lia.
Qed.

(** With one record per email, at most one record answers to an email. *)
Lemma NoDup_one_record user cs c rest :
  NoDup (map email cs) ->
  List.filter (hasEmail user) cs = c :: rest -> rest = [].
Proof.
  induction cs as [|x cs IH]; [discriminate|].
  simpl. intros Hnd Hf. apply NoDup_cons in Hnd as [Hx Hnd].
  destruct (hasEmail user x) eqn:E; [|now apply IH].
  injection Hf as _ Hrest. destruct rest as [|y rest]; [reflexivity|].
  exfalso. apply Hx.
  assert (Hy : In y (List.filter (hasEmail user) cs)) by (rewrite Hrest; now left).
  apply filter_In in Hy as [Hin Hy].
  apply hasEmail_true in E, Hy. rewrite E, <- Hy.
  apply list_elem_of_In, in_map, Hin.
Qed.

(** * Running the readers *)

Lemma getCollaborationLink_absent w id :
  localStorage w !! linkKey id = None ->
  getCollaborationLink id w = Returned None w.
Proof.
  intros H. unfold getCollaborationLink, bind, getItem. now rewrite H.
Qed.

Lemma getCollaborationLink_stored w id l :
  localStorage w !! linkKey id = Some (JLink l) ->
  getCollaborationLink id w = Returned (Some l) w.
Proof.
  intros H. unfold getCollaborationLink, bind, getItem. now rewrite H.
Qed.

Lemma getActiveCollaborators_reads w sid cs :
  stored_roster (localStorage w) sid = Some cs ->
  getActiveCollaborators sid w = Returned (map (withLiveness (clock w)) cs) w.
Proof.
  unfold stored_roster, getActiveCollaborators, bind, getItem.
  destruct (localStorage w !! rosterKey sid) as [[]|]; intros H;
    now simplify_eq.
Qed.

Lemma getUserCollaborations_reads w user acc :
  stored_strings (localStorage w) (accessKey user) = Some acc ->
  getUserCollaborations user w = Returned acc w.
Proof.
  unfold stored_strings, getUserCollaborations, bind, getItem.
  destruct (localStorage w !! accessKey user) as [[]|]; intros H;
    now simplify_eq.
Qed.

Lemma getOwnerLinks_reads w user ids :
  stored_strings (localStorage w) (ownerKey user) = Some ids ->
  getOwnerLinks user w = Returned ids w.
Proof.
  unfold stored_strings, getOwnerLinks, bind, getItem.
  destruct (localStorage w !! ownerKey user) as [[]|]; intros H;
    now simplify_eq.
Qed.

Lemma stored_strings_insert_ne st k k' v :
  k <> k' -> stored_strings (<[k := v]> st) k' = stored_strings st k'.
Proof. intros H. unfold stored_strings. now rewrite lookup_insert_ne. Qed.

Lemma stored_roster_insert_ne st k sid v :
  k <> rosterKey sid -> stored_roster (<[k := v]> st) sid = stored_roster st sid.
Proof. intros H. unfold stored_roster. now rewrite lookup_insert_ne. Qed.

Lemma stored_roster_insert st sid cs :
  stored_roster (<[rosterKey sid := JRoster cs]> st) sid = Some cs.
Proof. unfold stored_roster. now rewrite lookup_insert_eq. Qed.

(** * A join through a stored link, in one equation *)

Lemma addCollaborator_found w id user nm link cs acc :
  localStorage w !! linkKey id = Some (JLink link) ->
  stored_roster (localStorage w) (spreadsheetId link) = Some cs ->
  stored_strings (localStorage w) (accessKey user) = Some acc ->
  addCollaborator id user nm w = Returned true (joined id user nm link cs acc w).
Proof.
  intros Hl Hr Ha. unfold addCollaborator.
  unfold bind at 1. rewrite (getCollaborationLink_stored _ _ _ Hl).
  unfold bind at 1. unfold Date_now at 1.
  unfold bind at 1. unfold Date_now at 1.
  unfold bind at 1. rewrite (getActiveCollaborators_reads _ _ _ Hr).
  set (rs := map (withLiveness (clock w)) cs).
  assert (Hup :
    (if 0 <=? findIndex (fun c => String.eqb (email c) user) rs
     then bind Date_now (fun t =>
            ret (alter (refreshed t)
                   (Z.to_nat (findIndex (fun c => String.eqb (email c) user) rs))
                   rs))
     else ret (rs ++ [mkCollaborator user nm (clock w) (clock w) true])) w
    = Returned (upsert (clock w) user nm rs) w).
  { unfold upsert, hasEmail.
    destruct (0 <=? findIndex (fun c => String.eqb (email c) user) rs);
      reflexivity. }
  unfold bind at 1. rewrite Hup.
  unfold bind at 1. unfold setItem at 1.
  unfold bind at 1.
  erewrite getUserCollaborations_reads
    by (simpl; rewrite stored_strings_insert_ne by auto with keys; exact Ha).
  unfold joined, grant, notifyOwnerOfNewCollaborator, trackActivity, joinedMessage.
  destruct (includes acc (spreadsheetId link)); reflexivity.
Qed.

Lemma stored_roster_grant user sid acc st sid' :
  stored_roster (grant user sid acc st) sid' = stored_roster st sid'.
Proof.
  unfold grant. destruct (includes acc sid); [reflexivity|].
  apply stored_roster_insert_ne. intros H. symmetry in H.
  now apply roster_not_access in H.
Qed.

Lemma stored_roster_joined id user nm link cs acc w :
  stored_roster (localStorage (joined id user nm link cs acc w))
                (spreadsheetId link)
  = Some (upsert (clock w) user nm (map (withLiveness (clock w)) cs)).
Proof.
  unfold joined. simpl. rewrite stored_roster_grant.
  apply stored_roster_insert.
Qed.

Lemma roster_reads sid t w cs :
  stored_roster (localStorage w) sid = Some cs ->
  roster sid t w = Some (map (withLiveness t) cs).
Proof.
  intros H. unfold roster.
  now rewrite (getActiveCollaborators_reads (at_time t w) sid cs).
Qed.

Lemma roster_stored sid t w :
  roster sid t w = map (withLiveness t) <$> stored_roster (localStorage w) sid.
Proof.
  unfold roster, stored_roster, getActiveCollaborators, bind, getItem. simpl.
  destruct (localStorage w !! rosterKey sid) as [[]|]; reflexivity.
Qed.

Lemma map_email_withLiveness t cs :
  map email (map (withLiveness t) cs) = map email cs.
Proof. rewrite map_map. reflexivity. Qed.

(** The only record of [user] on the roster a join has written. *)
Lemma joined_record t user nm cs :
  NoDup (map email cs) ->
  exists c,
    List.filter (hasEmail user) (upsert t user nm (map (withLiveness t) cs)) = [c]
    /\ email c = user /\ lastActive c = t /\ isActive c = true
    /\ match List.filter (hasEmail user) cs with
       | [] => name c = nm /\ joinedAt c = t
       | c0 :: _ => name c = name c0 /\ joinedAt c = joinedAt c0
       end.
Proof.
  intros Hnd. rewrite upsert_entry.
  rewrite (filter_map_same _ _ _ (hasEmail_withLiveness user t)).
  destruct (List.filter (hasEmail user) cs) as [|c0 rest] eqn:E; simpl.
  - eexists. repeat split.
  - rewrite (NoDup_one_record _ _ _ _ Hnd E). simpl.
    assert (Hc0 : In c0 (List.filter (hasEmail user) cs)) by (rewrite E; now left).
    apply filter_In in Hc0 as [_ Hc0]. apply hasEmail_true in Hc0.
    eexists. repeat split. exact Hc0.
Qed.

(** * Joining through a link *)

(** C1 (as amended). A join through a stored link returns the boolean [true];
    the document identifier is the [spreadsheetId] of the link that
    [getCollaborationLink] returns for the same id. Afterwards every read of
    the document's roster made less than five minutes after the join has
    exactly one entry with the user's email, and it is active. The stored
    roster is assumed to hold one record per email. *)
Theorem join_registers_active_collaborator w id user nm link cs acc :
  localStorage w !! linkKey id = Some (JLink link) ->
  stored_roster (localStorage w) (spreadsheetId link) = Some cs ->
  NoDup (map email cs) ->
  stored_strings (localStorage w) (accessKey user) = Some acc ->
  let call := addCollaborator id user nm w in
  result call = Some true
  /\ result (getCollaborationLink id w) = Some (Some link)
  /\ forall t, t - clock w < fiveMinutes ->
       exists rs c,
         roster (spreadsheetId link) t (after call w) = Some rs
         /\ List.filter (hasEmail user) rs = [c]
         /\ email c = user /\ isActive c = true.
Proof.
  intros Hl Hr Hnd Ha call. subst call.
  rewrite (addCollaborator_found _ _ _ _ _ _ _ Hl Hr Ha).
  rewrite (getCollaborationLink_stored _ _ _ Hl). simpl.
  split; [reflexivity|]. split; [reflexivity|].
  intros t Ht.
  destruct (joined_record (clock w) user nm cs Hnd)
    as (c & Hf & He & Hla & _ & _).
  exists (map (withLiveness t)
            (upsert (clock w) user nm (map (withLiveness (clock w)) cs))),
         (withLiveness t c).
  split; [apply roster_reads, stored_roster_joined|].
  rewrite (filter_map_same _ _ _ (hasEmail_withLiveness user t)), Hf.
  repeat split; [exact He|].
  simpl. rewrite Hla. apply Z.ltb_lt, Ht.
Qed.

Lemma join_registers_active_collaborator_witness :
  let call := addCollaborator budgetLink "b@x.com" "Bob"
                (at_time 1700000001000 shared) in
  result call = Some true
  /\ result (getCollaborationLink budgetLink (at_time 1700000001000 shared))
     = Some (Some (mkLink budgetLink "Budget2024" "Budget" "a@x.com"
                     1700000000000 None))
  /\ forall t, t - 1700000001000 < fiveMinutes ->
       exists rs c,
         roster "Budget2024" t (after call (at_time 1700000001000 shared))
         = Some rs
         /\ List.filter (hasEmail "b@x.com") rs = [c]
         /\ email c = "b@x.com" /\ isActive c = true.
Proof.
  apply (join_registers_active_collaborator
           (at_time 1700000001000 shared) budgetLink "b@x.com" "Bob"
           (mkLink budgetLink "Budget2024" "Budget" "a@x.com" 1700000000000 None)
           [] []).
  - vm_compute. reflexivity.
  - vm_compute. reflexivity.
  - apply NoDup_nil_2.
  - vm_compute. reflexivity.
Defined.

(** C1, as stated, fails twice: the caller receives the boolean [true], not
    the identifier "Budget2024"; and a read of the roster five minutes after
    the join shows the entry with [isActive = false]. *)
Lemma join_returns_boolean_and_liveness_expires :
  let call := addCollaborator budgetLink "b@x.com" "Bob"
                (at_time 1700000001000 shared) in
  (JsBoolean <$> result call) = Some (JsBoolean true)
  /\ (JsBoolean <$> result call) <> Some (JsString "Budget2024")
  /\ roster "Budget2024" (1700000001000 + fiveMinutes) (after call shared)
     = Some [mkCollaborator "b@x.com" "Bob" 1700000001000 1700000001000 false].
Proof.
  split; [vm_compute; reflexivity|].
  split; [vm_compute; discriminate|].
  vm_compute. reflexivity.
Qed.

(** C4. An id under which no link is stored resolves to the absent value, a
    returned result and not a fault; a join with it returns [false], the
    not-found outcome, and the world it leaves is the world it found: no roster
    written, no access index written, nothing dispatched. *)
Theorem unknown_link_is_not_found w id :
  localStorage w !! linkKey id = None ->
  getCollaborationLink id w = Returned None w
  /\ forall user nm, addCollaborator id user nm w = Returned false w.
Proof.
  intros H. split; [now apply getCollaborationLink_absent|].
  intros user nm. unfold addCollaborator, bind.
  now rewrite (getCollaborationLink_absent _ _ H).
Qed.

Lemma unknown_link_is_not_found_witness :
  getCollaborationLink "collab_0_nothing" shared = Returned None shared
  /\ forall user nm,
       addCollaborator "collab_0_nothing" user nm shared = Returned false shared.
Proof.
  apply (unknown_link_is_not_found shared "collab_0_nothing").
  vm_compute. reflexivity.
Defined.

(** * Liveness *)

(** C3. A read of the roster returns the stored records with [isActive]
    recomputed from the clock: true exactly when [lastActive] is less than
    five minutes (300000 ms) old, whatever flag is stored. A record five
    minutes old or older reads inactive, one refreshed 4 min 59 s ago reads
    active. The read returns the world it was given: nothing is written. *)
Theorem liveness_is_recomputed_at_each_read w sid stored :
  stored_roster (localStorage w) sid = Some stored ->
  exists rs,
    getActiveCollaborators sid w = Returned rs w
    /\ Forall2 (fun c s =>
                  email c = email s /\ name c = name s
                  /\ joinedAt c = joinedAt s /\ lastActive c = lastActive s
                  /\ (isActive c = true <-> clock w - lastActive s < 300000))
               rs stored
    /\ (forall c, c ∈ rs -> 300000 <= clock w - lastActive c ->
                  isActive c = false)
    /\ (forall c, c ∈ rs -> lastActive c = clock w - 299000 ->
                  isActive c = true).
Proof.
  intros H. exists (map (withLiveness (clock w)) stored).
  split; [now apply getActiveCollaborators_reads|].
  split; [|split].
  - clear H. induction stored as [|s stored IH]; constructor; [|exact IH].
    simpl. repeat split; try reflexivity; unfold fiveMinutes; simpl; lia.
  - intros c Hc Hold. apply list_elem_of_fmap in Hc as (s & -> & _).
    simpl in *. unfold fiveMinutes. simpl. lia.
  - intros c Hc Hnew. apply list_elem_of_fmap in Hc as (s & -> & _).
    simpl in *. unfold fiveMinutes. simpl. lia.
Qed.

Lemma liveness_is_recomputed_at_each_read_witness :
  exists rs,
    getActiveCollaborators "Budget2024" (at_time 1700000300000 bobJoined)
    = Returned rs (at_time 1700000300000 bobJoined)
    /\ Forall2 (fun c s =>
                  email c = email s /\ name c = name s
                  /\ joinedAt c = joinedAt s /\ lastActive c = lastActive s
                  /\ (isActive c = true <->
                      1700000300000 - lastActive s < 300000))
               rs [mkCollaborator "b@x.com" "Bob" 1700000001000 1700000001000 true]
    /\ (forall c, c ∈ rs -> 300000 <= 1700000300000 - lastActive c ->
                  isActive c = false)
    /\ (forall c, c ∈ rs -> lastActive c = 1700000300000 - 299000 ->
                  isActive c = true).
Proof.
  apply (liveness_is_recomputed_at_each_read
           (at_time 1700000300000 bobJoined) "Budget2024").
  vm_compute. reflexivity.
Defined.

(** * Joining again *)

(** The record a join finds is refreshed in place. *)
Lemma rejoin_record w id user nm link cs acc c0 :
  localStorage w !! linkKey id = Some (JLink link) ->
  stored_roster (localStorage w) (spreadsheetId link) = Some cs ->
  stored_strings (localStorage w) (accessKey user) = Some acc ->
  List.filter (hasEmail user) cs = [c0] ->
  exists rs,
    stored_roster (localStorage (after (addCollaborator id user nm w) w))
                  (spreadsheetId link) = Some rs
    /\ List.filter (hasEmail user) rs = [refreshed (clock w) c0]
    /\ length rs = length cs.
Proof.
  intros Hl Hr Ha Hf.
  rewrite (addCollaborator_found _ _ _ _ _ _ _ Hl Hr Ha). simpl.
  eexists. split; [apply (stored_roster_joined id)|]. split.
  - rewrite upsert_entry.
    rewrite (filter_map_same _ _ _ (hasEmail_withLiveness user (clock w))), Hf.
    reflexivity.
  - rewrite upsert_length, length_map.
    assert (Hex : existsb (hasEmail user) (map (withLiveness (clock w)) cs) = true).
    { apply existsb_exists. exists (withLiveness (clock w) c0). split.
      - apply in_map.
        apply (proj1 (filter_In (hasEmail user) c0 cs)). rewrite Hf. now left.
      - rewrite hasEmail_withLiveness.
        apply (proj1 (filter_In (hasEmail user) c0 cs)). rewrite Hf. now left. }
    now rewrite Hex.
Qed.

Lemma only_record user cs c0 :
  NoDup (map email cs) -> c0 ∈ cs -> email c0 = user ->
  List.filter (hasEmail user) cs = [c0].
Proof.
  intros Hnd Hin He.
  assert (Hc : In c0 (List.filter (hasEmail user) cs)).
  { apply filter_In. split; [now apply list_elem_of_In|].
    now apply hasEmail_true. }
  destruct (List.filter (hasEmail user) cs) as [|c1 rest] eqn:E; [easy|].
  pose proof (NoDup_one_record _ _ _ _ Hnd E) as ->.
  destruct Hc as [->|[]]. reflexivity.
Qed.

(** C5 (as amended). When the user already has a record on the roster, a
    later join leaves the stored name as it is, whatever name is passed;
    [lastActive] becomes the time of the join, [isActive] is set and
    [joinedAt] is kept. *)
Theorem rejoin_keeps_stored_name w id user nm link cs acc c0 :
  localStorage w !! linkKey id = Some (JLink link) ->
  stored_roster (localStorage w) (spreadsheetId link) = Some cs ->
  NoDup (map email cs) ->
  stored_strings (localStorage w) (accessKey user) = Some acc ->
  c0 ∈ cs -> email c0 = user ->
  exists rs,
    stored_roster (localStorage (after (addCollaborator id user nm w) w))
                  (spreadsheetId link) = Some rs
    /\ List.filter (hasEmail user) rs =
         [mkCollaborator user (name c0) (joinedAt c0) (clock w) true]
    /\ length rs = length cs.
Proof.
  intros Hl Hr Hnd Ha Hin He.
  pose proof (only_record user cs c0 Hnd Hin He) as Hf.
  destruct (rejoin_record w id user nm link cs acc c0 Hl Hr Ha Hf)
    as (rs & Hrs & Hfrs & Hlen).
  exists rs. split; [exact Hrs|]. split; [|exact Hlen].
  rewrite Hfrs. unfold refreshed. now rewrite He.
Qed.

Lemma rejoin_keeps_stored_name_witness :
  exists rs,
    stored_roster
      (localStorage
         (after (addCollaborator budgetLink "b@x.com" "Robert"
                   (at_time 1700000060000 bobJoined))
                (at_time 1700000060000 bobJoined)))
      "Budget2024" = Some rs
    /\ List.filter (hasEmail "b@x.com") rs =
         [mkCollaborator "b@x.com" "Bob" 1700000001000 1700000060000 true]
    /\ length rs = 1%nat.
Proof.
  apply (rejoin_keeps_stored_name
           (at_time 1700000060000 bobJoined) budgetLink "b@x.com" "Robert"
           (mkLink budgetLink "Budget2024" "Budget" "a@x.com" 1700000000000 None)
           [mkCollaborator "b@x.com" "Bob" 1700000001000 1700000001000 true]
           ["Budget2024"]
           (mkCollaborator "b@x.com" "Bob" 1700000001000 1700000001000 true)).
  - vm_compute. reflexivity.
  - vm_compute. reflexivity.
  - apply NoDup_singleton.
  - vm_compute. reflexivity.
  - apply list_elem_of_here.
  - reflexivity.
Defined.

(** C5, as stated, fails: Bob joins again as Robert, and the roster still
    says Bob. *)
Lemma rejoin_does_not_overwrite_name :
  let w := at_time 1700000060000 bobJoined in
  roster "Budget2024" 1700000060000
         (after (addCollaborator budgetLink "b@x.com" "Robert" w) w)
  = Some [mkCollaborator "b@x.com" "Bob" 1700000001000 1700000060000 true].
Proof. vm_compute. reflexivity. Qed.

(** * Expiry *)

Lemma addCollaborator_relinked w id user nm link cs acc e :
  localStorage w !! linkKey id = Some (JLink link) ->
  stored_roster (localStorage w) (spreadsheetId link) = Some cs ->
  stored_strings (localStorage w) (accessKey user) = Some acc ->
  addCollaborator id user nm (relinked id (expiring e link) w) =
    Returned true
      (relinked id (expiring e link) (joined id user nm link cs acc w)).
Proof.
  intros Hl Hr Ha.
  rewrite (addCollaborator_found _ id user nm (expiring e link) cs acc).
  - unfold relinked, joined, grant. simpl. f_equal. f_equal.
    destruct (includes acc (spreadsheetId link)).
    + apply insert_insert_ne. distinct_keys.
    + rewrite (insert_insert_ne _ (linkKey id)) by distinct_keys.
      f_equal. apply insert_insert_ne. distinct_keys.
  - simpl. apply lookup_insert_eq.
  - simpl. rewrite stored_roster_insert_ne; [exact Hr|]. distinct_keys.
  - simpl. rewrite stored_strings_insert_ne; [exact Ha|]. distinct_keys.
Qed.

(** C6 (as amended). [expiresAt] does not affect a join. Whatever expiry
    the stored link carries, one in the past included, the link resolves and
    the join through it succeeds: it returns [true] and registers the
    collaborator, so that every read of the roster made less than five
    minutes later has exactly one entry with the user's email, active. The
    world it leaves is the one the same join leaves without the expiry, the
    link record apart: the same rosters, the same notifications. *)
Theorem join_ignores_expiry w id user nm link cs acc e :
  localStorage w !! linkKey id = Some (JLink link) ->
  stored_roster (localStorage w) (spreadsheetId link) = Some cs ->
  NoDup (map email cs) ->
  stored_strings (localStorage w) (accessKey user) = Some acc ->
  let w_e := relinked id (expiring e link) w in
  let call := addCollaborator id user nm w in
  let call_e := addCollaborator id user nm w_e in
  (exists l, result (getCollaborationLink id w_e) = Some (Some l)
             /\ expiresAt l = e /\ spreadsheetId l = spreadsheetId link)
  /\ result call_e = Some true
  /\ (forall t, t - clock w < fiveMinutes ->
        exists rs c,
          roster (spreadsheetId link) t (after call_e w_e) = Some rs
          /\ List.filter (hasEmail user) rs = [c]
          /\ email c = user /\ isActive c = true)
  /\ result call = Some true
  /\ after call_e w_e = relinked id (expiring e link) (after call w)
  /\ (forall sid t, roster sid t (after call_e w_e) = roster sid t (after call w))
  /\ dispatched (after call_e w_e) = dispatched (after call w).
Proof.
  intros Hl Hr Hnd Ha w_e call call_e. subst w_e call call_e.
  split.
  { exists (expiring e link). split; [|now split].
    rewrite (getCollaborationLink_stored _ id (expiring e link));
      [reflexivity|].
    cbn [relinked localStorage]. apply lookup_insert_eq. }
  rewrite (addCollaborator_found _ _ _ _ _ _ _ Hl Hr Ha).
  rewrite (addCollaborator_relinked _ _ _ _ _ _ _ e Hl Hr Ha).
  cbn [result after].
  assert (Hsame : forall sid t,
            roster sid t (relinked id (expiring e link)
                            (joined id user nm link cs acc w))
            = roster sid t (joined id user nm link cs acc w)).
  { intros sid t. rewrite !roster_stored. f_equal.
    unfold relinked. cbn [localStorage].
    apply stored_roster_insert_ne. distinct_keys. }
  split; [reflexivity|]. split.
  { intros t Ht. rewrite Hsame.
    destruct (joined_record (clock w) user nm cs Hnd)
      as (c & Hf & He & Hla & _ & _).
    exists (map (withLiveness t)
              (upsert (clock w) user nm (map (withLiveness (clock w)) cs))),
           (withLiveness t c).
    split; [apply roster_reads, stored_roster_joined|].
    rewrite (filter_map_same _ _ _ (hasEmail_withLiveness user t)), Hf.
    repeat split; [exact He|].
    simpl. rewrite Hla. apply Z.ltb_lt, Ht. }
  split; [reflexivity|]. split; [reflexivity|].
  split; [exact Hsame | reflexivity].
Qed.

Lemma join_ignores_expiry_witness :
  let link := mkLink budgetLink "Budget2024" "Budget" "a@x.com"
                     1700000000000 None in
  let w := at_time 1700000001000 shared in
  let w_e := relinked budgetLink (expiring (Some 1700000000500) link) w in
  let call := addCollaborator budgetLink "b@x.com" "Bob" w in
  let call_e := addCollaborator budgetLink "b@x.com" "Bob" w_e in
  (exists l, result (getCollaborationLink budgetLink w_e) = Some (Some l)
             /\ expiresAt l = Some 1700000000500
             /\ spreadsheetId l = "Budget2024")
  /\ result call_e = Some true
  /\ (forall t, t - 1700000001000 < fiveMinutes ->
        exists rs c,
          roster "Budget2024" t (after call_e w_e) = Some rs
          /\ List.filter (hasEmail "b@x.com") rs = [c]
          /\ email c = "b@x.com" /\ isActive c = true)
  /\ result call = Some true
  /\ after call_e w_e
     = relinked budgetLink (expiring (Some 1700000000500) link) (after call w)
  /\ (forall sid t, roster sid t (after call_e w_e) = roster sid t (after call w))
  /\ dispatched (after call_e w_e) = dispatched (after call w).
Proof.
  apply (join_ignores_expiry (at_time 1700000001000 shared) budgetLink
           "b@x.com" "Bob"
           (mkLink budgetLink "Budget2024" "Budget" "a@x.com" 1700000000000 None)
           [] [] (Some 1700000000500)).
  - vm_compute. reflexivity.
  - vm_compute. reflexivity.
  - apply NoDup_nil_2.
  - vm_compute. reflexivity.
Defined.

(** C6, as stated, fails: the link expired at 2000, the join at 5000 returns
    [true] and Bob is on the roster, active. *)
Lemma join_through_expired_link_succeeds :
  let call := addCollaborator "collab_1000_old" "b@x.com" "Bob" expiredWorld in
  (exists l, result (getCollaborationLink "collab_1000_old" expiredWorld)
             = Some (Some l)
             /\ expiresAt l = Some 2000 /\ 2000 < clock expiredWorld)
  /\ result call = Some true
  /\ exists c, roster "Budget2024" 5000 (after call expiredWorld) = Some [c]
               /\ email c = "b@x.com" /\ name c = "Bob" /\ isActive c = true.
Proof.
  split; [|split].
  - eexists. split; [vm_compute; reflexivity|]. split; [reflexivity|].
    vm_compute. reflexivity.
  - vm_compute. reflexivity.
  - eexists. split; [vm_compute; reflexivity|]. repeat split.
Qed.

(** * What a join writes *)

(** C10. A join through a stored link changes the store at two keys at most:
    the roster of the link's spreadsheet and the access index of the joining
    user, the latter only when the spreadsheet is not listed there yet. Every
    other key reads as before: every link record, every owner index, the
    roster of every other spreadsheet, the access index of every other
    user. *)
Theorem join_writes_two_keys w id user nm link cs acc :
  localStorage w !! linkKey id = Some (JLink link) ->
  stored_roster (localStorage w) (spreadsheetId link) = Some cs ->
  stored_strings (localStorage w) (accessKey user) = Some acc ->
  let call := addCollaborator id user nm w in
  let st := localStorage w in
  let st' := localStorage (after call w) in
  result call = Some true
  /\ (forall k, k <> rosterKey (spreadsheetId link) -> k <> accessKey user ->
                st' !! k = st !! k)
  /\ (includes acc (spreadsheetId link) = true ->
      st' !! accessKey user = st !! accessKey user)
  /\ (forall id', st' !! linkKey id' = st !! linkKey id')
  /\ (forall owner, st' !! ownerKey owner = st !! ownerKey owner)
  /\ (forall sid, sid <> spreadsheetId link ->
                  st' !! rosterKey sid = st !! rosterKey sid)
  /\ (forall user', user' <> user ->
                    st' !! accessKey user' = st !! accessKey user').
Proof.
  intros Hl Hr Ha call st st'. subst call st st'.
  rewrite (addCollaborator_found _ _ _ _ _ _ _ Hl Hr Ha). simpl.
  assert (Hframe : forall k,
    k <> rosterKey (spreadsheetId link) -> k <> accessKey user ->
    grant user (spreadsheetId link) acc
      (<[rosterKey (spreadsheetId link) :=
           JRoster (upsert (clock w) user nm (map (withLiveness (clock w)) cs))]>
         (localStorage w)) !! k = localStorage w !! k).
  { intros k Hk1 Hk2. unfold grant.
    destruct (includes acc (spreadsheetId link)).
    - now rewrite lookup_insert_ne.
    - rewrite lookup_insert_ne by congruence. now rewrite lookup_insert_ne. }
  split; [reflexivity|]. split; [exact Hframe|]. split; [|repeat split].
  - intros Hinc. unfold grant. rewrite Hinc.
    apply lookup_insert_ne. apply roster_not_access.
  - intros id'. apply Hframe.
    + intros H. symmetry in H. now apply roster_not_link in H.
    + intros H. symmetry in H. now apply access_not_link in H.
  - intros owner. apply Hframe.
    + intros H. symmetry in H. now apply roster_not_owner in H.
    + intros H. symmetry in H. now apply access_not_owner in H.
  - intros sid Hsid. apply Hframe.
    + intros H. now apply rosterKey_inj in H.
    + apply roster_not_access.
  - intros user' Hu. apply Hframe.
    + intros H. symmetry in H. now apply roster_not_access in H.
    + intros H. now apply accessKey_inj in H.
Qed.

Lemma join_writes_two_keys_witness :
  let w := at_time 1700000060000 bobJoined in
  let call := addCollaborator budgetLink "b@x.com" "Bob" w in
  let st := localStorage w in
  let st' := localStorage (after call w) in
  result call = Some true
  /\ (forall k, k <> rosterKey "Budget2024" -> k <> accessKey "b@x.com" ->
                st' !! k = st !! k)
  /\ (includes ["Budget2024"] "Budget2024" = true ->
      st' !! accessKey "b@x.com" = st !! accessKey "b@x.com")
  /\ (forall id', st' !! linkKey id' = st !! linkKey id')
  /\ (forall owner, st' !! ownerKey owner = st !! ownerKey owner)
  /\ (forall sid, sid <> "Budget2024" ->
                  st' !! rosterKey sid = st !! rosterKey sid)
  /\ (forall user', user' <> "b@x.com" ->
                    st' !! accessKey user' = st !! accessKey user').
Proof.
  apply (join_writes_two_keys
           (at_time 1700000060000 bobJoined) budgetLink "b@x.com" "Bob"
           (mkLink budgetLink "Budget2024" "Budget" "a@x.com" 1700000000000 None)
           [mkCollaborator "b@x.com" "Bob" 1700000001000 1700000001000 true]
           ["Budget2024"]).
  - vm_compute. reflexivity.
  - vm_compute. reflexivity.
  - vm_compute. reflexivity.
Defined.

(** * Leaving *)

Lemma removeCollaborator_runs w sid user cs :
  stored_roster (localStorage w) sid = Some cs ->
  removeCollaborator sid user w = Returned tt (removed sid user cs w).
Proof.
  intros H. unfold removeCollaborator, bind.
  now rewrite (getActiveCollaborators_reads _ _ _ H).
Qed.

Lemma map_withLiveness_twice t t' cs :
  map (withLiveness t) (map (withLiveness t') cs) = map (withLiveness t) cs.
Proof. rewrite map_map. reflexivity. Qed.

Lemma others_withLiveness user t c :
  others user (withLiveness t c) = others user c.
Proof. reflexivity. Qed.

Lemma filter_twice {A} (p : A -> bool) (l : list A) :
  List.filter p (List.filter p l) = List.filter p l.
Proof.
  induction l as [|x l IH]; [reflexivity|].
  simpl. destruct (p x) eqn:E; simpl; [rewrite E; now f_equal | exact IH].
Qed.

Lemma filter_others_absent user cs :
  user ∉ map email cs -> List.filter (others user) cs = cs.
Proof.
  induction cs as [|c cs IH]; [reflexivity|].
  simpl. intros Hn. apply not_elem_of_cons in Hn as [Hc Hn].
  unfold others at 1. assert (E : hasEmail user c = false).
  { apply hasEmail_false. congruence. }
  rewrite E. simpl. now rewrite IH.
Qed.

Lemma filter_others_gone user cs :
  Forall (fun c => email c <> user) (List.filter (others user) cs).
Proof.
  apply Forall_forall. intros c Hc. apply list_elem_of_In, filter_In in Hc.
  destruct Hc as [_ Hc]. unfold others in Hc.
  apply hasEmail_false. now destruct (hasEmail user c).
Qed.

(** C7. After [removeCollaborator] the roster of the spreadsheet has no entry
    with the user's email, whatever was there before. A second removal, at
    any later time, leaves every roster as the first one left it, and at the
    same instant leaves the very same world. When the user had no entry, the
    roster reads after the removal as it read before. *)
Theorem remove_is_idempotent w sid user cs :
  stored_roster (localStorage w) sid = Some cs ->
  let w1 := after (removeCollaborator sid user w) w in
  result (removeCollaborator sid user w) = Some tt
  /\ (forall t, exists rs,
        roster sid t w1 = Some rs /\ Forall (fun c => email c <> user) rs)
  /\ (forall t2 sid' t,
        let w2 := after (removeCollaborator sid user (at_time t2 w1)) w1 in
        result (removeCollaborator sid user (at_time t2 w1)) = Some tt
        /\ roster sid' t w2 = roster sid' t w1)
  /\ after (removeCollaborator sid user w1) w1 = w1
  /\ (user ∉ map email cs -> forall t, roster sid t w1 = roster sid t w).
Proof.
  intros H w1. subst w1.
  rewrite (removeCollaborator_runs _ _ _ _ H). simpl.
  assert (H1 : stored_roster (localStorage (removed sid user cs w)) sid
               = Some (List.filter (others user)
                         (map (withLiveness (clock w)) cs)))
    by apply stored_roster_insert.
  split; [reflexivity|]. split; [|split; [|split]].
  - intros t. eexists. split; [apply (roster_reads _ _ _ _ H1)|].
    rewrite <- (filter_map_same _ _ _ (others_withLiveness user t)).
    apply filter_others_gone.
  - intros t2 sid' t.
    rewrite (removeCollaborator_runs (at_time t2 (removed sid user cs w))
               sid user _ H1).
    simpl. split; [reflexivity|].
    destruct (decide (sid' = sid)) as [->|Hne].
    + rewrite (roster_reads _ _ _ _ H1).
      erewrite roster_reads by apply stored_roster_insert.
      f_equal.
      rewrite (filter_map_same _ _ _ (others_withLiveness user t2)).
      rewrite filter_twice. apply map_withLiveness_twice.
    + rewrite !roster_stored. simpl.
      rewrite !stored_roster_insert_ne; [reflexivity| |];
        intros E; apply rosterKey_inj in E; congruence.
  - rewrite (removeCollaborator_runs _ _ _ _ H1). simpl.
    unfold removed. simpl. f_equal. rewrite insert_insert_eq. f_equal. f_equal.
    rewrite (filter_map_same _ _ _ (others_withLiveness user (clock w))).
    rewrite filter_twice.
    rewrite <- (filter_map_same _ _ _ (others_withLiveness user (clock w))).
    now rewrite map_withLiveness_twice.
  - intros Hn t. rewrite (roster_reads _ _ _ _ H1), (roster_reads _ _ _ _ H).
    f_equal. rewrite filter_others_absent.
    + apply map_withLiveness_twice.
    + now rewrite map_email_withLiveness.
Qed.

Lemma remove_is_idempotent_witness :
  let w := at_time 1700000060000 bobJoined in
  let w1 := after (removeCollaborator "Budget2024" "b@x.com" w) w in
  result (removeCollaborator "Budget2024" "b@x.com" w) = Some tt
  /\ (forall t, exists rs,
        roster "Budget2024" t w1 = Some rs
        /\ Forall (fun c => email c <> "b@x.com") rs)
  /\ (forall t2 sid' t,
        let w2 := after (removeCollaborator "Budget2024" "b@x.com"
                           (at_time t2 w1)) w1 in
        result (removeCollaborator "Budget2024" "b@x.com" (at_time t2 w1))
        = Some tt
        /\ roster sid' t w2 = roster sid' t w1)
  /\ after (removeCollaborator "Budget2024" "b@x.com" w1) w1 = w1
  /\ ("b@x.com" ∉ map email
        [mkCollaborator "b@x.com" "Bob" 1700000001000 1700000001000 true] ->
      forall t, roster "Budget2024" t w1 = roster "Budget2024" t w).
Proof.
  apply (remove_is_idempotent (at_time 1700000060000 bobJoined)
           "Budget2024" "b@x.com"
           [mkCollaborator "b@x.com" "Bob" 1700000001000 1700000001000 true]).
  vm_compute. reflexivity.
Defined.

(** * Sequences of calls *)

Lemma consistent_empty : consistent ∅.
Proof.
  split; intros; unfold stored_roster, stored_strings;
    rewrite ?lookup_empty; eauto using NoDup_nil_2.
Qed.

Lemma consistent_insert_roster st sid cs :
  consistent st -> NoDup (map email cs) ->
  consistent (<[rosterKey sid := JRoster cs]> st).
Proof.
  intros [Hl Hr Ha Ho] Hnd. split.
  - intros id. rewrite lookup_insert_ne by distinct_keys. apply Hl.
  - intros sid'. destruct (decide (sid' = sid)) as [->|Hne].
    + exists cs. now rewrite stored_roster_insert.
    + rewrite stored_roster_insert_ne; [apply Hr|].
      intros E. apply rosterKey_inj in E. congruence.
  - intros u. rewrite stored_strings_insert_ne by distinct_keys. apply Ha.
  - intros u. rewrite stored_strings_insert_ne by distinct_keys. apply Ho.
Qed.

Lemma stored_strings_insert st k ids :
  stored_strings (<[k := JStrings ids]> st) k = Some ids.
Proof. unfold stored_strings. now rewrite lookup_insert_eq. Qed.

Lemma consistent_insert_access st user ids :
  consistent st -> consistent (<[accessKey user := JStrings ids]> st).
Proof.
  intros [Hl Hr Ha Ho]. split.
  - intros id. rewrite lookup_insert_ne by distinct_keys. apply Hl.
  - intros sid. rewrite stored_roster_insert_ne by distinct_keys. apply Hr.
  - intros u. destruct (decide (u = user)) as [->|Hne].
    + rewrite stored_strings_insert. eauto.
    + rewrite stored_strings_insert_ne; [apply Ha|].
      intros E. apply accessKey_inj in E. congruence.
  - intros u. rewrite stored_strings_insert_ne by distinct_keys. apply Ho.
Qed.

Lemma consistent_insert_owner st user ids :
  consistent st -> consistent (<[ownerKey user := JStrings ids]> st).
Proof.
  intros [Hl Hr Ha Ho]. split.
  - intros id. rewrite lookup_insert_ne by distinct_keys. apply Hl.
  - intros sid. rewrite stored_roster_insert_ne by distinct_keys. apply Hr.
  - intros u. rewrite stored_strings_insert_ne by distinct_keys. apply Ha.
  - intros u. destruct (decide (u = user)) as [->|Hne].
    + rewrite stored_strings_insert. eauto.
    + rewrite stored_strings_insert_ne; [apply Ho|].
      intros E. apply ownerKey_inj in E. congruence.
Qed.

Lemma consistent_insert_link st id l :
  consistent st -> consistent (<[linkKey id := JLink l]> st).
Proof.
  intros [Hl Hr Ha Ho]. split.
  - intros id'. destruct (decide (id' = id)) as [->|Hne].
    + now rewrite lookup_insert_eq.
    + rewrite lookup_insert_ne; [apply Hl|].
      intros E. apply linkKey_inj in E. congruence.
  - intros sid. rewrite stored_roster_insert_ne by distinct_keys. apply Hr.
  - intros u. rewrite stored_strings_insert_ne by distinct_keys. apply Ha.
  - intros u. rewrite stored_strings_insert_ne by distinct_keys. apply Ho.
Qed.

Lemma consistent_grant st user sid acc :
  consistent st -> consistent (grant user sid acc st).
Proof.
  intros H. unfold grant. destruct (includes acc sid); [exact H|].
  now apply consistent_insert_access.
Qed.

Lemma createCollaborationLink_runs w rnd sid title owner ids :
  stored_strings (localStorage w) (ownerKey owner) = Some ids ->
  createCollaborationLink rnd sid title owner w =
    Returned (mkLink (freshId rnd w) sid title owner (clock w) None)
             (created rnd sid title owner ids w).
Proof.
  intros H. unfold createCollaborationLink, generateLinkId.
  unfold bind at 1. unfold bind at 1. unfold Date_now at 1. unfold ret at 1.
  unfold bind at 1. unfold Date_now at 1.
  unfold bind at 1. unfold setItem at 1.
  unfold bind at 1.
  erewrite getOwnerLinks_reads
    by (simpl; rewrite stored_strings_insert_ne by distinct_keys; exact H).
  reflexivity.
Qed.

Lemma alter_refreshed_emails t i cs :
  map email (alter (refreshed t) i cs) = map email cs.
Proof.
  revert i. induction cs as [|c cs IH]; intros [|i]; simpl; try reflexivity.
  f_equal. apply IH.
Qed.

Lemma updateCollaboratorActivity_runs w sid user cs :
  stored_roster (localStorage w) sid = Some cs ->
  updateCollaboratorActivity sid user w = Returned tt (beaten sid user cs w).
Proof.
  intros H. unfold updateCollaboratorActivity, bind at 1.
  rewrite (getActiveCollaborators_reads _ _ _ H).
  unfold beaten, hasEmail.
  destruct (0 <=? findIndex (fun c => String.eqb (email c) user)
                            (map (withLiveness (clock w)) cs)); [|reflexivity].
  destruct w; reflexivity.
Qed.

Lemma filter_NoDup_emails (p : ActiveCollaborator -> bool) cs :
  NoDup (map email cs) -> NoDup (map email (List.filter p cs)).
Proof.
  induction cs as [|c cs IH]; [easy|].
  simpl. intros Hnd. apply NoDup_cons in Hnd as [Hc Hnd].
  destruct (p c); [|now apply IH].
  simpl. apply NoDup_cons. split; [|now apply IH].
  intros Hin. apply Hc.
  apply list_elem_of_In, in_map_iff in Hin as (x & Hx & Hin).
  apply filter_In in Hin as [Hin _].
  apply list_elem_of_In, in_map_iff. now exists x.
Qed.

(** Every call returns in a consistent store and leaves it consistent. *)
Lemma perform_consistent c w :
  consistent (localStorage w) ->
  exists w', perform c w = Returned tt w' /\ consistent (localStorage w').
Proof.
  intros Hc. destruct c as [rnd sid title owner|id user nm|sid user|sid user];
    simpl.
  - destruct (owners_typed _ Hc owner) as [ids Hids].
    unfold bind. rewrite (createCollaborationLink_runs _ _ _ _ _ _ Hids).
    eexists. split; [reflexivity|]. simpl.
    now apply consistent_insert_owner, consistent_insert_link.
  - pose proof (links_typed _ Hc id) as Hl.
    destruct (localStorage w !! linkKey id) as [[link| |]|] eqn:E; try easy.
    + destruct (rosters_unique _ Hc (spreadsheetId link)) as (cs & Hcs & Hnd).
      destruct (access_typed _ Hc user) as [acc Hacc].
      unfold bind. rewrite (addCollaborator_found _ _ _ _ _ _ _ E Hcs Hacc).
      eexists. split; [reflexivity|]. simpl.
      apply consistent_grant, consistent_insert_roster; [exact Hc|].
      apply upsert_NoDup. now rewrite map_email_withLiveness.
    + unfold bind, addCollaborator, bind.
      rewrite (getCollaborationLink_absent _ _ E). simpl.
      eexists. split; [reflexivity|exact Hc].
  - destruct (rosters_unique _ Hc sid) as (cs & Hcs & Hnd).
    rewrite (updateCollaboratorActivity_runs _ _ _ _ Hcs).
    eexists. split; [reflexivity|]. unfold beaten.
    destruct (0 <=? _); [|exact Hc]. simpl.
    apply consistent_insert_roster; [exact Hc|].
    now rewrite alter_refreshed_emails, map_email_withLiveness.
  - destruct (rosters_unique _ Hc sid) as (cs & Hcs & Hnd).
    rewrite (removeCollaborator_runs _ _ _ _ Hcs).
    eexists. split; [reflexivity|]. simpl.
    apply consistent_insert_roster; [exact Hc|].
    apply filter_NoDup_emails. now rewrite map_email_withLiveness.
Qed.

Lemma run_consistent calls w :
  consistent (localStorage w) ->
  exists w', run calls w = Some w' /\ consistent (localStorage w').
Proof.
  revert w. induction calls as [|[t c] calls IH]; intros w Hc; simpl.
  - now exists w.
  - destruct (perform_consistent c (at_time t w) Hc) as (w1 & -> & Hc1).
    now apply IH.
Qed.

Lemma joined_access id user nm link cs acc w :
  stored_strings (localStorage w) (accessKey user) = Some acc ->
  stored_strings (localStorage (joined id user nm link cs acc w))
                 (accessKey user)
  = Some (if includes acc (spreadsheetId link) then acc
          else acc ++ [spreadsheetId link]).
Proof.
  intros H. unfold joined, grant. simpl.
  destruct (includes acc (spreadsheetId link)).
  - rewrite stored_strings_insert_ne by distinct_keys. exact H.
  - apply stored_strings_insert.
Qed.

Lemma joined_link id user nm link cs acc w id' :
  localStorage (joined id user nm link cs acc w) !! linkKey id'
  = localStorage w !! linkKey id'.
Proof.
  unfold joined, grant. simpl.
  destruct (includes acc (spreadsheetId link)).
  - now rewrite lookup_insert_ne by distinct_keys.
  - rewrite lookup_insert_ne by distinct_keys.
    now rewrite lookup_insert_ne by distinct_keys.
Qed.

(** Two joins in a row by the same user, the second at time [t2]. *)
Lemma second_join w id user n1 n2 link cs acc t2 :
  localStorage w !! linkKey id = Some (JLink link) ->
  stored_roster (localStorage w) (spreadsheetId link) = Some cs ->
  NoDup (map email cs) ->
  stored_strings (localStorage w) (accessKey user) = Some acc ->
  let w1 := after (addCollaborator id user n1 w) w in
  let w2 := after (addCollaborator id user n2 (at_time t2 w1))
                     (at_time t2 w1) in
  exists rs1 rs2 c1 c2,
    stored_roster (localStorage w1) (spreadsheetId link) = Some rs1
    /\ stored_roster (localStorage w2) (spreadsheetId link) = Some rs2
    /\ length rs2 = length rs1
    /\ List.filter (hasEmail user) rs1 = [c1]
    /\ List.filter (hasEmail user) rs2 = [c2]
    /\ joinedAt c2 = joinedAt c1
    /\ lastActive c1 = clock w
    /\ lastActive c2 = t2 /\ isActive c2 = true
    /\ (user ∉ map email cs -> joinedAt c1 = clock w).
Proof.
  intros Hl Hr Hnd Ha w1 w2. subst w2 w1.
  rewrite (addCollaborator_found _ _ _ _ _ _ _ Hl Hr Ha). simpl.
  set (w1 := joined id user n1 link cs acc w).
  set (rs1 := upsert (clock w) user n1 (map (withLiveness (clock w)) cs)).
  assert (Hr1 : stored_roster (localStorage w1) (spreadsheetId link) = Some rs1)
    by apply stored_roster_joined.
  destruct (joined_record (clock w) user n1 cs Hnd)
    as (c1 & Hf1 & He1 & Hla1 & _ & Hm).
  fold rs1 in Hf1.
  assert (Hl1 : localStorage (at_time t2 w1) !! linkKey id = Some (JLink link)).
  { rewrite <- Hl. apply (joined_link id user n1 link cs acc w id). }
  pose proof (joined_access id user n1 link cs acc w Ha) as Ha1.
  fold w1 in Ha1.
  destruct (rejoin_record (at_time t2 w1) id user n2 link rs1 _ c1
              Hl1 Hr1 Ha1 Hf1)
    as (rs2 & Hr2 & Hf2 & Hlen).
  exists rs1, rs2, c1, (refreshed t2 c1).
  split; [exact Hr1|]. split; [exact Hr2|]. split; [exact Hlen|].
  split; [exact Hf1|]. split; [exact Hf2|]. split; [reflexivity|].
  split; [exact Hla1|]. split; [reflexivity|]. split; [reflexivity|].
  intros Hn.
  assert (Hnone : List.filter (hasEmail user) cs = []).
  { destruct (List.filter (hasEmail user) cs) as [|c0 rest] eqn:E;
      [reflexivity|].
    exfalso. apply Hn.
    assert (Hc0 : In c0 (List.filter (hasEmail user) cs))
      by (rewrite E; now left).
    apply filter_In in Hc0 as [Hc0 Hu]. apply hasEmail_true in Hu.
    rewrite <- Hu. apply list_elem_of_In, in_map, Hc0. }
  rewrite Hnone in Hm. apply Hm.
Qed.

(** * One record per spreadsheet and email *)

(** C2. From any consistent store, the empty one among them, every sequence
    of calls (create a link, join, heartbeat, remove, at any times) returns
    and leaves every roster with pairwise different emails. A second join by
    the same user leaves the roster as long as the first did, with a single
    record for the user whose [joinedAt] is the one the first join left and
    whose [lastActive] is the time of the second join. *)
Theorem one_record_per_spreadsheet_and_email :
  consistent (localStorage emptyWorld)
  /\ (forall w0 calls,
        consistent (localStorage w0) ->
        exists w,
          run calls w0 = Some w
          /\ forall sid t, exists rs,
               roster sid t w = Some rs /\ NoDup (map email rs))
  /\ (forall w id user n1 n2 link cs acc t2,
        localStorage w !! linkKey id = Some (JLink link) ->
        stored_roster (localStorage w) (spreadsheetId link) = Some cs ->
        NoDup (map email cs) ->
        stored_strings (localStorage w) (accessKey user) = Some acc ->
        let w1 := after (addCollaborator id user n1 w) w in
        let w2 := after (addCollaborator id user n2 (at_time t2 w1))
                     (at_time t2 w1) in
        exists rs1 rs2 c1 c2,
          stored_roster (localStorage w1) (spreadsheetId link) = Some rs1
          /\ stored_roster (localStorage w2) (spreadsheetId link) = Some rs2
          /\ length rs2 = length rs1
          /\ List.filter (hasEmail user) rs1 = [c1]
          /\ List.filter (hasEmail user) rs2 = [c2]
          /\ joinedAt c2 = joinedAt c1
          /\ lastActive c1 = clock w
          /\ lastActive c2 = t2 /\ isActive c2 = true
          /\ (user ∉ map email cs -> joinedAt c1 = clock w)).
Proof.
  split; [apply consistent_empty|]. split.
  - intros w0 calls Hc.
    destruct (run_consistent calls w0 Hc) as (w & Hrun & Hw).
    exists w. split; [exact Hrun|].
    intros sid t. destruct (rosters_unique _ Hw sid) as (cs & Hcs & Hnd).
    exists (map (withLiveness t) cs).
    split; [now apply roster_reads|].
    now rewrite map_email_withLiveness.
  - apply second_join.
Qed.

Lemma one_record_per_spreadsheet_and_email_witness :
  (exists w,
     run [(1700000000000, CreateLink "k3j9x0a1b" "Budget2024" "Budget" "a@x.com");
          (1700000001000, Join budgetLink "b@x.com" "Bob");
          (1700000002000, Join budgetLink "b@x.com" "Robert");
          (1700000003000, Heartbeat "Budget2024" "b@x.com");
          (1700000004000, Remove "Budget2024" "c@x.com")] emptyWorld = Some w
     /\ forall sid t, exists rs,
          roster sid t w = Some rs /\ NoDup (map email rs))
  /\ (let w := at_time 1700000001000 shared in
      let w1 := after (addCollaborator budgetLink "b@x.com" "Bob" w) w in
      let w2 := after (addCollaborator budgetLink "b@x.com" "Robert"
                         (at_time 1700000002000 w1))
                      (at_time 1700000002000 w1) in
      exists rs1 rs2 c1 c2,
        stored_roster (localStorage w1) "Budget2024" = Some rs1
        /\ stored_roster (localStorage w2) "Budget2024" = Some rs2
        /\ length rs2 = length rs1
        /\ List.filter (hasEmail "b@x.com") rs1 = [c1]
        /\ List.filter (hasEmail "b@x.com") rs2 = [c2]
        /\ joinedAt c2 = joinedAt c1
        /\ lastActive c1 = 1700000001000
        /\ lastActive c2 = 1700000002000 /\ isActive c2 = true
        /\ ("b@x.com" ∉ map email [] -> joinedAt c1 = 1700000001000)).
Proof.
  split.
  - apply (proj1 (proj2 one_record_per_spreadsheet_and_email) emptyWorld).
    apply (proj1 one_record_per_spreadsheet_and_email).
  - apply (proj2 (proj2 one_record_per_spreadsheet_and_email)
             (at_time 1700000001000 shared) budgetLink "b@x.com" "Bob" "Robert"
             (mkLink budgetLink "Budget2024" "Budget" "a@x.com"
                     1700000000000 None)
             [] [] 1700000002000).
    + vm_compute. reflexivity.
    + vm_compute. reflexivity.
    + apply NoDup_nil_2.
    + vm_compute. reflexivity.
Defined.

(** * Ownership *)

Lemma some_links w sid ids :
  consistent (localStorage w) ->
  some (fun id =>
          link <- getCollaborationLink id ;;
          ret match link with
              | Some l => String.eqb (spreadsheetId l) sid
              | None => false
              end) ids w
  = Returned (owns (localStorage w) sid ids) w.
Proof.
  intros Hc. induction ids as [|id ids IH]; [reflexivity|].
  simpl. unfold bind at 1. unfold bind at 1.
  pose proof (links_typed _ Hc id) as Hl.
  destruct (localStorage w !! linkKey id) as [[l| |]|] eqn:E; try easy.
  - rewrite (getCollaborationLink_stored _ _ _ E). unfold ret at 1.
    destruct (String.eqb (spreadsheetId l) sid); [reflexivity|exact IH].
  - rewrite (getCollaborationLink_absent _ _ E). unfold ret at 1. exact IH.
Qed.

Lemma isSpreadsheetOwner_runs w sid user ids :
  consistent (localStorage w) ->
  stored_strings (localStorage w) (ownerKey user) = Some ids ->
  isSpreadsheetOwner sid user w = Returned (owns (localStorage w) sid ids) w.
Proof.
  intros Hc Hids. unfold isSpreadsheetOwner, bind at 1.
  rewrite (getOwnerLinks_reads _ _ _ Hids). now apply some_links.
Qed.

Lemma owns_true st sid ids :
  owns st sid ids = true <->
  exists id l, id ∈ ids /\ st !! linkKey id = Some (JLink l)
               /\ spreadsheetId l = sid.
Proof.
  unfold owns. rewrite existsb_exists. split.
  - intros (id & Hin & H). exists id.
    destruct (st !! linkKey id) as [[l| |]|]; try discriminate.
    exists l. split; [now apply list_elem_of_In|].
    split; [reflexivity|]. now apply String.eqb_eq.
  - intros (id & l & Hin & Hl & Hs). exists id.
    split; [now apply list_elem_of_In|].
    rewrite Hl. now apply String.eqb_eq.
Qed.

Lemma owns_app st sid ids ids' :
  owns st sid (ids ++ ids') = owns st sid ids || owns st sid ids'.
Proof. apply existsb_app. Qed.

Lemma owns_same_links st st' sid ids :
  (forall id, id ∈ ids -> st' !! linkKey id = st !! linkKey id) ->
  owns st' sid ids = owns st sid ids.
Proof.
  intros H. unfold owns. induction ids as [|id ids IH]; [reflexivity|].
  simpl. rewrite (H id) by apply list_elem_of_here.
  f_equal. apply IH. intros id' Hin. apply H. now apply list_elem_of_further.
Qed.

Lemma joined_owner id user nm link cs acc w owner :
  stored_strings (localStorage (joined id user nm link cs acc w))
                 (ownerKey owner)
  = stored_strings (localStorage w) (ownerKey owner).
Proof.
  unfold joined, grant. simpl.
  destruct (includes acc (spreadsheetId link)).
  - now rewrite stored_strings_insert_ne by distinct_keys.
  - rewrite stored_strings_insert_ne by distinct_keys.
    now rewrite stored_strings_insert_ne by distinct_keys.
Qed.

(** A shares, B joins through the link that A received. *)
Lemma share_then_join w rnd sid title a b nm t2 ids_b :
  consistent (localStorage w) ->
  a <> b ->
  stored_strings (localStorage w) (ownerKey b) = Some ids_b ->
  owns (localStorage w) sid ids_b = false ->
  freshId rnd w ∉ ids_b ->
  let w1 := after (createCollaborationLink rnd sid title a w) w in
  let join := addCollaborator (freshId rnd w) b nm (at_time t2 w1) in
  let w2 := after join (at_time t2 w1) in
  result join = Some true
  /\ isSpreadsheetOwner sid a w2 = Returned true w2
  /\ isSpreadsheetOwner sid b w2 = Returned false w2.
Proof.
  intros Hc Hab Hb Hnot Hfresh w1 join w2. subst w2 join w1.
  destruct (owners_typed _ Hc a) as [ids_a Ha].
  rewrite (createCollaborationLink_runs _ _ _ _ _ _ Ha). simpl.
  set (id := freshId rnd w).
  set (link := mkLink id sid title a (clock w) None).
  set (w1 := created rnd sid title a ids_a w).
  assert (Hc1 : consistent (localStorage (at_time t2 w1))).
  { simpl. now apply consistent_insert_owner, consistent_insert_link. }
  assert (Hl1 : localStorage (at_time t2 w1) !! linkKey id = Some (JLink link)).
  { simpl. rewrite lookup_insert_ne by distinct_keys. apply lookup_insert_eq. }
  destruct (rosters_unique _ Hc1 sid) as (cs & Hcs & Hnd).
  destruct (access_typed _ Hc1 b) as [acc Hacc].
  rewrite (addCollaborator_found _ _ _ _ link cs acc Hl1 Hcs Hacc). simpl.
  set (w2 := joined id b nm link cs acc (at_time t2 w1)).
  assert (Hc2 : consistent (localStorage w2)).
  { apply consistent_grant, consistent_insert_roster; [exact Hc1|].
    apply upsert_NoDup. now rewrite map_email_withLiveness. }
  split; [reflexivity|]. split.
  - rewrite (isSpreadsheetOwner_runs w2 sid a (ids_a ++ [id]) Hc2).
    + rewrite owns_app. f_equal.
      replace (owns (localStorage w2) sid [id]) with true;
        [now destruct (owns _ _ ids_a)|].
      symmetry. apply owns_true. exists id, link.
      split; [apply list_elem_of_here|]. split; [|reflexivity].
      unfold w2. rewrite joined_link. exact Hl1.
    + unfold w2. rewrite joined_owner. simpl. apply stored_strings_insert.
  - rewrite (isSpreadsheetOwner_runs w2 sid b ids_b Hc2).
    + f_equal. rewrite <- Hnot. apply owns_same_links.
      intros id' Hin. unfold w2. rewrite joined_link. simpl.
      rewrite lookup_insert_ne by distinct_keys.
      apply lookup_insert_ne. intros E. apply linkKey_inj in E.
      congruence.
    + unfold w2. rewrite joined_owner. simpl.
      rewrite stored_strings_insert_ne.
      * rewrite stored_strings_insert_ne by distinct_keys. exact Hb.
      * intros E. apply ownerKey_inj in E. congruence.
Qed.

Lemma getCollaborationLink_result w id l :
  result (getCollaborationLink id w) = Some (Some l) <->
  localStorage w !! linkKey id = Some (JLink l).
Proof.
  unfold getCollaborationLink, bind, getItem.
  destruct (localStorage w !! linkKey id) as [[l'| |]|]; simpl;
    split; intros H; try discriminate; congruence.
Qed.

(** C9 (as amended). On a store whose entries have the shapes the module
    writes, [isSpreadsheetOwner] returns [true] exactly when one of the ids
    in the user's owner index resolves to a link of the spreadsheet. After A
    has created a link for a spreadsheet and another user B, who was not an
    owner of it and whose owner index does not list the id of the new link,
    has joined through that link, A is an owner of the spreadsheet and B is
    not; so it is in the scenario of the spec, where [a@x.com] shares
    "Budget2024" and [b@x.com] joins. *)
Theorem owner_iff_an_owned_link_resolves :
  (forall w sid user,
     consistent (localStorage w) ->
     exists b,
       isSpreadsheetOwner sid user w = Returned b w
       /\ (b = true <->
           exists ids id l,
             result (getOwnerLinks user w) = Some ids /\ id ∈ ids
             /\ result (getCollaborationLink id w) = Some (Some l)
             /\ spreadsheetId l = sid))
  /\ (forall w rnd sid title a b nm t2 ids_b,
        consistent (localStorage w) ->
        a <> b ->
        result (getOwnerLinks b w) = Some ids_b ->
        result (isSpreadsheetOwner sid b w) = Some false ->
        freshId rnd w ∉ ids_b ->
        let w1 := after (createCollaborationLink rnd sid title a w) w in
        let join := addCollaborator (freshId rnd w) b nm (at_time t2 w1) in
        let w2 := after join (at_time t2 w1) in
        result join = Some true
        /\ isSpreadsheetOwner sid a w2 = Returned true w2
        /\ isSpreadsheetOwner sid b w2 = Returned false w2)
  /\ ((exists c, roster "Budget2024" 1700000001000 bobJoined = Some [c]
                 /\ email c = "b@x.com" /\ isActive c = true)
      /\ isSpreadsheetOwner "Budget2024" "a@x.com" bobJoined
         = Returned true bobJoined
      /\ isSpreadsheetOwner "Budget2024" "b@x.com" bobJoined
         = Returned false bobJoined).
Proof.
  split; [|split].
  - intros w sid user Hc.
    destruct (owners_typed _ Hc user) as [ids Hids].
    exists (owns (localStorage w) sid ids).
    split; [now apply isSpreadsheetOwner_runs|].
    rewrite owns_true, (getOwnerLinks_reads _ _ _ Hids). simpl. split.
    + intros (id & l & Hin & Hl & Hs). exists ids, id, l.
      split; [reflexivity|]. split; [exact Hin|].
      split; [now apply getCollaborationLink_result | exact Hs].
    + intros (ids' & id & l & Hids' & Hin & Hl & Hs).
      injection Hids' as <-. exists id, l.
      split; [exact Hin|].
      split; [now apply getCollaborationLink_result | exact Hs].
  - intros w rnd sid title a b nm t2 ids_b Hc Hab Hb Hnot Hfresh.
    destruct (owners_typed _ Hc b) as [ids Hids].
    rewrite (getOwnerLinks_reads _ _ _ Hids) in Hb. injection Hb as ->.
    rewrite (isSpreadsheetOwner_runs _ _ _ _ Hc Hids) in Hnot.
    injection Hnot as Hnot.
    eapply share_then_join; eassumption.
  - split; [|split; vm_compute; reflexivity].
    eexists. split; [vm_compute; reflexivity|]. split; reflexivity.
Qed.

Lemma owner_iff_an_owned_link_resolves_witness :
  (exists b,
     isSpreadsheetOwner "Budget2024" "a@x.com" shared = Returned b shared
     /\ (b = true <->
         exists ids id l,
           result (getOwnerLinks "a@x.com" shared) = Some ids /\ id ∈ ids
           /\ result (getCollaborationLink id shared) = Some (Some l)
           /\ spreadsheetId l = "Budget2024"))
  /\ (let w := at_time 1700000000500 shared in
      let w1 := after (createCollaborationLink "zzz" "Plan" "Plan 2025"
                         "c@x.com" w) w in
      let join := addCollaborator (freshId "zzz" w) "a@x.com" "Ann"
                    (at_time 1700000000900 w1) in
      let w2 := after join (at_time 1700000000900 w1) in
      result join = Some true
      /\ isSpreadsheetOwner "Plan" "c@x.com" w2 = Returned true w2
      /\ isSpreadsheetOwner "Plan" "a@x.com" w2 = Returned false w2).
Proof.
  assert (Hc : consistent (localStorage shared)).
  { destruct (run_consistent
                [(1700000000000,
                  CreateLink "k3j9x0a1b" "Budget2024" "Budget" "a@x.com")]
                emptyWorld consistent_empty) as (w & Hrun & Hw).
    vm_compute in Hrun. injection Hrun as <-. exact Hw. }
  split.
  - apply (proj1 owner_iff_an_owned_link_resolves shared). exact Hc.
  - apply (proj1 (proj2 owner_iff_an_owned_link_resolves)
             (at_time 1700000000500 shared) "zzz" "Plan" "Plan 2025"
             "c@x.com" "a@x.com" "Ann" 1700000000900 [budgetLink]).
    + exact Hc.
    + discriminate.
    + vm_compute. reflexivity.
    + vm_compute. reflexivity.
    + vm_compute. intros H. apply list_elem_of_singleton in H. discriminate H.
Defined.

(** C9, as stated, fails when the joining user holds a link of his own to
    the spreadsheet: [b@x.com] had shared "Budget2024" before, [a@x.com]
    creates a link for it, [b@x.com] joins through that link, and both are
    owners. *)
Lemma earlier_sharer_is_still_owner_after_joining :
  let w := at_time 1700000001000 bothShared in
  let join := addCollaborator budgetLink "b@x.com" "Bob" w in
  let w' := after join w in
  "a@x.com" <> "b@x.com"
  /\ result (getCollaborationLink budgetLink w)
     = Some (Some (mkLink budgetLink "Budget2024" "Budget" "a@x.com"
                     1700000000000 None))
  /\ result join = Some true
  /\ result (isSpreadsheetOwner "Budget2024" "a@x.com" w') = Some true
  /\ result (isSpreadsheetOwner "Budget2024" "b@x.com" w') = Some true
  /\ Some true <> Some false.
Proof.
  split; [discriminate|].
  split; [vm_compute; reflexivity|].
  split; [vm_compute; reflexivity|].
  split; [vm_compute; reflexivity|].
  split; [vm_compute; reflexivity|].
  discriminate.
Qed.

(** * The shareable URL *)

Lemma occurs_append c a b :
  occurs c (a +:+ b) = occurs c a || occurs c b.
Proof.
  induction a as [|x a IH]; [reflexivity|].
  change (String x a +:+ b) with (String x (a +:+ b)).
  simpl. rewrite IH. now rewrite orb_assoc.
Qed.

Lemma split_free sep s :
  occurs sep s = false -> URLSearchParams.split sep s = [s].
Proof.
  induction s as [|c s IH]; [reflexivity|].
  simpl. intros H. apply orb_false_iff in H as [Hc Hs].
  rewrite Hc, (IH Hs). reflexivity.
Qed.

Lemma plus_to_space_free s :
  occurs "+" s = false -> URLSearchParams.plus_to_space s = s.
Proof.
  induction s as [|c s IH]; [reflexivity|].
  simpl. intros H. apply orb_false_iff in H as [Hc Hs].
  rewrite Hc, (IH Hs). reflexivity.
Qed.

Lemma percent_decode_free s :
  occurs "%" s = false -> URLSearchParams.percent_decode s = s.
Proof.
  induction s as [|c s IH]; [reflexivity|].
  intros H. simpl in H. apply orb_false_iff in H as [Hc Hs].
  cbn [URLSearchParams.percent_decode]. rewrite Hc. now rewrite (IH Hs).
Qed.

Lemma decode_plain s : plain s = true -> URLSearchParams.decode s = s.
Proof.
  unfold plain, URLSearchParams.decode. intros H.
  apply andb_true_iff in H as [H Hp]. apply andb_true_iff in H as [_ Hs].
  apply negb_true_iff in Hp, Hs.
  now rewrite (plus_to_space_free _ Hs), (percent_decode_free _ Hp).
Qed.

Lemma new_collab id :
  plain id = true ->
  URLSearchParams.new ("?collab=" +:+ id) = [("collab", id)].
Proof.
  intros H.
  change (URLSearchParams.new ("?collab=" +:+ id))
    with (URLSearchParams.parse ("collab=" +:+ id)).
  unfold URLSearchParams.parse. rewrite split_free.
  - change (flat_map _ ["collab=" +:+ id])
      with [(URLSearchParams.decode "collab", URLSearchParams.decode id)].
    now rewrite (decode_plain _ H).
  - rewrite occurs_append. unfold plain in H.
    apply andb_true_iff in H as [H _]. apply andb_true_iff in H as [Ha _].
    apply negb_true_iff in Ha. now rewrite Ha.
Qed.

Lemma get_absent params key :
  (forall n v, (n, v) ∈ params -> n <> key) ->
  URLSearchParams.get params key = None.
Proof.
  induction params as [|[n v] params IH]; [reflexivity|].
  intros H. simpl.
  destruct (String.eqb_spec n key) as [E|_].
  - exfalso. apply (H n v); [apply list_elem_of_here | exact E].
  - apply IH. intros n' v' Hin. apply (H n' v'). now apply list_elem_of_further.
Qed.

Lemma decimal_digits c z :
  (c = "&" \/ c = "+" \/ c = "%")%char -> occurs c (decimal z) = false.
Proof.
  intros Hc. unfold decimal.
  assert (Hu : forall d, occurs c (NilEmpty.string_of_uint d) = false).
  { induction d; simpl; rewrite ?IHd; try reflexivity;
      destruct Hc as [->|[->| ->]]; reflexivity. }
  assert (Hz : forall d, occurs c (NilZero.string_of_uint d) = false).
  { intros d. unfold NilZero.string_of_uint. destruct d; try apply Hu.
    destruct Hc as [->|[->| ->]]; reflexivity. }
  destruct (Z.to_int z) as [d|d]; simpl.
  - apply Hz.
  - rewrite Hz. destruct Hc as [->|[->| ->]]; reflexivity.
Qed.

Lemma generated_plain rnd w :
  plain rnd = true -> plain (freshId rnd w) = true.
Proof.
  unfold plain, freshId. intros H.
  apply andb_true_iff in H as [H Hp]. apply andb_true_iff in H as [Ha Hs].
  apply negb_true_iff in Ha, Hs, Hp.
  rewrite !occurs_append, !decimal_digits, Ha, Hs, Hp by tauto.
  reflexivity.
Qed.

(** ** From the address to the page *)

Lemma append_cons a s t : String a s +:+ t = String a (s +:+ t).
Proof. reflexivity. Qed.

Lemma append_nil t : "" +:+ t = t.
Proof. reflexivity. Qed.

Lemma trimLeading_app o c s :
  Href.isC0OrSpace c = false ->
  Href.trimLeading (o +:+ String c s) = Href.trimLeading o +:+ String c s.
Proof.
  intros H. induction o as [|a o IH].
  - rewrite append_nil. simpl. now rewrite H.
  - rewrite append_cons. simpl.
    destruct (Href.isC0OrSpace a); [exact IH | reflexivity].
Qed.

Lemma endsClean_cons a s : s <> "" -> Href.endsClean (String a s) = Href.endsClean s.
Proof. destruct s; [contradiction | reflexivity]. Qed.

Lemma endsClean_app x c y :
  Href.endsClean (x +:+ String c y) = Href.endsClean (String c y).
Proof.
  induction x as [|a x IH]; [reflexivity|].
  rewrite append_cons, endsClean_cons; [exact IH|].
  destruct x; discriminate.
Qed.

Lemma trimTrailing_clean s : Href.endsClean s = true -> Href.trimTrailing s = s.
Proof.
  induction s as [|c s IH]; [reflexivity|].
  destruct s as [|c' s'].
  - simpl. intros H. apply negb_true_iff in H. now rewrite H.
  - intros H. rewrite endsClean_cons in H by discriminate.
    change (Href.trimTrailing (String c (String c' s')))
      with (match Href.trimTrailing (String c' s') with
            | EmptyString => if Href.isC0OrSpace c then EmptyString
                             else String c EmptyString
            | rest => String c rest
            end).
    now rewrite (IH H).
Qed.

Lemma isTabOrNewline_eqb c :
  Href.isTabOrNewline c
  = Ascii.eqb c (ascii_of_nat 9) || Ascii.eqb c (ascii_of_nat 10)
    || Ascii.eqb c (ascii_of_nat 13).
Proof. destruct c as [[] [] [] [] [] [] [] []]; reflexivity. Qed.

Lemma removeTabNewline_app s t :
  Href.removeTabNewline (s +:+ t)
  = Href.removeTabNewline s +:+ Href.removeTabNewline t.
Proof.
  induction s as [|a s IH]; [reflexivity|].
  rewrite append_cons. simpl. rewrite IH.
  now destruct (Href.isTabOrNewline a).
Qed.

Lemma removeTabNewline_free s :
  occurs (ascii_of_nat 9) s = false -> occurs (ascii_of_nat 10) s = false ->
  occurs (ascii_of_nat 13) s = false ->
  Href.removeTabNewline s = s.
Proof.
  induction s as [|a s IH]; [reflexivity|].
  intros H1 H2 H3. cbn [occurs] in H1, H2, H3.
  apply orb_false_iff in H1 as [E1 H1]. apply orb_false_iff in H2 as [E2 H2].
  apply orb_false_iff in H3 as [E3 H3].
  cbn [Href.removeTabNewline]. rewrite isTabOrNewline_eqb, E1, E2, E3.
  simpl. now rewrite IH.
Qed.

Lemma occurs_trimLeading c s :
  occurs c s = false -> occurs c (Href.trimLeading s) = false.
Proof.
  induction s as [|a s IH]; [reflexivity|].
  intros H. simpl. destruct (Href.isC0OrSpace a); [|exact H].
  simpl in H. apply orb_false_iff in H as [_ H]. now apply IH.
Qed.

Lemma occurs_trimTrailing c s :
  occurs c s = false -> occurs c (Href.trimTrailing s) = false.
Proof.
  induction s as [|a s IH]; [reflexivity|].
  intros H. simpl in H. apply orb_false_iff in H as [Ha H].
  specialize (IH H). simpl.
  destruct (Href.trimTrailing s) as [|b r].
  - destruct (Href.isC0OrSpace a); [reflexivity|]. simpl. now rewrite Ha.
  - cbn [occurs]. cbn [occurs] in IH. now rewrite Ha.
Qed.

Lemma occurs_removeTabNewline c s :
  occurs c s = false -> occurs c (Href.removeTabNewline s) = false.
Proof.
  induction s as [|a s IH]; [reflexivity|].
  intros H. simpl in H. apply orb_false_iff in H as [Ha H].
  simpl. destruct (Href.isTabOrNewline a); [now apply IH|].
  simpl. rewrite Ha. now apply IH.
Qed.

Lemma occurs_beforeFragment c s :
  occurs c s = false -> occurs c (Href.beforeFragment s) = false.
Proof.
  induction s as [|a s IH]; [reflexivity|].
  intros H. simpl in H. apply orb_false_iff in H as [Ha H].
  simpl. destruct (Ascii.eqb a "#"); [reflexivity|].
  simpl. rewrite Ha. now apply IH.
Qed.

Lemma beforeFragment_free s :
  occurs "#" s = false -> Href.beforeFragment s = s.
Proof.
  induction s as [|a s IH]; [reflexivity|].
  intros H. simpl in H. apply orb_false_iff in H as [Ha H].
  simpl. rewrite Ha. now rewrite IH.
Qed.

Lemma afterQuestion_app o q :
  occurs "?" o = false -> Href.afterQuestion (o +:+ String "?" q) = Some q.
Proof.
  induction o as [|a o IH]; [reflexivity|].
  intros H. simpl in H. apply orb_false_iff in H as [Ha H].
  rewrite append_cons. simpl. rewrite Ha. now apply IH.
Qed.

Lemma afterQuestion_none s :
  occurs "?" s = false -> Href.afterQuestion s = None.
Proof.
  induction s as [|a s IH]; [reflexivity|].
  intros H. simpl in H. apply orb_false_iff in H as [Ha H].
  simpl. rewrite Ha. now apply IH.
Qed.

(** An escape reads back as the character it stands for, and its two digits
    are neither [&] nor [+]. *)
Lemma escape_reads_back c rest :
  URLSearchParams.percent_decode
    (String "%" (String (Href.hexDigit (N_of_ascii c / 16))
                   (String (Href.hexDigit (N_of_ascii c mod 16)) rest)))
  = String c (URLSearchParams.percent_decode rest).
Proof. destruct c as [[] [] [] [] [] [] [] []]; reflexivity. Qed.

Lemma escape_digits c :
  let hi := Href.hexDigit (N_of_ascii c / 16) in
  let lo := Href.hexDigit (N_of_ascii c mod 16) in
  Ascii.eqb hi "&" = false /\ Ascii.eqb lo "&" = false
  /\ Ascii.eqb hi "+" = false /\ Ascii.eqb lo "+" = false.
Proof. destruct c as [[] [] [] [] [] [] [] []]; repeat split. Qed.

Lemma encodeQuery_no_ampersand s :
  occurs "&" s = false -> occurs "&" (Href.encodeQuery s) = false.
Proof.
  induction s as [|c s IH]; [reflexivity|].
  intros H. simpl in H. apply orb_false_iff in H as [Hc H].
  cbn [Href.encodeQuery]. destruct (Href.inQuerySet c).
  - destruct (escape_digits c) as (H1 & H2 & _ & _).
    cbn [occurs]. rewrite H1, H2. simpl. now apply IH.
  - cbn [occurs]. rewrite Hc. simpl. now apply IH.
Qed.

Lemma encodeQuery_plus s :
  occurs "+" s = false ->
  URLSearchParams.plus_to_space (Href.encodeQuery s) = Href.encodeQuery s.
Proof.
  induction s as [|c s IH]; [reflexivity|].
  intros H. simpl in H. apply orb_false_iff in H as [Hc H].
  cbn [Href.encodeQuery]. destruct (Href.inQuerySet c).
  - destruct (escape_digits c) as (_ & _ & H1 & H2).
    cbn [URLSearchParams.plus_to_space]. rewrite H1, H2, (IH H). reflexivity.
  - cbn [URLSearchParams.plus_to_space]. rewrite Hc, (IH H). reflexivity.
Qed.

Lemma encodeQuery_reads_back s :
  occurs "%" s = false ->
  URLSearchParams.percent_decode (Href.encodeQuery s) = s.
Proof.
  induction s as [|c s IH]; [reflexivity|].
  intros H. simpl in H. apply orb_false_iff in H as [Hc H].
  cbn [Href.encodeQuery]. destruct (Href.inQuerySet c).
  - rewrite escape_reads_back. now rewrite (IH H).
  - cbn [URLSearchParams.percent_decode]. rewrite Hc. now rewrite (IH H).
Qed.

Lemma roundTrips_parts id :
  roundTrips id = true ->
  occurs "&" id = false /\ occurs "+" id = false /\ occurs "%" id = false
  /\ occurs "#" id = false
  /\ occurs (ascii_of_nat 9) id = false /\ occurs (ascii_of_nat 10) id = false
  /\ occurs (ascii_of_nat 13) id = false
  /\ Href.endsClean id = true.
Proof.
  unfold roundTrips. intros H.
  repeat (apply andb_true_iff in H as [H ?]).
  repeat match goal with E : negb _ = true |- _ => apply negb_true_iff in E end.
  repeat split; assumption.
Qed.

(** The page reached through the address built for an id has the id,
    escaped, as its query string. *)
Lemma search_collab o id :
  occurs "?" o = false -> occurs "#" o = false -> roundTrips id = true ->
  Href.search (o +:+ "?collab=" +:+ id) = "?collab=" +:+ Href.encodeQuery id.
Proof.
  intros Hq Hf Hid.
  destruct (roundTrips_parts id Hid) as (_ & _ & _ & Hh & Ht & Hn & Hr & He).
  unfold Href.search.
  change (o +:+ "?collab=" +:+ id) with (o +:+ String "?" ("collab=" +:+ id)).
  rewrite trimLeading_app by reflexivity.
  set (o1 := Href.trimLeading o).
  assert (Hq1 : occurs "?" o1 = false) by now apply occurs_trimLeading.
  assert (Hf1 : occurs "#" o1 = false) by now apply occurs_trimLeading.
  rewrite trimTrailing_clean.
  2:{ rewrite endsClean_app. destruct id; [reflexivity | exact He]. }
  rewrite removeTabNewline_app.
  set (o2 := Href.removeTabNewline o1).
  assert (Hq2 : occurs "?" o2 = false) by now apply occurs_removeTabNewline.
  assert (Hf2 : occurs "#" o2 = false) by now apply occurs_removeTabNewline.
  change (String "?" ("collab=" +:+ id)) with ("?collab=" +:+ id).
  rewrite (removeTabNewline_app "?collab=" id).
  rewrite (removeTabNewline_free id Ht Hn Hr).
  change (Href.removeTabNewline "?collab=" +:+ id)
    with (String "?" ("collab=" +:+ id)).
  rewrite beforeFragment_free.
  2:{ rewrite occurs_append, Hf2.
      change (String "?" ("collab=" +:+ id)) with ("?collab=" +:+ id).
      now rewrite occurs_append, Hh. }
  rewrite (afterQuestion_app o2 _ Hq2). reflexivity.
Qed.

Lemma search_without_query href :
  occurs "?" href = false -> Href.search href = "".
Proof.
  intros H. unfold Href.search. rewrite afterQuestion_none; [reflexivity|].
  now apply occurs_beforeFragment, occurs_removeTabNewline,
            occurs_trimTrailing, occurs_trimLeading.
Qed.

Lemma new_collab_escaped id :
  roundTrips id = true ->
  URLSearchParams.new ("?collab=" +:+ Href.encodeQuery id) = [("collab", id)].
Proof.
  intros Hid.
  destruct (roundTrips_parts id Hid) as (Ha & Hp & Hc & _).
  change (URLSearchParams.new ("?collab=" +:+ Href.encodeQuery id))
    with (URLSearchParams.parse ("collab=" +:+ Href.encodeQuery id)).
  unfold URLSearchParams.parse. rewrite split_free.
  - change (flat_map _ ["collab=" +:+ Href.encodeQuery id])
      with [(URLSearchParams.decode "collab",
             URLSearchParams.decode (Href.encodeQuery id))].
    unfold URLSearchParams.decode at 2.
    now rewrite (encodeQuery_plus _ Hp), (encodeQuery_reads_back _ Hc).
  - rewrite occurs_append. now rewrite (encodeQuery_no_ampersand _ Ha).
Qed.

Lemma decimal_chars c z :
  occurs c (decimal z) = true -> occurs c "-0123456789" = true.
Proof.
  unfold decimal.
  assert (Hc : forall a rest,
            occurs a "-0123456789" = true ->
            (occurs c rest = true -> occurs c "-0123456789" = true) ->
            occurs c (String a rest) = true -> occurs c "-0123456789" = true).
  { intros a rest Ha Hrest H. cbn [occurs] in H.
    apply orb_true_iff in H as [H|H]; [|now apply Hrest].
    apply Ascii.eqb_eq in H. now subst. }
  assert (Hu : forall d, occurs c (NilEmpty.string_of_uint d) = true ->
                         occurs c "-0123456789" = true).
  { induction d; cbn [NilEmpty.string_of_uint];
      [discriminate | apply Hc; [reflexivity | exact IHd] ..]. }
  assert (Hz : forall d, occurs c (NilZero.string_of_uint d) = true ->
                         occurs c "-0123456789" = true).
  { intros d. unfold NilZero.string_of_uint. destruct d; try apply Hu.
    apply Hc; [reflexivity | discriminate]. }
  destruct (Z.to_int z) as [d|d]; cbn [NilZero.string_of_int]; [apply Hz|].
  apply Hc; [reflexivity | apply Hz].
Qed.

Lemma decimal_free c z :
  occurs c "-0123456789" = false -> occurs c (decimal z) = false.
Proof.
  intros H. destruct (occurs c (decimal z)) eqn:E; [|reflexivity].
  apply decimal_chars in E. congruence.
Qed.

Lemma endsClean_app_nonempty x y :
  y <> "" -> Href.endsClean (x +:+ y) = Href.endsClean y.
Proof. destruct y as [|c y]; [contradiction|]. intros _. apply endsClean_app. Qed.

Lemma allAscii_app x y : allAscii (x +:+ y) = allAscii x && allAscii y.
Proof.
  induction x as [|a x IH]; [reflexivity|].
  rewrite append_cons. cbn [allAscii]. rewrite IH. apply andb_assoc.
Qed.

Lemma allAscii_chars s :
  (forall c, occurs c s = true -> (N_of_ascii c <? 128)%N = true) ->
  allAscii s = true.
Proof.
  induction s as [|a s IH]; [reflexivity|].
  intros H. cbn [allAscii]. apply andb_true_iff. split.
  - apply H. cbn [occurs]. now rewrite Ascii.eqb_refl.
  - apply IH. intros c Hc. apply H. cbn [occurs]. rewrite Hc. apply orb_true_r.
Qed.

Lemma allAscii_decimal z : allAscii (decimal z) = true.
Proof.
  apply allAscii_chars. intros c Hc. apply decimal_chars in Hc.
  cbn [occurs] in Hc.
  repeat (apply orb_true_iff in Hc as [Hc|Hc];
          [apply Ascii.eqb_eq in Hc; subst c; reflexivity|]).
  discriminate.
Qed.

Lemma roundTrips_ascii id : roundTrips id = true -> allAscii id = true.
Proof. unfold roundTrips. intros H. now apply andb_true_iff in H as [_ H]. Qed.

Lemma generated_roundTrips rnd w :
  roundTrips rnd = true -> roundTrips (freshId rnd w) = true.
Proof.
  intros H.
  destruct (roundTrips_parts rnd H) as (H1 & H2 & H3 & H4 & H5 & H6 & H7 & H8).
  assert (Hasc : allAscii (freshId rnd w) = true).
  { unfold freshId. rewrite !allAscii_app, allAscii_decimal,
      (roundTrips_ascii rnd H). reflexivity. }
  assert (He : Href.endsClean (freshId rnd w) = true).
  { unfold freshId. change ("_" +:+ rnd) with (String "_" rnd).
    rewrite endsClean_app_nonempty.
    - rewrite endsClean_app. destruct rnd; [reflexivity | exact H8].
    - destruct (decimal (clock w)); discriminate. }
  unfold roundTrips. rewrite He, Hasc. unfold freshId.
  rewrite !occurs_append, !decimal_free, H1, H2, H3, H4, H5, H6, H7
    by reflexivity.
  reflexivity.
Qed.

(** C8 (as amended). [getCollaborationLinkUrl] returns the origin followed by
    [?collab=] and the id as it is. On the page reached through that
    address, [parseCollaborationLink] returns the id when the id is made of
    ASCII characters, has none of [&], [+], [%], [#], tab, line feed and
    carriage return and does not end in a control character or a space;
    every id made by [generateLinkId]
    from such a suffix is of that kind. An address without a question mark,
    and any address whose query string has no pair named [collab], gives
    the absent value. An origin has neither [?] nor [#]. *)
Theorem link_url_round_trip w id :
  let o := origin (location w) in
  getCollaborationLinkUrl id w = Returned (o +:+ "?collab=" +:+ id) w
  /\ (roundTrips id = true -> occurs "?" o = false -> occurs "#" o = false ->
      forall url,
        result (getCollaborationLinkUrl id w) = Some url ->
        let page := visit o url w in
        parseCollaborationLink page = Returned (Some id) page)
  /\ (forall rnd w0 gid,
        roundTrips rnd = true ->
        result (generateLinkId rnd w0) = Some gid ->
        roundTrips gid = true)
  /\ (forall o' href,
        occurs "?" href = false ->
        let page := visit o' href w in
        parseCollaborationLink page = Returned None page)
  /\ (forall o' href,
        (forall n v, (n, v) ∈ URLSearchParams.new (Href.search href) ->
                     n <> "collab") ->
        let page := visit o' href w in
        parseCollaborationLink page = Returned None page).
Proof.
  intros o. subst o.
  split; [reflexivity|]. split; [|split; [|split]].
  - intros Hid Hq Hf url Hurl page. subst page.
    injection Hurl as <-.
    unfold parseCollaborationLink, bind, window_location, ret, visit.
    cbn [location navigate search].
    rewrite (search_collab _ _ Hq Hf Hid), (new_collab_escaped _ Hid).
    reflexivity.
  - intros rnd w0 gid Hr Hg. injection Hg as <-.
    now apply generated_roundTrips.
  - intros o' href H page. subst page.
    unfold parseCollaborationLink, bind, window_location, ret, visit.
    cbn [location navigate search].
    now rewrite (search_without_query _ H).
  - intros o' href H page. subst page.
    unfold parseCollaborationLink, bind, window_location, ret, visit.
    cbn [location navigate search].
    now rewrite (get_absent _ _ H).
Qed.

Lemma link_url_round_trip_witness :
  let w := navigate (mkLocation "https://x" "") shared in
  getCollaborationLinkUrl "abc 123" w
  = Returned ("https://x" +:+ "?collab=" +:+ "abc 123") w
  /\ (let page := visit "https://x" "https://x?collab=abc 123" w in
      parseCollaborationLink page = Returned (Some "abc 123") page)
  /\ roundTrips (freshId "k3j9x0a1b" w) = true
  /\ (let page := visit "https://x" "https://x" w in
      parseCollaborationLink page = Returned None page).
Proof.
  destruct (link_url_round_trip
              (navigate (mkLocation "https://x" "") shared) "abc 123")
    as (H1 & H2 & H3 & H4 & _).
  split; [exact H1|]. split; [|split].
  - apply H2; reflexivity.
  - apply (H3 "k3j9x0a1b" (navigate (mkLocation "https://x" "") shared));
      reflexivity.
  - apply H4. reflexivity.
Defined.

(** C8, as stated, fails for an id with an ampersand: the address is built
    with the id as it is, and the page reached through it reads back the
    part of the id before the ampersand. *)
Lemma link_url_cuts_id_at_ampersand :
  let w := navigate (mkLocation "https://x" "") shared in
  result (getCollaborationLinkUrl "a&b" w) = Some "https://x?collab=a&b"
  /\ result (parseCollaborationLink
               (visit "https://x" "https://x?collab=a&b" w))
     = Some (Some "a")
  /\ Some "a" <> Some "a&b".
Proof.
  split; [vm_compute; reflexivity|].
  split; [vm_compute; reflexivity|].
  discriminate.
Qed.

(** * Creating links *)

Lemma getOwnerLinks_result w user :
  result (getOwnerLinks user w) = stored_strings (localStorage w) (ownerKey user).
Proof.
  unfold getOwnerLinks, stored_strings, bind, getItem.
  destruct (localStorage w !! ownerKey user) as [[]|]; reflexivity.
Qed.

Lemma getUserCollaborations_result w user :
  result (getUserCollaborations user w)
  = stored_strings (localStorage w) (accessKey user).
Proof.
  unfold getUserCollaborations, stored_strings, bind, getItem.
  destruct (localStorage w !! accessKey user) as [[]|]; reflexivity.
Qed.

Lemma created_link rnd sid title owner ids w :
  localStorage (created rnd sid title owner ids w) !! linkKey (freshId rnd w)
  = Some (JLink (mkLink (freshId rnd w) sid title owner (clock w) None)).
Proof.
  unfold created. simpl. rewrite lookup_insert_ne by distinct_keys.
  apply lookup_insert_eq.
Qed.

Lemma created_owner rnd sid title owner ids w :
  stored_strings (localStorage (created rnd sid title owner ids w))
                 (ownerKey owner)
  = Some (ids ++ [freshId rnd w]).
Proof. unfold created. simpl. apply stored_strings_insert. Qed.

Lemma created_frame rnd sid title owner ids w k :
  k <> linkKey (freshId rnd w) -> k <> ownerKey owner ->
  localStorage (created rnd sid title owner ids w) !! k = localStorage w !! k.
Proof.
  intros H1 H2. unfold created. simpl.
  rewrite lookup_insert_ne by congruence. now rewrite lookup_insert_ne by congruence.
Qed.

Lemma created_consistent rnd sid title owner ids w :
  consistent (localStorage w) ->
  consistent (localStorage (created rnd sid title owner ids w)).
Proof.
  intros H. unfold created. simpl.
  now apply consistent_insert_owner, consistent_insert_link.
Qed.

(** X1. The link that [createCollaborationLink] returns is the one stored:
    its id is the generated one, it resolves to itself right away, it carries
    the arguments and the time of the call and no expiry, and its id is the
    last entry of the owner's index, after the ids that were there. *)
Theorem created_link_resolves w rnd sid title owner ids :
  stored_strings (localStorage w) (ownerKey owner) = Some ids ->
  exists link w',
    createCollaborationLink rnd sid title owner w = Returned link w'
    /\ result (generateLinkId rnd w) = Some (linkId link)
    /\ getCollaborationLink (linkId link) w' = Returned (Some link) w'
    /\ link = mkLink (linkId link) sid title owner (clock w) None
    /\ getOwnerLinks owner w' = Returned (ids ++ [linkId link]) w'.
Proof.
  intros H.
  exists (mkLink (freshId rnd w) sid title owner (clock w) None),
         (created rnd sid title owner ids w).
  split; [now apply createCollaborationLink_runs|].
  split; [reflexivity|]. split.
  - apply getCollaborationLink_stored. apply created_link.
  - split; [reflexivity|].
    apply getOwnerLinks_reads. apply created_owner.
Qed.

Lemma created_link_resolves_witness :
  exists link w',
    createCollaborationLink "k3j9x0a1b" "Plan" "Plan 2025" "a@x.com"
      (at_time 1700000005000 shared) = Returned link w'
    /\ result (generateLinkId "k3j9x0a1b" (at_time 1700000005000 shared))
       = Some (linkId link)
    /\ getCollaborationLink (linkId link) w' = Returned (Some link) w'
    /\ link = mkLink (linkId link) "Plan" "Plan 2025" "a@x.com"
                     1700000005000 None
    /\ getOwnerLinks "a@x.com" w' = Returned ([budgetLink] ++ [linkId link]) w'.
Proof.
  apply (created_link_resolves (at_time 1700000005000 shared) "k3j9x0a1b"
           "Plan" "Plan 2025" "a@x.com" [budgetLink]).
  vm_compute. reflexivity.
Defined.

(** X2. After [createCollaborationLink] the creator owns the spreadsheet.
    The owner index of every other user reads as before, and when no link
    was stored under the new id, whoever owned a spreadsheet still owns
    it. *)
Theorem creator_becomes_owner w rnd sid title owner :
  consistent (localStorage w) ->
  let w' := after (createCollaborationLink rnd sid title owner w) w in
  isSpreadsheetOwner sid owner w' = Returned true w'
  /\ (forall other, other <> owner ->
        result (getOwnerLinks other w') = result (getOwnerLinks other w))
  /\ (localStorage w !! linkKey (freshId rnd w) = None ->
      forall sid' user,
        isSpreadsheetOwner sid' user w = Returned true w ->
        isSpreadsheetOwner sid' user w' = Returned true w').
Proof.
  intros Hc w'. subst w'.
  destruct (owners_typed _ Hc owner) as [ids Hids].
  rewrite (createCollaborationLink_runs _ _ _ _ _ _ Hids). cbn [after].
  set (w' := created rnd sid title owner ids w).
  assert (Hc' : consistent (localStorage w')) by now apply created_consistent.
  split; [|split].
  - rewrite (isSpreadsheetOwner_runs w' sid owner (ids ++ [freshId rnd w]) Hc')
      by apply created_owner.
    f_equal. rewrite owns_app. apply orb_true_iff. right.
    apply owns_true. eexists _, _.
    split; [apply list_elem_of_here|]. split; [apply created_link|reflexivity].
  - intros other Hne. rewrite !getOwnerLinks_result. unfold w', created. simpl.
    rewrite stored_strings_insert_ne.
    + now rewrite stored_strings_insert_ne by distinct_keys.
    + intros E. apply ownerKey_inj in E. congruence.
  - intros Hnew sid' user Hown.
    destruct (owners_typed _ Hc user) as [ids_u Hu].
    rewrite (isSpreadsheetOwner_runs _ _ _ _ Hc Hu) in Hown.
    injection Hown as Hown.
    apply owns_true in Hown as (id' & l & Hin & Hl & Hs).
    assert (Hne : id' <> freshId rnd w) by (intros ->; congruence).
    assert (Hl' : localStorage w' !! linkKey id' = Some (JLink l)).
    { unfold w'. rewrite created_frame; [exact Hl| |distinct_keys].
      intros E. apply linkKey_inj in E. contradiction. }
    destruct (decide (user = owner)) as [->|Hother].
    + rewrite (isSpreadsheetOwner_runs w' sid' owner (ids ++ [freshId rnd w]) Hc')
        by apply created_owner.
      f_equal. apply owns_true. exists id', l.
      rewrite Hids in Hu. injection Hu as <-.
      split; [apply elem_of_app; now left|]. now split.
    + assert (Hu' : stored_strings (localStorage w') (ownerKey user) = Some ids_u).
      { unfold w', created. simpl. rewrite stored_strings_insert_ne.
        - now rewrite stored_strings_insert_ne by distinct_keys.
        - intros E. apply ownerKey_inj in E. congruence. }
      rewrite (isSpreadsheetOwner_runs w' sid' user ids_u Hc' Hu').
      f_equal. apply owns_true. now exists id', l.
Qed.

Lemma shared_consistent : consistent (localStorage shared).
Proof.
  destruct (run_consistent
              [(1700000000000,
                CreateLink "k3j9x0a1b" "Budget2024" "Budget" "a@x.com")]
              emptyWorld consistent_empty) as (w & Hrun & Hw).
  vm_compute in Hrun. injection Hrun as <-. exact Hw.
Qed.

Lemma bobJoined_consistent : consistent (localStorage bobJoined).
Proof.
  destruct (run_consistent
              [(1700000000000,
                CreateLink "k3j9x0a1b" "Budget2024" "Budget" "a@x.com");
               (1700000001000, Join budgetLink "b@x.com" "Bob")]
              emptyWorld consistent_empty) as (w & Hrun & Hw).
  vm_compute in Hrun. injection Hrun as <-. exact Hw.
Qed.

Lemma creator_becomes_owner_witness :
  let w := at_time 1700000005000 shared in
  let w' := after (createCollaborationLink "zzz" "Plan" "Plan 2025" "c@x.com" w)
                  w in
  isSpreadsheetOwner "Plan" "c@x.com" w' = Returned true w'
  /\ (forall other, other <> "c@x.com" ->
        result (getOwnerLinks other w') = result (getOwnerLinks other w))
  /\ (localStorage w !! linkKey (freshId "zzz" w) = None ->
      forall sid' user,
        isSpreadsheetOwner sid' user w = Returned true w ->
        isSpreadsheetOwner sid' user w' = Returned true w').
Proof.
  apply (creator_becomes_owner (at_time 1700000005000 shared) "zzz" "Plan"
           "Plan 2025" "c@x.com").
  exact shared_consistent.
Defined.

(** X3. [createCollaborationLink] writes the link record and the owner's
    index and nothing else: every other key of the store, hence every roster
    and every access index, reads as before, and nothing is dispatched. *)
Theorem create_writes_link_and_index w rnd sid title owner ids :
  stored_strings (localStorage w) (ownerKey owner) = Some ids ->
  let w' := after (createCollaborationLink rnd sid title owner w) w in
  (forall k, k <> linkKey (freshId rnd w) -> k <> ownerKey owner ->
             localStorage w' !! k = localStorage w !! k)
  /\ (forall sid' t, roster sid' t w' = roster sid' t w)
  /\ (forall user, result (getUserCollaborations user w')
                   = result (getUserCollaborations user w))
  /\ dispatched w' = dispatched w
  /\ clock w' = clock w /\ location w' = location w.
Proof.
  intros H w'. subst w'.
  rewrite (createCollaborationLink_runs _ _ _ _ _ _ H). cbn [after].
  split; [intros k; apply created_frame|].
  split; [|split; [|repeat split]].
  - intros sid' t. rewrite !roster_stored. f_equal. unfold stored_roster.
    now rewrite created_frame by distinct_keys.
  - intros user. rewrite !getUserCollaborations_result. unfold stored_strings.
    now rewrite created_frame by distinct_keys.
Qed.

Lemma create_writes_link_and_index_witness :
  let w := at_time 1700000005000 bobJoined in
  let w' := after (createCollaborationLink "zzz" "Plan" "Plan 2025" "a@x.com" w)
                  w in
  (forall k, k <> linkKey (freshId "zzz" w) -> k <> ownerKey "a@x.com" ->
             localStorage w' !! k = localStorage w !! k)
  /\ (forall sid' t, roster sid' t w' = roster sid' t w)
  /\ (forall user, result (getUserCollaborations user w')
                   = result (getUserCollaborations user w))
  /\ dispatched w' = dispatched w
  /\ clock w' = clock w /\ location w' = location w.
Proof.
  apply (create_writes_link_and_index (at_time 1700000005000 bobJoined) "zzz"
           "Plan" "Plan 2025" "a@x.com" [budgetLink]).
  vm_compute. reflexivity.
Defined.

(** ** Generated ids *)

Lemma decimal_no_underscore z : occurs "_" (decimal z) = false.
Proof.
  unfold decimal.
  assert (Hu : forall d, occurs "_" (NilEmpty.string_of_uint d) = false).
  { induction d; simpl; rewrite ?IHd; reflexivity. }
  assert (Hz : forall d, occurs "_" (NilZero.string_of_uint d) = false).
  { intros d. unfold NilZero.string_of_uint. destruct d; try apply Hu.
    reflexivity. }
  destruct (Z.to_int z) as [d|d]; simpl; [apply Hz | now rewrite Hz].
Qed.

Lemma decimal_inj z z' : decimal z = decimal z' -> z = z'.
Proof.
  unfold decimal. intros H. apply DecimalZ.to_int_inj.
  assert (Hn : forall x, Z.to_int x <> Decimal.Pos Decimal.Nil
                         /\ Z.to_int x <> Decimal.Neg Decimal.Nil).
  { intros [|p|p]; simpl; split; try discriminate; intros E;
      injection E as E; now apply DecimalPos.Unsigned.to_uint_nonnil in E. }
  destruct (Hn z) as [Hp Hm]. destruct (Hn z') as [Hp' Hm'].
  pose proof (NilZero.isi _ Hp Hm) as E.
  pose proof (NilZero.isi _ Hp' Hm') as E'.
  rewrite H in E. congruence.
Qed.

Lemma cut_at_first c a a' b b' :
  occurs c a = false -> occurs c a' = false ->
  a +:+ String c b = a' +:+ String c b' -> a = a' /\ b = b'.
Proof.
  revert a'. induction a as [|x a IH]; intros [|x' a'] Ha Ha' E.
  - injection E as ->. now split.
  - change (String c b = String x' (a' +:+ String c b')) in E.
    injection E as -> _. simpl in Ha'. now rewrite Ascii.eqb_refl in Ha'.
  - change (String x (a +:+ String c b) = String c b') in E.
    injection E as -> _. simpl in Ha. now rewrite Ascii.eqb_refl in Ha.
  - change (String x (a +:+ String c b) = String x' (a' +:+ String c b')) in E.
    injection E as -> E. simpl in Ha, Ha'.
    apply orb_false_iff in Ha as [_ Ha]. apply orb_false_iff in Ha' as [_ Ha'].
    destruct (IH a' Ha Ha' E) as [-> ->]. now split.
Qed.

Lemma freshId_inj rnd rnd' w w' :
  freshId rnd w = freshId rnd' w' -> clock w = clock w' /\ rnd = rnd'.
Proof.
  unfold freshId. intros E.
  apply (inj (String.append "collab_")) in E.
  change ("_" +:+ rnd) with (String "_" rnd) in E.
  change ("_" +:+ rnd') with (String "_" rnd') in E.
  apply cut_at_first in E as [Ed Er]; try apply decimal_no_underscore.
  split; [now apply decimal_inj | exact Er].
Qed.

(** X4. [generateLinkId] gives the same id twice only at the same reading
    of the clock with the same random suffix: ids made at different
    instants, or with different suffixes, differ. *)
Theorem generated_ids_differ w w' rnd rnd' :
  result (generateLinkId rnd w) = result (generateLinkId rnd' w')
  <-> clock w = clock w' /\ rnd = rnd'.
Proof.
  change (Some (freshId rnd w) = Some (freshId rnd' w')
          <-> clock w = clock w' /\ rnd = rnd').
  split.
  - intros E. apply freshId_inj. congruence.
  - intros [Ec ->]. unfold freshId. now rewrite Ec.
Qed.

Lemma generated_ids_differ_witness :
  result (generateLinkId "k3j9x0a1b" (at_time 1700000000000 emptyWorld))
  = result (generateLinkId "k3j9x0a1b" (at_time 1700000000000 shared))
  <-> clock (at_time 1700000000000 emptyWorld)
      = clock (at_time 1700000000000 shared)
      /\ "k3j9x0a1b" = "k3j9x0a1b".
Proof.
  apply (generated_ids_differ (at_time 1700000000000 emptyWorld)
           (at_time 1700000000000 shared) "k3j9x0a1b" "k3j9x0a1b").
Defined.

(** X5. Ids are not checked against the store. Two calls of
    [createCollaborationLink] at the same reading of the clock with the same
    suffix return links with one id; the record of the second replaces the
    record of the first, so the id resolves to the second link, and the
    owner index of the second creator ends with that id. *)
Theorem create_with_same_id_replaces_link
    w rnd sid1 title1 owner1 sid2 title2 owner2 :
  consistent (localStorage w) ->
  let call1 := createCollaborationLink rnd sid1 title1 owner1 w in
  let w1 := after call1 w in
  let call2 := createCollaborationLink rnd sid2 title2 owner2 w1 in
  let w2 := after call2 w1 in
  exists l1 l2 ids,
    result call1 = Some l1 /\ result call2 = Some l2
    /\ linkId l1 = linkId l2
    /\ spreadsheetId l1 = sid1 /\ spreadsheetId l2 = sid2
    /\ getCollaborationLink (linkId l1) w1 = Returned (Some l1) w1
    /\ getCollaborationLink (linkId l1) w2 = Returned (Some l2) w2
    /\ getOwnerLinks owner2 w1 = Returned ids w1
    /\ getOwnerLinks owner2 w2 = Returned (ids ++ [linkId l1]) w2.
Proof.
  intros Hc call1 w1 call2 w2. subst w2 call2 w1 call1.
  destruct (owners_typed _ Hc owner1) as [ids1 H1].
  rewrite (createCollaborationLink_runs _ _ _ _ _ _ H1). cbn [after result].
  set (w1 := created rnd sid1 title1 owner1 ids1 w).
  assert (Hc1 : consistent (localStorage w1)) by now apply created_consistent.
  destruct (owners_typed _ Hc1 owner2) as [ids2 H2].
  rewrite (createCollaborationLink_runs _ _ _ _ _ _ H2). cbn [after result].
  eexists _, _, ids2.
  split; [reflexivity|]. split; [reflexivity|].
  split; [reflexivity|]. split; [reflexivity|]. split; [reflexivity|].
  split; [apply getCollaborationLink_stored, created_link|].
  split; [apply getCollaborationLink_stored;
          exact (created_link rnd sid2 title2 owner2 ids2 w1)|].
  split; [now apply getOwnerLinks_reads|].
  apply getOwnerLinks_reads.
  exact (created_owner rnd sid2 title2 owner2 ids2 w1).
Qed.

Lemma create_with_same_id_replaces_link_witness :
  let w := at_time 1700000000000 shared in
  let call1 := createCollaborationLink "zzz" "Plan" "Plan 2025" "a@x.com" w in
  let w1 := after call1 w in
  let call2 := createCollaborationLink "zzz" "Notes" "Notes" "a@x.com" w1 in
  let w2 := after call2 w1 in
  exists l1 l2 ids,
    result call1 = Some l1 /\ result call2 = Some l2
    /\ linkId l1 = linkId l2
    /\ spreadsheetId l1 = "Plan" /\ spreadsheetId l2 = "Notes"
    /\ getCollaborationLink (linkId l1) w1 = Returned (Some l1) w1
    /\ getCollaborationLink (linkId l1) w2 = Returned (Some l2) w2
    /\ getOwnerLinks "a@x.com" w1 = Returned ids w1
    /\ getOwnerLinks "a@x.com" w2 = Returned (ids ++ [linkId l1]) w2.
Proof.
  apply (create_with_same_id_replaces_link (at_time 1700000000000 shared)
           "zzz" "Plan" "Plan 2025" "a@x.com" "Notes" "Notes" "a@x.com").
  exact shared_consistent.
Defined.

(** * Heartbeats *)

Lemma findIndex_existsb {A} (p : A -> bool) (l : list A) :
  (0 <=? findIndex p l) = existsb p l.
Proof.
  induction l as [|x l IH]; [reflexivity|].
  rewrite findIndex_cons. simpl. destruct (p x); [reflexivity|]. simpl.
  rewrite <- IH. destruct (Z.leb_spec 0 (findIndex p l)) as [H|H].
  - apply Z.leb_le. lia.
  - reflexivity.
Qed.

Lemma existsb_absent user cs :
  user ∉ map email cs -> existsb (hasEmail user) cs = false.
Proof.
  intros H. destruct (existsb (hasEmail user) cs) eqn:E; [|reflexivity].
  apply existsb_hasEmail in E. contradiction.
Qed.

Lemma beaten_present sid user nm cs w :
  existsb (hasEmail user) cs = true ->
  beaten sid user cs w =
    mkWorld
      (<[rosterKey sid :=
           JRoster (upsert (clock w) user nm (map (withLiveness (clock w)) cs))]>
         (localStorage w))
      (clock w) (location w) (dispatched w).
Proof.
  intros H. unfold beaten, upsert. rewrite findIndex_existsb.
  assert (E : existsb (hasEmail user) (map (withLiveness (clock w)) cs) = true).
  { apply existsb_hasEmail. rewrite map_email_withLiveness.
    now apply existsb_hasEmail. }
  now rewrite E.
Qed.

Lemma beaten_absent sid user cs w :
  existsb (hasEmail user) cs = false -> beaten sid user cs w = w.
Proof.
  intros H. unfold beaten. rewrite findIndex_existsb.
  assert (E : existsb (hasEmail user) (map (withLiveness (clock w)) cs) = false).
  { destruct (existsb _ (map _ cs)) eqn:E; [|reflexivity].
    apply existsb_hasEmail in E. rewrite map_email_withLiveness in E.
    apply existsb_hasEmail in E. congruence. }
  now rewrite E.
Qed.

Lemma upsert_others t user nm cs :
  List.filter (others user) (upsert t user nm cs)
  = List.filter (others user) cs.
Proof.
  induction cs as [|c cs IH].
  - simpl. unfold others, hasEmail. simpl. now rewrite String.eqb_refl.
  - rewrite upsert_cons. destruct (hasEmail user c) eqn:E.
    + simpl. change (others user (refreshed t c)) with (others user c).
      assert (Eo : others user c = false) by (unfold others; now rewrite E).
      now rewrite Eo.
    + simpl. now rewrite IH.
Qed.

Lemma upsert_names t user nm cs :
  existsb (hasEmail user) cs = true ->
  map name (upsert t user nm cs) = map name cs
  /\ map joinedAt (upsert t user nm cs) = map joinedAt cs.
Proof.
  induction cs as [|c cs IH]; [discriminate|].
  rewrite upsert_cons. simpl.
  destruct (hasEmail user c); simpl; [now split|].
  intros H. destruct (IH H) as [-> ->]. now split.
Qed.

Lemma map_name_withLiveness t cs :
  map name (map (withLiveness t) cs) = map name cs.
Proof. rewrite map_map. reflexivity. Qed.

Lemma map_joinedAt_withLiveness t cs :
  map joinedAt (map (withLiveness t) cs) = map joinedAt cs.
Proof. rewrite map_map. reflexivity. Qed.

(** X6. A heartbeat for an email that is not on the roster writes nothing:
    [updateCollaboratorActivity] returns in the world it was called in. *)
Theorem heartbeat_of_unknown_user_changes_nothing w sid user cs :
  stored_roster (localStorage w) sid = Some cs ->
  user ∉ map email cs ->
  updateCollaboratorActivity sid user w = Returned tt w.
Proof.
  intros Hr Hn. rewrite (updateCollaboratorActivity_runs _ _ _ _ Hr).
  f_equal. apply beaten_absent. now apply existsb_absent.
Qed.

Lemma heartbeat_of_unknown_user_changes_nothing_witness :
  updateCollaboratorActivity "Budget2024" "c@x.com"
    (at_time 1700000060000 bobJoined)
  = Returned tt (at_time 1700000060000 bobJoined).
Proof.
  apply (heartbeat_of_unknown_user_changes_nothing
           (at_time 1700000060000 bobJoined) "Budget2024" "c@x.com"
           [mkCollaborator "b@x.com" "Bob" 1700000001000 1700000001000 true]).
  - vm_compute. reflexivity.
  - vm_compute. intros H. apply list_elem_of_singleton in H. discriminate H.
Defined.

(** X7. A heartbeat for a user on the roster sets that record's
    [lastActive] to the time of the call and its flag to [true], keeping its
    name and [joinedAt]; the records of the others are written back as read,
    in their order. Every read made less than five minutes later shows the
    user active. *)
Theorem heartbeat_refreshes_the_user w sid user cs c0 :
  stored_roster (localStorage w) sid = Some cs ->
  NoDup (map email cs) ->
  c0 ∈ cs -> email c0 = user ->
  let w' := after (updateCollaboratorActivity sid user w) w in
  exists rs,
    stored_roster (localStorage w') sid = Some rs
    /\ List.filter (hasEmail user) rs
       = [mkCollaborator user (name c0) (joinedAt c0) (clock w) true]
    /\ List.filter (others user) rs
       = map (withLiveness (clock w)) (List.filter (others user) cs)
    /\ map email rs = map email cs
    /\ forall t, t - clock w < fiveMinutes ->
         exists rt c,
           roster sid t w' = Some rt
           /\ List.filter (hasEmail user) rt = [c] /\ isActive c = true.
Proof.
  intros Hr Hnd Hin He w'. subst w'.
  rewrite (updateCollaboratorActivity_runs _ _ _ _ Hr). cbn [after].
  assert (Hex : existsb (hasEmail user) cs = true).
  { apply existsb_hasEmail, list_elem_of_fmap. now exists c0. }
  rewrite (beaten_present sid user user cs w Hex).
  set (rs := upsert (clock w) user user (map (withLiveness (clock w)) cs)).
  pose proof (only_record user cs c0 Hnd Hin He) as Hf.
  assert (Hfu : List.filter (hasEmail user) rs
                = [mkCollaborator user (name c0) (joinedAt c0) (clock w) true]).
  { unfold rs. rewrite upsert_entry.
    rewrite (filter_map_same _ _ _ (hasEmail_withLiveness user (clock w))), Hf.
    simpl. unfold refreshed. simpl. now rewrite He. }
  exists rs. cbn [localStorage].
  split; [apply stored_roster_insert|]. split; [exact Hfu|]. split; [|split].
  - unfold rs. rewrite upsert_others.
    apply (filter_map_same _ _ _ (others_withLiveness user (clock w))).
  - unfold rs. rewrite upsert_emails, map_email_withLiveness.
    assert (E : existsb (hasEmail user) (map (withLiveness (clock w)) cs) = true).
    { apply existsb_hasEmail. rewrite map_email_withLiveness.
      now apply existsb_hasEmail. }
    now rewrite E.
  - intros t Ht. eexists _, _. split.
    + apply roster_reads. cbn [localStorage]. apply stored_roster_insert.
    + rewrite (filter_map_same _ _ _ (hasEmail_withLiveness user t)), Hfu.
      split; [reflexivity|]. simpl. apply Z.ltb_lt. exact Ht.
Qed.

Lemma heartbeat_refreshes_the_user_witness :
  let w := at_time 1700000400000 bobJoined in
  let w' := after (updateCollaboratorActivity "Budget2024" "b@x.com" w) w in
  exists rs,
    stored_roster (localStorage w') "Budget2024" = Some rs
    /\ List.filter (hasEmail "b@x.com") rs
       = [mkCollaborator "b@x.com" "Bob" 1700000001000 1700000400000 true]
    /\ List.filter (others "b@x.com") rs
       = map (withLiveness 1700000400000)
           (List.filter (others "b@x.com")
              [mkCollaborator "b@x.com" "Bob" 1700000001000 1700000001000 true])
    /\ map email rs
       = map email
           [mkCollaborator "b@x.com" "Bob" 1700000001000 1700000001000 true]
    /\ forall t, t - 1700000400000 < fiveMinutes ->
         exists rt c,
           roster "Budget2024" t w' = Some rt
           /\ List.filter (hasEmail "b@x.com") rt = [c] /\ isActive c = true.
Proof.
  apply (heartbeat_refreshes_the_user (at_time 1700000400000 bobJoined)
           "Budget2024" "b@x.com"
           [mkCollaborator "b@x.com" "Bob" 1700000001000 1700000001000 true]
           (mkCollaborator "b@x.com" "Bob" 1700000001000 1700000001000 true)).
  - vm_compute. reflexivity.
  - apply NoDup_singleton.
  - apply list_elem_of_here.
  - reflexivity.
Defined.

(** X8. A heartbeat never changes who is on the roster: whoever it is for,
    the roster read afterwards has the emails, names and [joinedAt] of the
    stored one, in the same order. It writes no key but the roster's and
    dispatches nothing. *)
Theorem heartbeat_keeps_membership w sid user cs :
  stored_roster (localStorage w) sid = Some cs ->
  let w' := after (updateCollaboratorActivity sid user w) w in
  result (updateCollaboratorActivity sid user w) = Some tt
  /\ (forall t, exists rt,
        roster sid t w' = Some rt
        /\ map email rt = map email cs
        /\ map name rt = map name cs
        /\ map joinedAt rt = map joinedAt cs)
  /\ (forall k, k <> rosterKey sid ->
                localStorage w' !! k = localStorage w !! k)
  /\ dispatched w' = dispatched w.
Proof.
  intros Hr w'. subst w'.
  rewrite (updateCollaboratorActivity_runs _ _ _ _ Hr). cbn [after result].
  split; [reflexivity|].
  destruct (existsb (hasEmail user) cs) eqn:Hex.
  - rewrite (beaten_present sid user user cs w Hex). cbn [localStorage dispatched].
    split; [|split; [|reflexivity]].
    + intros t. eexists. split.
      * apply roster_reads. cbn [localStorage]. apply stored_roster_insert.
      * assert (E : existsb (hasEmail user)
                      (map (withLiveness (clock w)) cs) = true).
        { apply existsb_hasEmail. rewrite map_email_withLiveness.
          now apply existsb_hasEmail. }
        destruct (upsert_names (clock w) user user _ E) as [Hn Hj].
        split; [|split].
        -- rewrite map_email_withLiveness, upsert_emails, E.
           apply map_email_withLiveness.
        -- rewrite map_name_withLiveness, Hn. apply map_name_withLiveness.
        -- rewrite map_joinedAt_withLiveness, Hj.
           apply map_joinedAt_withLiveness.
    + intros k Hk. apply lookup_insert_ne. congruence.
  - rewrite (beaten_absent sid user cs w Hex).
    split; [|split; [|reflexivity]].
    + intros t. eexists. split; [apply roster_reads, Hr|].
      split; [apply map_email_withLiveness|].
      split; [apply map_name_withLiveness | apply map_joinedAt_withLiveness].
    + reflexivity.
Qed.

Lemma heartbeat_keeps_membership_witness :
  let w := at_time 1700000400000 bobJoined in
  let cs := [mkCollaborator "b@x.com" "Bob" 1700000001000 1700000001000 true] in
  let w' := after (updateCollaboratorActivity "Budget2024" "b@x.com" w) w in
  result (updateCollaboratorActivity "Budget2024" "b@x.com" w) = Some tt
  /\ (forall t, exists rt,
        roster "Budget2024" t w' = Some rt
        /\ map email rt = map email cs
        /\ map name rt = map name cs
        /\ map joinedAt rt = map joinedAt cs)
  /\ (forall k, k <> rosterKey "Budget2024" ->
                localStorage w' !! k = localStorage w !! k)
  /\ dispatched w' = dispatched w.
Proof.
  apply (heartbeat_keeps_membership (at_time 1700000400000 bobJoined)
           "Budget2024" "b@x.com"
           [mkCollaborator "b@x.com" "Bob" 1700000001000 1700000001000 true]).
  vm_compute. reflexivity.
Defined.

(** * More on joins *)

Lemma upsert_absent t user nm cs :
  existsb (hasEmail user) cs = false ->
  upsert t user nm cs = cs ++ [mkCollaborator user nm t t true].
Proof. intros H. unfold upsert. now rewrite findIndex_existsb, H. Qed.

Lemma includes_true l s : includes l s = true <-> s ∈ l.
Proof.
  unfold includes. rewrite existsb_exists, list_elem_of_In. split.
  - intros (x & Hin & E). apply String.eqb_eq in E. now subst.
  - intros Hin. exists s. split; [exact Hin | apply String.eqb_refl].
Qed.

Lemma upsert_Forall (P : ActiveCollaborator -> Prop) t user nm cs :
  Forall P cs ->
  (forall c, P (refreshed t c)) ->
  P (mkCollaborator user nm t t true) ->
  Forall P (upsert t user nm cs).
Proof.
  intros Hcs Hr Hn. induction cs as [|c cs IH].
  - simpl. now constructor.
  - rewrite upsert_cons. apply Forall_cons in Hcs as [Hc Hcs].
    destruct (hasEmail user c); constructor; auto.
Qed.

(** X9. A join keeps the order of the roster. A user who was not on it is
    appended at the end, under the name passed to the call and active; a
    user who was on it keeps the position, and the roster its length. The
    records of the others are written back as read, in their order. *)
Theorem join_keeps_roster_order w id user nm link cs acc :
  localStorage w !! linkKey id = Some (JLink link) ->
  stored_roster (localStorage w) (spreadsheetId link) = Some cs ->
  stored_strings (localStorage w) (accessKey user) = Some acc ->
  let w' := after (addCollaborator id user nm w) w in
  exists rs,
    stored_roster (localStorage w') (spreadsheetId link) = Some rs
    /\ (user ∉ map email cs ->
        exists c,
          rs = map (withLiveness (clock w)) cs ++ [c]
          /\ email c = user /\ name c = nm /\ isActive c = true)
    /\ (user ∈ map email cs ->
        map email rs = map email cs /\ length rs = length cs)
    /\ List.filter (others user) rs
       = map (withLiveness (clock w)) (List.filter (others user) cs).
Proof.
  intros Hl Hr Ha w'. subst w'.
  rewrite (addCollaborator_found _ _ _ _ _ _ _ Hl Hr Ha). cbn [after].
  eexists. split; [apply (stored_roster_joined id)|].
  split; [|split].
  - intros Hn. eexists. split.
    + apply upsert_absent, existsb_absent.
      now rewrite map_email_withLiveness.
    + now repeat split.
  - intros Hin.
    assert (E : existsb (hasEmail user) (map (withLiveness (clock w)) cs) = true).
    { apply existsb_hasEmail. now rewrite map_email_withLiveness. }
    split.
    + rewrite upsert_emails, E. apply map_email_withLiveness.
    + rewrite upsert_length, E. apply length_map.
  - rewrite upsert_others.
    apply (filter_map_same _ _ _ (others_withLiveness user (clock w))).
Qed.

Lemma join_keeps_roster_order_witness :
  let w := at_time 1700000060000 bobJoined in
  let cs := [mkCollaborator "b@x.com" "Bob" 1700000001000 1700000001000 true] in
  let w' := after (addCollaborator budgetLink "c@x.com" "Cy" w) w in
  exists rs,
    stored_roster (localStorage w') "Budget2024" = Some rs
    /\ ("c@x.com" ∉ map email cs ->
        exists c,
          rs = map (withLiveness 1700000060000) cs ++ [c]
          /\ email c = "c@x.com" /\ name c = "Cy" /\ isActive c = true)
    /\ ("c@x.com" ∈ map email cs ->
        map email rs = map email cs /\ length rs = length cs)
    /\ List.filter (others "c@x.com") rs
       = map (withLiveness 1700000060000) (List.filter (others "c@x.com") cs).
Proof.
  apply (join_keeps_roster_order (at_time 1700000060000 bobJoined) budgetLink
           "c@x.com" "Cy"
           (mkLink budgetLink "Budget2024" "Budget" "a@x.com" 1700000000000 None)
           [mkCollaborator "b@x.com" "Bob" 1700000001000 1700000001000 true]
           []).
  - vm_compute. reflexivity.
  - vm_compute. reflexivity.
  - vm_compute. reflexivity.
Defined.

(** X10. Every join through a stored link, a repeated one included, hands
    one more activity to [trackActivity]: for the owner recorded in the
    link, of kind [collaboration_joined], without a related id, saying the
    name passed to the call and the title recorded in the link. The
    activities dispatched before stay. *)
Theorem every_join_notifies_the_owner w id user nm link cs acc :
  localStorage w !! linkKey id = Some (JLink link) ->
  stored_roster (localStorage w) (spreadsheetId link) = Some cs ->
  stored_strings (localStorage w) (accessKey user) = Some acc ->
  dispatched (after (addCollaborator id user nm w) w)
  = dispatched w
    ++ [mkActivity (ownerEmail link) "collaboration_joined" None
          (nm +:+ " joined " +:+ quote +:+ spreadsheetTitle link +:+ quote)].
Proof.
  intros Hl Hr Ha.
  now rewrite (addCollaborator_found _ _ _ _ _ _ _ Hl Hr Ha).
Qed.

Lemma every_join_notifies_the_owner_witness :
  dispatched (after (addCollaborator budgetLink "b@x.com" "Robert"
                       (at_time 1700000060000 bobJoined))
                    (at_time 1700000060000 bobJoined))
  = dispatched (at_time 1700000060000 bobJoined)
    ++ [mkActivity "a@x.com" "collaboration_joined" None
          ("Robert" +:+ " joined " +:+ quote +:+ "Budget" +:+ quote)].
Proof.
  apply (every_join_notifies_the_owner (at_time 1700000060000 bobJoined)
           budgetLink "b@x.com" "Robert"
           (mkLink budgetLink "Budget2024" "Budget" "a@x.com" 1700000000000 None)
           [mkCollaborator "b@x.com" "Bob" 1700000001000 1700000001000 true]
           ["Budget2024"]).
  - vm_compute. reflexivity.
  - vm_compute. reflexivity.
  - vm_compute. reflexivity.
Defined.

(** X11. After a join the access index of the user lists the spreadsheet:
    it is the index found when the spreadsheet was there, and the index
    found with the spreadsheet appended when not, so an index without
    repetitions stays without. The index of every other user reads as
    before. *)
Theorem join_lists_the_spreadsheet_once w id user nm link cs acc :
  localStorage w !! linkKey id = Some (JLink link) ->
  stored_roster (localStorage w) (spreadsheetId link) = Some cs ->
  stored_strings (localStorage w) (accessKey user) = Some acc ->
  let w' := after (addCollaborator id user nm w) w in
  exists acc',
    getUserCollaborations user w' = Returned acc' w'
    /\ spreadsheetId link ∈ acc'
    /\ (spreadsheetId link ∈ acc -> acc' = acc)
    /\ (spreadsheetId link ∉ acc -> acc' = acc ++ [spreadsheetId link])
    /\ (NoDup acc -> NoDup acc')
    /\ forall other, other <> user ->
         result (getUserCollaborations other w')
         = result (getUserCollaborations other w).
Proof.
  intros Hl Hr Ha w'. subst w'.
  rewrite (addCollaborator_found _ _ _ _ _ _ _ Hl Hr Ha). cbn [after].
  pose proof (joined_access id user nm link cs acc w Ha) as Hacc.
  eexists. split; [apply getUserCollaborations_reads, Hacc|].
  destruct (includes acc (spreadsheetId link)) eqn:E.
  - pose proof (proj1 (includes_true _ _) E) as Hin.
    split; [exact Hin|]. split; [reflexivity|]. split; [contradiction|].
    split; [auto|].
    intros other Hne. rewrite !getUserCollaborations_result.
    unfold joined, grant. cbn [localStorage]. rewrite E.
    now rewrite stored_strings_insert_ne by distinct_keys.
  - assert (Hnin : spreadsheetId link ∉ acc).
    { intros Hin. apply includes_true in Hin. congruence. }
    split; [apply elem_of_app; right; apply list_elem_of_here|].
    split; [contradiction|]. split; [reflexivity|]. split.
    + intros Hnd. apply NoDup_app. split; [exact Hnd|].
      split; [|apply NoDup_singleton].
      intros x Hx Hx'. apply list_elem_of_singleton in Hx'. now subst.
    + intros other Hne. rewrite !getUserCollaborations_result.
      unfold joined, grant. cbn [localStorage]. rewrite E.
      rewrite stored_strings_insert_ne.
      * now rewrite stored_strings_insert_ne by distinct_keys.
      * intros Ek. apply accessKey_inj in Ek. congruence.
Qed.

Lemma join_lists_the_spreadsheet_once_witness :
  let w := at_time 1700000060000 bobJoined in
  let w' := after (addCollaborator budgetLink "b@x.com" "Bob" w) w in
  exists acc',
    getUserCollaborations "b@x.com" w' = Returned acc' w'
    /\ "Budget2024" ∈ acc'
    /\ ("Budget2024" ∈ ["Budget2024"] -> acc' = ["Budget2024"])
    /\ ("Budget2024" ∉ ["Budget2024"] -> acc' = ["Budget2024"] ++ ["Budget2024"])
    /\ (NoDup ["Budget2024"] -> NoDup acc')
    /\ forall other, other <> "b@x.com" ->
         result (getUserCollaborations other w')
         = result (getUserCollaborations other w).
Proof.
  apply (join_lists_the_spreadsheet_once (at_time 1700000060000 bobJoined)
           budgetLink "b@x.com" "Bob"
           (mkLink budgetLink "Budget2024" "Budget" "a@x.com" 1700000000000 None)
           [mkCollaborator "b@x.com" "Bob" 1700000001000 1700000001000 true]
           ["Budget2024"]).
  - vm_compute. reflexivity.
  - vm_compute. reflexivity.
  - vm_compute. reflexivity.
Defined.

(** * Removal, and what removal leaves *)

Lemma getCollaborationLink_same w w' id :
  localStorage w' !! linkKey id = localStorage w !! linkKey id ->
  result (getCollaborationLink id w') = result (getCollaborationLink id w).
Proof.
  intros H. unfold getCollaborationLink, bind, getItem. rewrite H.
  destruct (localStorage w !! linkKey id) as [[]|]; reflexivity.
Qed.

(** X12. [removeCollaborator] writes the roster and nothing else. In
    particular it revokes nothing: the access index of the removed user
    still lists the spreadsheet, every link resolves as before, and nothing
    is dispatched. *)
Theorem remove_only_writes_the_roster w sid user cs :
  stored_roster (localStorage w) sid = Some cs ->
  let w' := after (removeCollaborator sid user w) w in
  (forall k, k <> rosterKey sid -> localStorage w' !! k = localStorage w !! k)
  /\ (forall u, result (getUserCollaborations u w')
                = result (getUserCollaborations u w))
  /\ (forall id, result (getCollaborationLink id w')
                 = result (getCollaborationLink id w))
  /\ (forall sid' t, sid' <> sid -> roster sid' t w' = roster sid' t w)
  /\ dispatched w' = dispatched w.
Proof.
  intros Hr w'. subst w'.
  rewrite (removeCollaborator_runs _ _ _ _ Hr). cbn [after].
  assert (Hframe : forall k, k <> rosterKey sid ->
            localStorage (removed sid user cs w) !! k = localStorage w !! k).
  { intros k Hk. unfold removed. cbn [localStorage].
    apply lookup_insert_ne. congruence. }
  split; [exact Hframe|]. split; [|split; [|split; [|reflexivity]]].
  - intros u. rewrite !getUserCollaborations_result. unfold stored_strings.
    now rewrite Hframe by distinct_keys.
  - intros id. apply getCollaborationLink_same, Hframe. distinct_keys.
  - intros sid' t Hne. rewrite !roster_stored. f_equal. unfold stored_roster.
    rewrite Hframe; [reflexivity|].
    intros E. apply rosterKey_inj in E. contradiction.
Qed.

Lemma remove_only_writes_the_roster_witness :
  let w := at_time 1700000060000 bobJoined in
  let w' := after (removeCollaborator "Budget2024" "b@x.com" w) w in
  (forall k, k <> rosterKey "Budget2024" ->
             localStorage w' !! k = localStorage w !! k)
  /\ (forall u, result (getUserCollaborations u w')
                = result (getUserCollaborations u w))
  /\ (forall id, result (getCollaborationLink id w')
                 = result (getCollaborationLink id w))
  /\ (forall sid' t, sid' <> "Budget2024" -> roster sid' t w' = roster sid' t w)
  /\ dispatched w' = dispatched w.
Proof.
  apply (remove_only_writes_the_roster (at_time 1700000060000 bobJoined)
           "Budget2024" "b@x.com"
           [mkCollaborator "b@x.com" "Bob" 1700000001000 1700000001000 true]).
  vm_compute. reflexivity.
Defined.

Lemma removed_roster sid user cs w :
  stored_roster (localStorage (removed sid user cs w)) sid
  = Some (List.filter (others user) (map (withLiveness (clock w)) cs)).
Proof. unfold removed. cbn [localStorage]. apply stored_roster_insert. Qed.

Lemma removed_gone user cs :
  existsb (hasEmail user) (List.filter (others user) cs) = false.
Proof.
  apply existsb_absent. intros Hin.
  apply list_elem_of_fmap in Hin as (c & He & Hc).
  pose proof (filter_others_gone user cs) as Hall.
  rewrite Forall_forall in Hall. now apply (Hall c Hc).
Qed.

(** X13. A removed user who joins again is a new collaborator: the record
    is appended at the end of the roster under the name passed to the new
    call, and its [joinedAt] is the time of the new join; the name and the
    [joinedAt] of the earlier record are gone. *)
Theorem rejoin_after_removal_is_a_first_join w id user nm link cs acc t2 :
  localStorage w !! linkKey id = Some (JLink link) ->
  stored_roster (localStorage w) (spreadsheetId link) = Some cs ->
  stored_strings (localStorage w) (accessKey user) = Some acc ->
  let w1 := after (removeCollaborator (spreadsheetId link) user w) w in
  let join := addCollaborator id user nm (at_time t2 w1) in
  let w2 := after join (at_time t2 w1) in
  result join = Some true
  /\ exists rest c,
       stored_roster (localStorage w2) (spreadsheetId link) = Some (rest ++ [c])
       /\ email c = user /\ name c = nm /\ joinedAt c = t2
       /\ isActive c = true
       /\ Forall (fun c => email c <> user) rest
       /\ map email rest = map email (List.filter (others user) cs).
Proof.
  intros Hl Hr Ha w1 join w2. subst w2 join w1.
  rewrite (removeCollaborator_runs _ _ _ _ Hr). cbn [after].
  set (w1 := removed (spreadsheetId link) user cs w).
  set (cs1 := List.filter (others user) (map (withLiveness (clock w)) cs)).
  assert (Hl1 : localStorage (at_time t2 w1) !! linkKey id = Some (JLink link)).
  { cbn. rewrite lookup_insert_ne by distinct_keys. exact Hl. }
  assert (Hr1 : stored_roster (localStorage (at_time t2 w1)) (spreadsheetId link)
                = Some cs1) by apply removed_roster.
  assert (Ha1 : stored_strings (localStorage (at_time t2 w1)) (accessKey user)
                = Some acc).
  { cbn. rewrite stored_strings_insert_ne by distinct_keys. exact Ha. }
  rewrite (addCollaborator_found _ _ _ _ _ _ _ Hl1 Hr1 Ha1). cbn [after result].
  split; [reflexivity|].
  exists (map (withLiveness t2) cs1), (mkCollaborator user nm t2 t2 true).
  split; [|split; [reflexivity|split; [reflexivity|split; [reflexivity|
          split; [reflexivity|split]]]]].
  - rewrite stored_roster_joined. f_equal.
    apply upsert_absent.
    unfold cs1. rewrite <- (filter_map_same _ _ _ (others_withLiveness user t2)).
    apply removed_gone.
  - unfold cs1. rewrite <- (filter_map_same _ _ _ (others_withLiveness user t2)).
    apply filter_others_gone.
  - rewrite map_email_withLiveness. unfold cs1.
    rewrite (filter_map_same _ _ _ (others_withLiveness user (clock w))).
    apply map_email_withLiveness.
Qed.

Lemma rejoin_after_removal_is_a_first_join_witness :
  let w := at_time 1700000060000 bobJoined in
  let w1 := after (removeCollaborator "Budget2024" "b@x.com" w) w in
  let join := addCollaborator budgetLink "b@x.com" "Robert"
                (at_time 1700000090000 w1) in
  let w2 := after join (at_time 1700000090000 w1) in
  result join = Some true
  /\ exists rest c,
       stored_roster (localStorage w2) "Budget2024" = Some (rest ++ [c])
       /\ email c = "b@x.com" /\ name c = "Robert"
       /\ joinedAt c = 1700000090000
       /\ isActive c = true
       /\ Forall (fun c => email c <> "b@x.com") rest
       /\ map email rest
          = map email
              (List.filter (others "b@x.com")
                 [mkCollaborator "b@x.com" "Bob" 1700000001000 1700000001000
                                 true]).
Proof.
  apply (rejoin_after_removal_is_a_first_join
           (at_time 1700000060000 bobJoined) budgetLink "b@x.com" "Robert"
           (mkLink budgetLink "Budget2024" "Budget" "a@x.com" 1700000000000 None)
           [mkCollaborator "b@x.com" "Bob" 1700000001000 1700000001000 true]
           ["Budget2024"] 1700000090000).
  - vm_compute. reflexivity.
  - vm_compute. reflexivity.
  - vm_compute. reflexivity.
Defined.

(** X14. After a removal, a heartbeat of the removed user, whenever it
    comes, writes nothing: it does not bring the record back. *)
Theorem heartbeat_after_removal_changes_nothing w sid user cs t2 :
  stored_roster (localStorage w) sid = Some cs ->
  let w1 := after (removeCollaborator sid user w) w in
  updateCollaboratorActivity sid user (at_time t2 w1)
  = Returned tt (at_time t2 w1).
Proof.
  intros Hr w1. subst w1.
  rewrite (removeCollaborator_runs _ _ _ _ Hr). cbn [after].
  rewrite (updateCollaboratorActivity_runs _ sid user
             (List.filter (others user) (map (withLiveness (clock w)) cs)))
    by apply removed_roster.
  f_equal. apply beaten_absent, removed_gone.
Qed.

Lemma heartbeat_after_removal_changes_nothing_witness :
  let w := at_time 1700000060000 bobJoined in
  let w1 := after (removeCollaborator "Budget2024" "b@x.com" w) w in
  updateCollaboratorActivity "Budget2024" "b@x.com" (at_time 1700000061000 w1)
  = Returned tt (at_time 1700000061000 w1).
Proof.
  apply (heartbeat_after_removal_changes_nothing
           (at_time 1700000060000 bobJoined) "Budget2024" "b@x.com"
           [mkCollaborator "b@x.com" "Bob" 1700000001000 1700000001000 true]
           1700000061000).
  vm_compute. reflexivity.
Defined.

(** * Sequences of calls, again *)

(** What each call does in a consistent store, in closed form. *)
Lemma perform_cases c w :
  consistent (localStorage w) ->
  match c with
  | CreateLink rnd sid title owner =>
      exists ids,
        stored_strings (localStorage w) (ownerKey owner) = Some ids
        /\ perform c w = Returned tt (created rnd sid title owner ids w)
  | Join id user nm =>
      (localStorage w !! linkKey id = None /\ perform c w = Returned tt w)
      \/ exists link cs acc,
           localStorage w !! linkKey id = Some (JLink link)
           /\ stored_roster (localStorage w) (spreadsheetId link) = Some cs
           /\ stored_strings (localStorage w) (accessKey user) = Some acc
           /\ perform c w = Returned tt (joined id user nm link cs acc w)
  | Heartbeat sid user =>
      exists cs,
        stored_roster (localStorage w) sid = Some cs
        /\ perform c w = Returned tt (beaten sid user cs w)
  | Remove sid user =>
      exists cs,
        stored_roster (localStorage w) sid = Some cs
        /\ perform c w = Returned tt (removed sid user cs w)
  end.
Proof.
  intros Hc. destruct c as [rnd sid title owner|id user nm|sid user|sid user].
  - destruct (owners_typed _ Hc owner) as [ids Hids]. exists ids.
    split; [exact Hids|]. simpl. unfold bind.
    now rewrite (createCollaborationLink_runs _ _ _ _ _ _ Hids).
  - pose proof (links_typed _ Hc id) as Hl.
    destruct (localStorage w !! linkKey id) as [[link| |]|] eqn:E; try easy.
    + right. destruct (rosters_unique _ Hc (spreadsheetId link)) as (cs & Hcs & _).
      destruct (access_typed _ Hc user) as [acc Hacc].
      exists link, cs, acc. repeat split; try assumption.
      simpl. unfold bind.
      now rewrite (addCollaborator_found _ _ _ _ _ _ _ E Hcs Hacc).
    + left. split; [reflexivity|]. simpl. unfold bind, addCollaborator, bind.
      now rewrite (getCollaborationLink_absent _ _ E).
  - destruct (rosters_unique _ Hc sid) as (cs & Hcs & _). exists cs.
    split; [exact Hcs|]. now apply updateCollaboratorActivity_runs.
  - destruct (rosters_unique _ Hc sid) as (cs & Hcs & _). exists cs.
    split; [exact Hcs|]. now apply removeCollaborator_runs.
Qed.

Lemma beaten_frame sid user cs w k :
  k <> rosterKey sid ->
  localStorage (beaten sid user cs w) !! k = localStorage w !! k.
Proof.
  intros Hk. unfold beaten. destruct (0 <=? _); [|reflexivity].
  cbn [localStorage]. apply lookup_insert_ne. congruence.
Qed.

Lemma removed_frame sid user cs w k :
  k <> rosterKey sid ->
  localStorage (removed sid user cs w) !! k = localStorage w !! k.
Proof.
  intros Hk. unfold removed. cbn [localStorage].
  apply lookup_insert_ne. congruence.
Qed.

Lemma perform_access_unique c w :
  consistent (localStorage w) -> access_unique (localStorage w) ->
  exists w', perform c w = Returned tt w'
             /\ consistent (localStorage w')
             /\ access_unique (localStorage w').
Proof.
  intros Hc Hu.
  destruct (perform_consistent c w Hc) as (w' & Hrun & Hc').
  exists w'. split; [exact Hrun|]. split; [exact Hc'|].
  pose proof (perform_cases c w Hc) as Hcase.
  assert (Hsame : (forall u, localStorage w' !! accessKey u
                             = localStorage w !! accessKey u) ->
                  access_unique (localStorage w')).
  { intros H u ids Hids. apply (Hu u). unfold stored_strings in *.
    now rewrite <- H. }
  destruct c as [rnd sid title owner|id user nm|sid user|sid user].
  - destruct Hcase as (ids & _ & Hrun'). rewrite Hrun' in Hrun.
    injection Hrun as <-. apply Hsame. intros u.
    apply created_frame; distinct_keys.
  - destruct Hcase as [[_ Hrun']|(link & cs & acc & Hl & Hr & Ha & Hrun')];
      rewrite Hrun' in Hrun; injection Hrun as <-; [exact Hu|].
    intros u ids Hids. destruct (decide (u = user)) as [->|Hne].
    + rewrite (joined_access id user nm link cs acc w Ha) in Hids.
      injection Hids as <-. pose proof (Hu user acc Ha) as Hnd.
      destruct (includes acc (spreadsheetId link)) eqn:E; [exact Hnd|].
      apply NoDup_app. split; [exact Hnd|]. split; [|apply NoDup_singleton].
      intros x Hx Hx'. apply list_elem_of_singleton in Hx'. subst x.
      apply includes_true in Hx. congruence.
    + apply (Hu u). rewrite <- Hids. unfold joined, grant. cbn [localStorage].
      destruct (includes acc (spreadsheetId link)).
      * now rewrite stored_strings_insert_ne by distinct_keys.
      * rewrite stored_strings_insert_ne.
        -- now rewrite stored_strings_insert_ne by distinct_keys.
        -- intros Ek. apply accessKey_inj in Ek. congruence.
  - destruct Hcase as (cs & _ & Hrun'). rewrite Hrun' in Hrun.
    injection Hrun as <-. apply Hsame. intros u.
    apply beaten_frame. distinct_keys.
  - destruct Hcase as (cs & _ & Hrun'). rewrite Hrun' in Hrun.
    injection Hrun as <-. apply Hsame. intros u.
    apply removed_frame. distinct_keys.
Qed.

(** X15. No access index ever lists a spreadsheet twice: from a consistent
    store whose access indices have no repetition, the empty store among
    them, every sequence of calls returns and leaves every access index
    without repetition, however often the same user joins the same
    spreadsheet. *)
Theorem access_index_never_repeats :
  access_unique (localStorage emptyWorld)
  /\ forall w0 calls,
       consistent (localStorage w0) -> access_unique (localStorage w0) ->
       exists w,
         run calls w0 = Some w
         /\ forall user, exists ids,
              getUserCollaborations user w = Returned ids w /\ NoDup ids.
Proof.
  split.
  - intros user ids H. unfold stored_strings in H. cbn in H.
    rewrite lookup_empty in H. injection H as <-. apply NoDup_nil_2.
  - intros w0 calls. revert w0.
    assert (Hrun : forall calls w0,
              consistent (localStorage w0) -> access_unique (localStorage w0) ->
              exists w, run calls w0 = Some w
                        /\ consistent (localStorage w)
                        /\ access_unique (localStorage w)).
    { clear calls. induction calls as [|[t c] calls IH]; intros w0 Hc Hu.
      - now exists w0.
      - simpl.
        destruct (perform_access_unique c (at_time t w0) Hc Hu)
          as (w1 & -> & Hc1 & Hu1).
        now apply IH. }
    intros w0 Hc Hu. destruct (Hrun calls w0 Hc Hu) as (w & Hw & Hcw & Huw).
    exists w. split; [exact Hw|]. intros user.
    destruct (access_typed _ Hcw user) as [ids Hids]. exists ids.
    split; [now apply getUserCollaborations_reads | now apply (Huw user)].
Qed.

Lemma access_index_never_repeats_witness :
  exists w,
    run [(1700000000000, CreateLink "k3j9x0a1b" "Budget2024" "Budget" "a@x.com");
         (1700000001000, Join budgetLink "b@x.com" "Bob");
         (1700000002000, Remove "Budget2024" "b@x.com");
         (1700000003000, Join budgetLink "b@x.com" "Bob")] emptyWorld = Some w
    /\ forall user, exists ids,
         getUserCollaborations user w = Returned ids w /\ NoDup ids.
Proof.
  apply (proj2 access_index_never_repeats emptyWorld).
  - exact consistent_empty.
  - exact (proj1 access_index_never_repeats).
Defined.

(** X16. Joins, heartbeats and removals leave the link registry alone:
    after any sequence of them every id resolves as before, every owner
    index reads as before, and [isSpreadsheetOwner] answers as before. A
    join makes nobody an owner, a removal takes no ownership away. *)
Theorem presence_calls_leave_the_registry_alone w0 calls :
  consistent (localStorage w0) ->
  forallb (fun e => presenceCall (snd e)) calls = true ->
  exists w,
    run calls w0 = Some w
    /\ (forall id, result (getCollaborationLink id w)
                   = result (getCollaborationLink id w0))
    /\ (forall user, result (getOwnerLinks user w)
                     = result (getOwnerLinks user w0))
    /\ (forall sid user, result (isSpreadsheetOwner sid user w)
                         = result (isSpreadsheetOwner sid user w0)).
Proof.
  intros Hc Hp.
  assert (Hrun : exists w,
            run calls w0 = Some w /\ consistent (localStorage w)
            /\ (forall id, localStorage w !! linkKey id
                           = localStorage w0 !! linkKey id)
            /\ (forall u, localStorage w !! ownerKey u
                          = localStorage w0 !! ownerKey u)).
  { revert w0 Hc Hp. induction calls as [|[t c] calls IH]; intros w0 Hc Hp.
    - now exists w0.
    - simpl in Hp. apply andb_true_iff in Hp as [Hpc Hp]. simpl.
      destruct (perform_consistent c (at_time t w0) Hc) as (w1 & Hrun1 & Hc1).
      rewrite Hrun1.
      assert (Hf : (forall id, localStorage w1 !! linkKey id
                               = localStorage w0 !! linkKey id)
                   /\ (forall u, localStorage w1 !! ownerKey u
                                 = localStorage w0 !! ownerKey u)).
      { pose proof (perform_cases c (at_time t w0) Hc) as Hcase.
        destruct c as [rnd sid title owner|id user nm|sid user|sid user];
          [discriminate| | |].
        - destruct Hcase as [[_ Hr]|(link & cs & acc & _ & _ & _ & Hr)];
            rewrite Hr in Hrun1; injection Hrun1 as <-; [now split|].
          split; [intros id';
                  exact (joined_link id user nm link cs acc (at_time t w0) id')|].
          intros u. unfold joined, grant. cbn [localStorage at_time].
          destruct (includes acc (spreadsheetId link)).
          + now rewrite lookup_insert_ne by distinct_keys.
          + rewrite lookup_insert_ne by distinct_keys.
            now rewrite lookup_insert_ne by distinct_keys.
        - destruct Hcase as (cs & _ & Hr). rewrite Hr in Hrun1.
          injection Hrun1 as <-.
          split; intros x;
            [refine (beaten_frame sid user cs (at_time t w0) (linkKey x) _)
            |refine (beaten_frame sid user cs (at_time t w0) (ownerKey x) _)];
            distinct_keys.
        - destruct Hcase as (cs & _ & Hr). rewrite Hr in Hrun1.
          injection Hrun1 as <-.
          split; intros x;
            [refine (removed_frame sid user cs (at_time t w0) (linkKey x) _)
            |refine (removed_frame sid user cs (at_time t w0) (ownerKey x) _)];
            distinct_keys. }
      destruct Hf as [Hfl Hfo].
      destruct (IH w1 Hc1 Hp) as (w & Hw & Hcw & Hl & Ho).
      exists w. split; [exact Hw|]. split; [exact Hcw|].
      split; [intros id; now rewrite Hl | intros u; now rewrite Ho]. }
  destruct Hrun as (w & Hw & Hcw & Hl & Ho).
  exists w. split; [exact Hw|]. split; [|split].
  - intros id. apply getCollaborationLink_same, Hl.
  - intros user. rewrite !getOwnerLinks_result. unfold stored_strings.
    now rewrite Ho.
  - intros sid user.
    destruct (owners_typed _ Hc user) as [ids Hids].
    assert (Hids' : stored_strings (localStorage w) (ownerKey user) = Some ids).
    { unfold stored_strings in *. now rewrite Ho. }
    rewrite (isSpreadsheetOwner_runs _ _ _ _ Hcw Hids').
    rewrite (isSpreadsheetOwner_runs _ _ _ _ Hc Hids).
    cbn [result]. f_equal. apply owns_same_links. intros id _. apply Hl.
Qed.

Lemma presence_calls_leave_the_registry_alone_witness :
  exists w,
    run [(1700000001000, Join budgetLink "b@x.com" "Bob");
         (1700000002000, Heartbeat "Budget2024" "b@x.com");
         (1700000003000, Remove "Budget2024" "b@x.com")] shared = Some w
    /\ (forall id, result (getCollaborationLink id w)
                   = result (getCollaborationLink id shared))
    /\ (forall user, result (getOwnerLinks user w)
                     = result (getOwnerLinks user shared))
    /\ (forall sid user, result (isSpreadsheetOwner sid user w)
                         = result (isSpreadsheetOwner sid user shared)).
Proof.
  apply (presence_calls_leave_the_registry_alone shared).
  - exact shared_consistent.
  - reflexivity.
Defined.

(** * Flags in the store *)

Lemma withLiveness_flags t cs : Forall (flagAsOf t) (map (withLiveness t) cs).
Proof.
  apply Forall_forall. intros c Hc.
  apply list_elem_of_fmap in Hc as (c0 & -> & _). reflexivity.
Qed.

(** X17. The calls that write a roster write the flags they have just
    recomputed: after a removal or a join, whatever flags were stored
    before, every record in the store has [isActive] equal to
    [now - lastActive < 5 minutes] at the time of the call. *)
Theorem writes_store_the_recomputed_flags :
  (forall w sid user cs,
     stored_roster (localStorage w) sid = Some cs ->
     exists rs,
       stored_roster (localStorage (after (removeCollaborator sid user w) w)) sid
       = Some rs
       /\ Forall (fun c => isActive c = (clock w - lastActive c <? fiveMinutes))
                 rs)
  /\ (forall w id user nm link cs acc,
        localStorage w !! linkKey id = Some (JLink link) ->
        stored_roster (localStorage w) (spreadsheetId link) = Some cs ->
        stored_strings (localStorage w) (accessKey user) = Some acc ->
        exists rs,
          stored_roster (localStorage (after (addCollaborator id user nm w) w))
                        (spreadsheetId link) = Some rs
          /\ Forall (fun c => isActive c
                              = (clock w - lastActive c <? fiveMinutes)) rs).
Proof.
  split.
  - intros w sid user cs Hr.
    rewrite (removeCollaborator_runs _ _ _ _ Hr). cbn [after].
    eexists. split; [apply removed_roster|].
    apply Forall_forall. intros c Hc.
    apply list_elem_of_In, filter_In in Hc as [Hc _].
    pose proof (withLiveness_flags (clock w) cs) as Hall.
    rewrite Forall_forall in Hall. apply Hall. now apply list_elem_of_In.
  - intros w id user nm link cs acc Hl Hr Ha.
    rewrite (addCollaborator_found _ _ _ _ _ _ _ Hl Hr Ha). cbn [after].
    eexists. split; [apply (stored_roster_joined id)|].
    apply (upsert_Forall (flagAsOf (clock w))).
    + apply withLiveness_flags.
    + intros c. unfold flagAsOf, refreshed. cbn [isActive lastActive].
      now rewrite Z.sub_diag.
    + unfold flagAsOf. cbn [isActive lastActive]. now rewrite Z.sub_diag.
Qed.

Lemma writes_store_the_recomputed_flags_witness :
  (exists rs,
     stored_roster
       (localStorage
          (after (removeCollaborator "Budget2024" "c@x.com"
                    (at_time 1700000400000 bobJoined))
                 (at_time 1700000400000 bobJoined)))
       "Budget2024" = Some rs
     /\ Forall (fun c => isActive c
                         = (1700000400000 - lastActive c <? fiveMinutes)) rs)
  /\ (exists rs,
        stored_roster
          (localStorage
             (after (addCollaborator budgetLink "c@x.com" "Cy"
                       (at_time 1700000400000 bobJoined))
                    (at_time 1700000400000 bobJoined)))
          "Budget2024" = Some rs
        /\ Forall (fun c => isActive c
                            = (1700000400000 - lastActive c <? fiveMinutes)) rs).
Proof.
  split.
  - apply (proj1 writes_store_the_recomputed_flags
             (at_time 1700000400000 bobJoined) "Budget2024" "c@x.com"
             [mkCollaborator "b@x.com" "Bob" 1700000001000 1700000001000 true]).
    vm_compute. reflexivity.
  - apply (proj2 writes_store_the_recomputed_flags
             (at_time 1700000400000 bobJoined) budgetLink "c@x.com" "Cy"
             (mkLink budgetLink "Budget2024" "Budget" "a@x.com"
                     1700000000000 None)
             [mkCollaborator "b@x.com" "Bob" 1700000001000 1700000001000 true]
             []).
    + vm_compute. reflexivity.
    + vm_compute. reflexivity.
    + vm_compute. reflexivity.
Defined.

(** * The table dialog *)

Module TableInsertDialogFacts.
Import TableInsertDialog.

Lemma clamp_between hi parsed :
  1 <= hi -> between 1 hi (Math_max 1 (Math_min hi (orOne parsed))).
Proof.
  intros H. destruct parsed as [|z| |]; simpl.
  - exists (Z.max 1 (Z.min hi 1)). split; [reflexivity | lia].
  - destruct (z =? 0); simpl; eexists; split; try reflexivity; lia.
  - exists (Z.max 1 hi). split; [reflexivity | lia].
  - exists 1. split; [reflexivity | lia].
Qed.

Lemma between_positive lo hi x : 1 <= lo -> between lo hi x -> positive x = true.
Proof. intros H (z & -> & Hz). simpl. apply Z.ltb_lt. lia. Qed.

Lemma handleInsert_inRange s :
  inRange s -> handleInsert s = (s, [onInsert (columns s) (rows s); onClose]).
Proof.
  intros [Hc Hr]. unfold handleInsert.
  rewrite (between_positive 1 26 _ (Z.le_refl 1) Hc).
  now rewrite (between_positive 1 100 _ (Z.le_refl 1) Hr).
Qed.

Lemma handle_inRange s e :
  inRange s ->
  inRange (fst (handle s e))
  /\ Forall insertInRange (snd (handle s e))
  /\ length (List.filter isInsert (snd (handle s e)))
     = (if isInsertClick e then 1 else 0)%nat.
Proof.
  intros Hs. destruct e as [parsed|parsed| | |]; simpl.
  - destruct Hs as [_ Hr]. repeat split; try constructor.
    + apply clamp_between. lia.
    + exact Hr.
  - destruct Hs as [Hc _]. repeat split; try constructor.
    + exact Hc.
    + apply clamp_between. lia.
  - rewrite (handleInsert_inRange s Hs). simpl.
    split; [exact Hs|]. split; [|reflexivity].
    constructor; [exact Hs|]. constructor; [exact I | constructor].
  - split; [|split; [|reflexivity]].
    + split; eexists; (split; [reflexivity | lia]).
    + constructor; [exact I | constructor].
  - split; [exact Hs|]. split; [|reflexivity].
    constructor; [exact I | constructor].
Qed.

Lemma play_inRange s events :
  inRange s ->
  inRange (fst (play s events))
  /\ Forall insertInRange (snd (play s events))
  /\ length (List.filter isInsert (snd (play s events)))
     = length (List.filter isInsertClick events).
Proof.
  revert s. induction events as [|e events IH]; intros s Hs.
  - simpl. split; [exact Hs|]. split; [constructor | reflexivity].
  - simpl. destruct (handle_inRange s e Hs) as (H1 & H2 & H3).
    destruct (handle s e) as [s1 calls1]. simpl in H1, H2, H3.
    destruct (IH s1 H1) as (H4 & H5 & H6).
    destruct (play s1 events) as [s2 calls2]. simpl in *.
    split; [exact H4|]. split; [now apply Forall_app|].
    rewrite List.filter_app, length_app, H3, H6.
    destruct (isInsertClick e); reflexivity.
Qed.

End TableInsertDialogFacts.

(** X18. Whatever is typed into the two fields of the table dialog and
    whatever [parseInt] makes of it (not a number, zero, a negative number,
    an infinity), the number of columns stays between 1 and 26 and the
    number of rows between 1 and 100, and so do the sizes passed to
    [onInsert]. *)
Theorem table_sizes_stay_in_range (events : list TableInsertDialog.Event) :
  let (s, calls) := TableInsertDialog.play TableInsertDialog.initial events in
  TableInsertDialog.between 1 26 (TableInsertDialog.columns s)
  /\ TableInsertDialog.between 1 100 (TableInsertDialog.rows s)
  /\ forall cols rws,
       TableInsertDialog.onInsert cols rws ∈ calls ->
       TableInsertDialog.between 1 26 cols
       /\ TableInsertDialog.between 1 100 rws.
Proof.
  assert (Hi : TableInsertDialog.inRange TableInsertDialog.initial).
  { split; eexists; (split; [reflexivity | lia]). }
  destruct (TableInsertDialogFacts.play_inRange _ events Hi) as ([Hc Hr] & Hall & _).
  destruct (TableInsertDialog.play TableInsertDialog.initial events)
    as [s calls].
  simpl in *. split; [exact Hc|]. split; [exact Hr|].
  intros cols rws Hin. rewrite Forall_forall in Hall.
  exact (Hall _ Hin).
Qed.

(** X19. The guard of [handleInsert] never refuses: in every run of the
    table dialog each click on Insert calls [onInsert] once, so there are as
    many calls of [onInsert] as clicks on Insert. *)
Theorem every_insert_click_inserts (events : list TableInsertDialog.Event) :
  length (List.filter TableInsertDialog.isInsert
            (snd (TableInsertDialog.play TableInsertDialog.initial events)))
  = length (List.filter TableInsertDialog.isInsertClick events).
Proof.
  assert (Hi : TableInsertDialog.inRange TableInsertDialog.initial).
  { split; eexists; (split; [reflexivity | lia]). }
  now destruct (TableInsertDialogFacts.play_inRange _ events Hi) as (_ & _ & H).
Qed.

(** * The template picker *)

Lemma Set_values_from (seen values : list string) :
  NoDup seen ->
  let r := fold_left (fun seen v => if includes seen v then seen else seen ++ [v])
                     values seen in
  NoDup r /\ forall x, x ∈ r <-> x ∈ seen \/ x ∈ values.
Proof.
  revert seen. induction values as [|v values IH]; intros seen Hnd; simpl.
  - split; [exact Hnd|]. intros x. split; [now left|].
    intros [H|H]; [exact H | now apply elem_of_nil in H].
  - destruct (includes seen v) eqn:E.
    + destruct (IH seen Hnd) as [H1 H2]. split; [exact H1|].
      intros x. rewrite H2, elem_of_cons. apply includes_true in E.
      split; [tauto|]. intros [H|[->|H]]; tauto.
    + assert (Hv : v ∉ seen).
      { intros H. apply includes_true in H. congruence. }
      assert (Hnd' : NoDup (seen ++ [v])).
      { apply NoDup_app. split; [exact Hnd|]. split; [|apply NoDup_singleton].
        intros x Hx Hx'. apply list_elem_of_singleton in Hx'. now subst. }
      destruct (IH (seen ++ [v]) Hnd') as [H1 H2]. split; [exact H1|].
      intros x. rewrite H2, elem_of_app, list_elem_of_singleton, elem_of_cons.
      tauto.
Qed.

Lemma categories_elem (templates : list TemplatePickerDialog.Template) c :
  c ∈ TemplatePickerDialog.categories templates
  <-> exists t, t ∈ templates /\ TemplatePickerDialog.category t = c.
Proof.
  unfold TemplatePickerDialog.categories, TemplatePickerDialog.Set_values.
  destruct (Set_values_from [] (map TemplatePickerDialog.category templates)
              (NoDup_nil_2 (A:=string))) as [_ H2].
  rewrite H2. split.
  - intros [H|H]; [now apply elem_of_nil in H|].
    apply list_elem_of_fmap in H as (t & -> & Ht). now exists t.
  - intros (t & Ht & <-). right. apply list_elem_of_fmap. now exists t.
Qed.

(** X20. The category buttons of the template picker: every category of a
    loaded template has a button, every button is the category of some
    template, and no category has two buttons, so the keys of the buttons
    are distinct. *)
Theorem categories_are_the_distinct_categories
    (templates : list TemplatePickerDialog.Template) :
  NoDup (TemplatePickerDialog.categories templates)
  /\ forall c,
       c ∈ TemplatePickerDialog.categories templates
       <-> exists t, t ∈ templates /\ TemplatePickerDialog.category t = c.
Proof.
  split; [|apply categories_elem].
  unfold TemplatePickerDialog.categories, TemplatePickerDialog.Set_values.
  now destruct (Set_values_from [] (map TemplatePickerDialog.category templates)
                  (NoDup_nil_2 (A:=string))) as [H1 _].
Qed.

(** X21. The templates shown by the picker. With no category selected all
    templates are shown, and also with the empty category selected, which
    counts as none. With another category selected the templates of that
    category are shown and no others, and when the category is one of the
    buttons there is at least one. *)
Theorem filtered_templates_are_those_of_the_category
    (templates : list TemplatePickerDialog.Template) :
  TemplatePickerDialog.filteredTemplates None templates = templates
  /\ TemplatePickerDialog.filteredTemplates (Some "") templates = templates
  /\ forall c,
       c <> "" ->
       (forall t,
          t ∈ TemplatePickerDialog.filteredTemplates (Some c) templates
          <-> t ∈ templates /\ TemplatePickerDialog.category t = c)
       /\ (c ∈ TemplatePickerDialog.categories templates ->
           TemplatePickerDialog.filteredTemplates (Some c) templates <> []).
Proof.
  split; [reflexivity|]. split; [reflexivity|].
  intros c Hc.
  assert (Hiff : forall t,
            t ∈ TemplatePickerDialog.filteredTemplates (Some c) templates
            <-> t ∈ templates /\ TemplatePickerDialog.category t = c).
  { intros t. destruct c as [|a rest]; [contradiction|].
    unfold TemplatePickerDialog.filteredTemplates.
    rewrite !list_elem_of_In, filter_In, String.eqb_eq. reflexivity. }
  split; [exact Hiff|].
  intros Hin E.
  apply categories_elem in Hin.
  destruct Hin as (t & Ht & Hcat).
  assert (Hf : t ∈ TemplatePickerDialog.filteredTemplates (Some c) templates)
    by now apply Hiff.
  rewrite E in Hf. now apply elem_of_nil in Hf.
Qed.

(** * The collaboration effect of the application *)

Lemma parseCollaborationLink_returns w r :
  result (parseCollaborationLink w) = Some r ->
  parseCollaborationLink w = Returned r w.
Proof.
  unfold parseCollaborationLink, bind, window_location, ret. simpl.
  now intros [= ->].
Qed.

(** X22. The effect does nothing at all when the address has no [collab]
    parameter, when the parameter is empty, or when nobody is logged in: the
    state and the world are the ones it found. *)
Theorem effect_needs_a_link_and_a_user
    {Sheet : Type} (loadSpreadsheet : string -> M (option Sheet))
    (s : App.State Sheet) w r :
  result (parseCollaborationLink w) = Some r ->
  r = None \/ r = Some "" \/ App.user s = None ->
  App.collaborationEffect loadSpreadsheet s w = Returned s w.
Proof.
  intros Hp H. unfold App.collaborationEffect, bind at 1.
  rewrite (parseCollaborationLink_returns _ _ Hp).
  destruct H as [->|[->|Hu]]; [reflexivity | reflexivity |].
  rewrite Hu. now destruct r as [[|c rest]|].
Qed.

Lemma effect_needs_a_link_and_a_user_witness :
  App.collaborationEffect (fun _ => ret (Some "sheet"))
    (App.mkState None App.login None [])
    (navigate (mkLocation "https://x" ("?collab=" +:+ budgetLink)) shared)
  = Returned (App.mkState None App.login None [])
      (navigate (mkLocation "https://x" ("?collab=" +:+ budgetLink)) shared).
Proof.
  apply (effect_needs_a_link_and_a_user (fun _ => ret (Some "sheet"))
           (App.mkState None App.login None [])
           (navigate (mkLocation "https://x" ("?collab=" +:+ budgetLink)) shared)
           (Some budgetLink)).
  - vm_compute. reflexivity.
  - right. right. reflexivity.
Defined.

(** X23. With a user logged in and an id in the address under which no
    link is stored, the effect shows the toast "Invalid collaboration link"
    and does nothing else: nobody is added to a roster, nothing is
    dispatched, the screen stays. *)
Theorem effect_reports_an_unknown_link
    {Sheet : Type} (loadSpreadsheet : string -> M (option Sheet))
    (s : App.State Sheet) w id u :
  result (parseCollaborationLink w) = Some (Some id) ->
  id <> "" ->
  App.user s = Some u ->
  localStorage w !! linkKey id = None ->
  App.collaborationEffect loadSpreadsheet s w
  = Returned (App.mkState (App.user s) (App.screen s) (App.currentSpreadsheet s)
                (App.toasts s ++ [App.error "Invalid collaboration link"]))
             w.
Proof.
  intros Hp Hid Hu Hl. unfold App.collaborationEffect, bind at 1.
  rewrite (parseCollaborationLink_returns _ _ Hp), Hu.
  destruct id as [|c rest]; [contradiction|].
  unfold bind at 1. now rewrite (getCollaborationLink_absent _ _ Hl).
Qed.

Lemma effect_reports_an_unknown_link_witness :
  let s := App.mkState (Some (App.mkUser "Bob" "b@x.com" None)) App.dashboard
                       None [] in
  let w := navigate (mkLocation "https://x" "?collab=stale") shared in
  App.collaborationEffect (fun _ => ret (Some "sheet")) s w
  = Returned (App.mkState (App.user s) (App.screen s) (App.currentSpreadsheet s)
                (App.toasts s ++ [App.error "Invalid collaboration link"]))
             w.
Proof.
  apply (effect_reports_an_unknown_link (fun _ => ret (Some "sheet"))
           (App.mkState (Some (App.mkUser "Bob" "b@x.com" None)) App.dashboard
                        None [])
           (navigate (mkLocation "https://x" "?collab=stale") shared)
           "stale" (App.mkUser "Bob" "b@x.com" None)).
  - vm_compute. reflexivity.
  - discriminate.
  - reflexivity.
  - vm_compute. reflexivity.
Defined.

Lemma effect_joins_first
    {Sheet : Type} (loadSpreadsheet : string -> M (option Sheet))
    (s : App.State Sheet) w id u link cs acc :
  result (parseCollaborationLink w) = Some (Some id) ->
  id <> "" ->
  App.user s = Some u ->
  localStorage w !! linkKey id = Some (JLink link) ->
  stored_roster (localStorage w) (spreadsheetId link) = Some cs ->
  stored_strings (localStorage w) (accessKey (App.userEmail u)) = Some acc ->
  let wj := after (addCollaborator id (App.userEmail u) (App.userName u) w) w in
  App.collaborationEffect loadSpreadsheet s w
  = match loadSpreadsheet (spreadsheetId link) wj with
    | Returned (Some sheet) wl =>
        Returned
          (App.mkState (App.user s) App.app (Some sheet)
             (App.toasts s ++
                [App.success ("Joined collaboration on " +:+ quote +:+
                              spreadsheetTitle link +:+ quote)]))
          (after (App.clearQuery wl) wl)
    | Returned None wl =>
        Returned
          (App.mkState (App.user s) (App.screen s) (App.currentSpreadsheet s)
             (App.toasts s ++ [App.error "Could not load shared spreadsheet"]))
          wl
    | Untyped => Untyped
    end.
Proof.
  intros Hp Hid Hu Hl Hr Ha wj. subst wj.
  unfold App.collaborationEffect, bind at 1.
  rewrite (parseCollaborationLink_returns _ _ Hp), Hu.
  destruct id as [|c rest]; [contradiction|].
  unfold bind at 1. rewrite (getCollaborationLink_stored _ _ _ Hl).
  unfold bind at 1.
  rewrite (addCollaborator_found _ _ _ _ _ _ _ Hl Hr Ha). cbn [after].
  unfold bind at 1.
  destruct (loadSpreadsheet (spreadsheetId link) _) as [[sheet|] wl|];
    reflexivity.
Qed.

(** X24. The effect joins before it loads. With a stored link in the
    address and a user logged in, when [loadSpreadsheet] finds nothing
    (here: returns nothing and leaves the world as it is), the user is on
    the roster all the same and the owner has been notified: the world
    after the effect is the world after the join. The screen stays, the
    toast "Could not load shared spreadsheet" is shown, and the id is still
    in the address. *)
Theorem effect_joins_even_when_the_sheet_does_not_load
    {Sheet : Type} (loadSpreadsheet : string -> M (option Sheet))
    (s : App.State Sheet) w id u link cs acc :
  result (parseCollaborationLink w) = Some (Some id) ->
  id <> "" ->
  App.user s = Some u ->
  localStorage w !! linkKey id = Some (JLink link) ->
  stored_roster (localStorage w) (spreadsheetId link) = Some cs ->
  stored_strings (localStorage w) (accessKey (App.userEmail u)) = Some acc ->
  let join := addCollaborator id (App.userEmail u) (App.userName u) w in
  let wj := after join w in
  loadSpreadsheet (spreadsheetId link) wj = Returned None wj ->
  result join = Some true
  /\ App.collaborationEffect loadSpreadsheet s w
     = Returned
         (App.mkState (App.user s) (App.screen s) (App.currentSpreadsheet s)
            (App.toasts s ++ [App.error "Could not load shared spreadsheet"]))
         wj
  /\ result (parseCollaborationLink wj) = Some (Some id).
Proof.
  intros Hp Hid Hu Hl Hr Ha join wj Hload. subst wj join.
  rewrite (effect_joins_first loadSpreadsheet s w id u link cs acc
             Hp Hid Hu Hl Hr Ha).
  cbn zeta. rewrite Hload.
  rewrite (addCollaborator_found _ _ _ _ _ _ _ Hl Hr Ha). cbn [after result].
  split; [reflexivity|]. split; [reflexivity|].
  rewrite <- Hp. reflexivity.
Qed.

Lemma effect_joins_even_when_the_sheet_does_not_load_witness :
  let s := App.mkState (Some (App.mkUser "Bob" "b@x.com" None)) App.dashboard
                       (None : option string) [] in
  let w := navigate (mkLocation "https://x" ("?collab=" +:+ budgetLink))
                    (at_time 1700000001000 shared) in
  let join := addCollaborator budgetLink "b@x.com" "Bob" w in
  let wj := after join w in
  result join = Some true
  /\ App.collaborationEffect (fun _ => ret None) s w
     = Returned
         (App.mkState (App.user s) (App.screen s) (App.currentSpreadsheet s)
            (App.toasts s ++ [App.error "Could not load shared spreadsheet"]))
         wj
  /\ result (parseCollaborationLink wj) = Some (Some budgetLink).
Proof.
  apply (effect_joins_even_when_the_sheet_does_not_load
           (fun _ : string => ret (None : option string))
           (App.mkState (Some (App.mkUser "Bob" "b@x.com" None)) App.dashboard
                        None [])
           (navigate (mkLocation "https://x" ("?collab=" +:+ budgetLink))
                     (at_time 1700000001000 shared))
           budgetLink (App.mkUser "Bob" "b@x.com" None)
           (mkLink budgetLink "Budget2024" "Budget" "a@x.com" 1700000000000 None)
           [] []).
  - vm_compute. reflexivity.
  - discriminate.
  - reflexivity.
  - vm_compute. reflexivity.
  - vm_compute. reflexivity.
  - vm_compute. reflexivity.
  - reflexivity.
Defined.

(** X25. When the sheet loads (here: [loadSpreadsheet] returns it and
    leaves the world as it is), the effect opens it: the screen is the
    spreadsheet, the toast names the title recorded in the link, and the
    query string is removed from the address. A second run of the effect
    then finds no link and does nothing, so the user is not joined and the
    owner not notified a second time. *)
Theorem effect_opens_the_sheet_and_clears_the_link
    {Sheet : Type} (loadSpreadsheet : string -> M (option Sheet))
    (s : App.State Sheet) w id u link cs acc sheet :
  result (parseCollaborationLink w) = Some (Some id) ->
  id <> "" ->
  App.user s = Some u ->
  localStorage w !! linkKey id = Some (JLink link) ->
  stored_roster (localStorage w) (spreadsheetId link) = Some cs ->
  stored_strings (localStorage w) (accessKey (App.userEmail u)) = Some acc ->
  let wj := after (addCollaborator id (App.userEmail u) (App.userName u) w) w in
  loadSpreadsheet (spreadsheetId link) wj = Returned (Some sheet) wj ->
  exists s' w',
    App.collaborationEffect loadSpreadsheet s w = Returned s' w'
    /\ App.screen s' = App.app
    /\ App.currentSpreadsheet s' = Some sheet
    /\ App.toasts s'
       = App.toasts s ++
           [App.success ("Joined collaboration on " +:+ quote +:+
                         spreadsheetTitle link +:+ quote)]
    /\ localStorage w' = localStorage wj
    /\ dispatched w' = dispatched wj
    /\ parseCollaborationLink w' = Returned None w'
    /\ App.collaborationEffect loadSpreadsheet s' w' = Returned s' w'.
Proof.
  intros Hp Hid Hu Hl Hr Ha wj Hload. subst wj.
  rewrite (effect_joins_first loadSpreadsheet s w id u link cs acc
             Hp Hid Hu Hl Hr Ha).
  cbn zeta. rewrite Hload. eexists _, _. split; [reflexivity|].
  split; [reflexivity|]. split; [reflexivity|]. split; [reflexivity|].
  split; [reflexivity|]. split; [reflexivity|]. split; [reflexivity|].
  reflexivity.
Qed.

Lemma effect_opens_the_sheet_and_clears_the_link_witness :
  let s := App.mkState (Some (App.mkUser "Bob" "b@x.com" None)) App.dashboard
                       (None : option string) [] in
  let w := navigate (mkLocation "https://x" ("?collab=" +:+ budgetLink))
                    (at_time 1700000001000 shared) in
  let wj := after (addCollaborator budgetLink "b@x.com" "Bob" w) w in
  exists s' w',
    App.collaborationEffect (fun sid => ret (Some sid)) s w = Returned s' w'
    /\ App.screen s' = App.app
    /\ App.currentSpreadsheet s' = Some "Budget2024"
    /\ App.toasts s'
       = App.toasts s ++
           [App.success ("Joined collaboration on " +:+ quote +:+
                         "Budget" +:+ quote)]
    /\ localStorage w' = localStorage wj
    /\ dispatched w' = dispatched wj
    /\ parseCollaborationLink w' = Returned None w'
    /\ App.collaborationEffect (fun sid => ret (Some sid)) s' w'
       = Returned s' w'.
Proof.
  apply (effect_opens_the_sheet_and_clears_the_link
           (fun sid : string => ret (Some sid))
           (App.mkState (Some (App.mkUser "Bob" "b@x.com" None)) App.dashboard
                        None [])
           (navigate (mkLocation "https://x" ("?collab=" +:+ budgetLink))
                     (at_time 1700000001000 shared))
           budgetLink (App.mkUser "Bob" "b@x.com" None)
           (mkLink budgetLink "Budget2024" "Budget" "a@x.com" 1700000000000 None)
           [] [] "Budget2024").
  - vm_compute. reflexivity.
  - discriminate.
  - reflexivity.
  - vm_compute. reflexivity.
  - vm_compute. reflexivity.
  - vm_compute. reflexivity.
  - reflexivity.
Defined.

(** * From sharing to joining *)

Lemma parse_collab_page w o id :
  plain id = true ->
  result (parseCollaborationLink
            (navigate (mkLocation o ("?collab=" +:+ id)) w)) = Some (Some id).
Proof.
  intros H. unfold parseCollaborationLink, bind, window_location, ret.
  cbn [location navigate search]. now rewrite (new_collab _ H).
Qed.

Lemma freshId_not_empty rnd w : freshId rnd w <> "".
Proof. unfold freshId. cbv [String.append]. discriminate. Qed.

(** X26. The whole way of a link. An owner creates a link with a suffix
    free of [&], [+] and [%], and the URL made for its id is the origin
    followed by [?collab=] and the id. A logged-in user on a page with that
    query string, in a store with one record per email, is joined by the
    effect to the spreadsheet of the link: whatever [loadSpreadsheet]
    returns, as long as it leaves the store alone, every read of the roster
    less than five minutes later has exactly one entry with the user's
    email, active, and the last activity dispatched is for the owner. *)
Theorem shared_link_joins_its_spreadsheet
    {Sheet : Type} (loadSpreadsheet : string -> M (option Sheet))
    (s : App.State Sheet) w rnd sid title owner u t2 :
  consistent (localStorage w) ->
  plain rnd = true ->
  App.user s = Some u ->
  (forall w', exists r, loadSpreadsheet sid w' = Returned r w') ->
  let id := freshId rnd w in
  let w1 := after (createCollaborationLink rnd sid title owner w) w in
  let page := navigate (mkLocation (origin (location w1)) ("?collab=" +:+ id))
                       (at_time t2 w1) in
  result (getCollaborationLinkUrl id w1)
  = Some (origin (location w1) +:+ "?collab=" +:+ id)
  /\ exists s' w',
       App.collaborationEffect loadSpreadsheet s page = Returned s' w'
       /\ (forall t, t - t2 < fiveMinutes ->
             exists rs c,
               roster sid t w' = Some rs
               /\ List.filter (hasEmail (App.userEmail u)) rs = [c]
               /\ isActive c = true)
       /\ last (dispatched w')
          = Some (mkActivity owner "collaboration_joined" None
                    (App.userName u +:+ " joined " +:+ quote +:+ title +:+ quote)).
Proof.
  intros Hc Hplain Hu Hload id w1 page. subst page w1 id.
  split; [reflexivity|].
  destruct (owners_typed _ Hc owner) as [ids Hids].
  rewrite (createCollaborationLink_runs _ _ _ _ _ _ Hids). cbn [after].
  set (id := freshId rnd w).
  set (w1 := created rnd sid title owner ids w).
  set (link := mkLink id sid title owner (clock w) None).
  set (page := navigate (mkLocation (origin (location w1)) ("?collab=" +:+ id))
                        (at_time t2 w1)).
  assert (Hc1 : consistent (localStorage page)).
  { exact (created_consistent rnd sid title owner ids w Hc). }
  assert (Hl : localStorage page !! linkKey id = Some (JLink link)).
  { exact (created_link rnd sid title owner ids w). }
  destruct (rosters_unique _ Hc1 sid) as (cs & Hcs & Hnd).
  destruct (access_typed _ Hc1 (App.userEmail u)) as [acc Hacc].
  assert (Hp : result (parseCollaborationLink page) = Some (Some id)).
  { apply parse_collab_page. now apply generated_plain. }
  pose proof (effect_joins_first loadSpreadsheet s page id u link cs acc
                Hp (freshId_not_empty rnd w) Hu Hl Hcs Hacc) as Heff.
  cbn zeta in Heff.
  rewrite (addCollaborator_found _ _ _ _ _ _ _ Hl Hcs Hacc) in Heff.
  cbn [after] in Heff.
  set (wj := joined id (App.userEmail u) (App.userName u) link cs acc page)
    in Heff.
  destruct (Hload wj) as [r Hr].
  change (spreadsheetId link) with sid in Heff. rewrite Hr in Heff.
  assert (Hroster : forall w',
            localStorage w' = localStorage wj ->
            forall t, t - t2 < fiveMinutes ->
              exists rs c,
                roster sid t w' = Some rs
                /\ List.filter (hasEmail (App.userEmail u)) rs = [c]
                /\ isActive c = true).
  { intros w' Hst t Ht.
    destruct (joined_record t2 (App.userEmail u) (App.userName u) cs Hnd)
      as (c & Hf & _ & Hla & _ & _).
    exists (map (withLiveness t)
              (upsert t2 (App.userEmail u) (App.userName u)
                      (map (withLiveness t2) cs))),
           (withLiveness t c).
    split.
    - apply roster_reads. rewrite Hst.
      exact (stored_roster_joined id (App.userEmail u) (App.userName u)
                                  link cs acc page).
    - rewrite (filter_map_same _ _ _
                 (hasEmail_withLiveness (App.userEmail u) t)), Hf.
      split; [reflexivity|]. simpl. rewrite Hla. now apply Z.ltb_lt. }
  assert (Hlast : last (dispatched wj)
                  = Some (mkActivity owner "collaboration_joined" None
                            (App.userName u +:+ " joined " +:+ quote +:+ title
                             +:+ quote))).
  { unfold wj, joined. cbn [dispatched]. apply last_snoc. }
  destruct r as [sheet|]; eexists _, _; (split; [exact Heff|]);
    (split; [now apply Hroster | exact Hlast]).
Qed.

Lemma shared_link_joins_its_spreadsheet_witness :
  let s := App.mkState (Some (App.mkUser "Bob" "b@x.com" None)) App.dashboard
                       (None : option string) [] in
  let w := at_time 1700000000000 emptyWorld in
  let id := freshId "k3j9x0a1b" w in
  let w1 := after (createCollaborationLink "k3j9x0a1b" "Budget2024" "Budget"
                     "a@x.com" w) w in
  let page := navigate (mkLocation (origin (location w1)) ("?collab=" +:+ id))
                       (at_time 1700000001000 w1) in
  result (getCollaborationLinkUrl id w1)
  = Some (origin (location w1) +:+ "?collab=" +:+ id)
  /\ exists s' w',
       App.collaborationEffect (fun _ => ret None) s page = Returned s' w'
       /\ (forall t, t - 1700000001000 < fiveMinutes ->
             exists rs c,
               roster "Budget2024" t w' = Some rs
               /\ List.filter (hasEmail "b@x.com") rs = [c]
               /\ isActive c = true)
       /\ last (dispatched w')
          = Some (mkActivity "a@x.com" "collaboration_joined" None
                    ("Bob" +:+ " joined " +:+ quote +:+ "Budget" +:+ quote)).
Proof.
  apply (shared_link_joins_its_spreadsheet
           (fun _ : string => ret (None : option string))
           (App.mkState (Some (App.mkUser "Bob" "b@x.com" None)) App.dashboard
                        None [])
           (at_time 1700000000000 emptyWorld) "k3j9x0a1b" "Budget2024" "Budget"
           "a@x.com" (App.mkUser "Bob" "b@x.com" None) 1700000001000).
  - exact consistent_empty.
  - reflexivity.
  - reflexivity.
  - intros w'. now exists None.
Defined.
